(** * kick-ws: event dispatcher, frame decoder and connection controller

    A shallow embedding of [src/EventEmitter.ts], [src/MessageParser.ts],
    [src/WebSocketManager.ts] and the class of [src/index.ts], the
    properties of the specification that were checked against it, and
    further properties of the code.

    JavaScript strings are modelled by [string]: the UTF-8 text of the frame
    as it travels on the socket.  Every character the code inspects (the
    emote pattern, the control prefixes, the event names) is ASCII, so a
    byte-wise reading and a code-unit-wise reading agree on them. *)

From Stdlib Require Import ZArith Ascii String List Lia Bool.
From stdpp Require Import base option list gmap strings.

Set Warnings "-register-all".
Local Open Scope Z_scope.
Local Open Scope stdpp_scope.

(* ================================================================== *)
(** * JavaScript values and completions *)
(* ================================================================== *)

Module Js.

(** A call either returns or throws; the thrown value is kept as the text
    of its message. *)
Inductive result (A : Type) : Type :=
| Ok (a : A)
| Throw (error : string).
Arguments Ok {A} a.
Arguments Throw {A} error.

Definition bind {A B} (m : result A) (k : A -> result B) : result B :=
  match m with
  | Ok a => k a
  | Throw e => Throw e
  end.

(** [try { body } catch (e) { handler e }] *)
Definition try_catch {A} (body : result A) (handler : string -> result A) : result A :=
  match body with
  | Ok a => Ok a
  | Throw e => handler e
  end.

Section Values.
Variable num : Type.

(** What [JSON.parse] produces, plus [undefined] (an absent property).
    An object keeps its own properties as an association list; a lookup
    takes the first binding of a key. *)
Inductive value : Type :=
| VUndefined
| VNull
| VBool (b : bool)
| VNum (n : num)
| VStr (s : string)
| VArr (items : list value)
| VObj (fields : list (string * value)).
End Values.

Arguments VUndefined {num}.
Arguments VNull {num}.
Arguments VBool {num} b.
Arguments VNum {num} n.
Arguments VStr {num} s.
Arguments VArr {num} items.
Arguments VObj {num} fields.

(** The part of the host the code calls into: IEEE numbers (only their
    truthiness and printing are used) and the built-in [JSON.parse], which
    answers [None] where the built-in throws a SyntaxError. *)
Class Runtime : Type := {
  num : Type;
  num_zero : num;
  num_truthy : num -> bool;
  num_toString : num -> string;
  JSON_parse : string -> option (value num)
}.

Section Semantics.
Context {RT : Runtime}.

Definition val : Type := value num.

(** ToBoolean *)
Definition truthy (v : val) : bool :=
  match v with
  | VUndefined | VNull => false
  | VBool b => b
  | VNum n => num_truthy n
  | VStr s => negb (String.eqb s EmptyString)
  | VArr _ | VObj _ => true
  end.

(** [a || b] *)
Definition or_else (a b : val) : val := if truthy a then a else b.

Fixpoint lookup_field (k : string) (fields : list (string * val)) : val :=
  match fields with
  | [] => VUndefined
  | (k', v) :: rest => if String.eqb k k' then v else lookup_field k rest
  end.

(** [v.k] for the property names the decoder reads: none of them is
    defined on a prototype, so only an object's own properties answer. *)
Definition get (v : val) (k : string) : result val :=
  match v with
  | VUndefined => Throw "TypeError: cannot read properties of undefined"
  | VNull => Throw "TypeError: cannot read properties of null"
  | VObj fields => Ok (lookup_field k fields)
  | _ => Ok VUndefined
  end.

(** [v?.k] *)
Definition get_opt (v : val) (k : string) : val :=
  match v with
  | VObj fields => lookup_field k fields
  | _ => VUndefined
  end.

Definition join_comma (parts : list string) : string :=
  match parts with
  | [] => EmptyString
  | p :: rest => fold_left (fun acc q => acc +:+ "," +:+ q) rest p
  end.

(** ToString, as [JSON.parse] applies it to an argument that is not a
    string. *)
Fixpoint toString (v : val) : string :=
  match v with
  | VUndefined => "undefined"
  | VNull => "null"
  | VBool true => "true"
  | VBool false => "false"
  | VNum n => num_toString n
  | VStr s => s
  | VArr items =>
      join_comma (List.map (fun x => match x with
                                     | VUndefined | VNull => EmptyString
                                     | _ => toString x
                                     end) items)
  | VObj _ => "[object Object]"
  end.

(** [JSON.parse(v)]: the argument is converted to a string first. *)
Definition JSON_parse_value (v : val) : result val :=
  match JSON_parse (toString v) with
  | Some parsed => Ok parsed
  | None => Throw "SyntaxError: JSON.parse"
  end.
End Semantics.

(** ** Strings *)

Definition code (c : ascii) : nat := nat_of_ascii c.

Definition in_range (lo hi : nat) (c : ascii) : bool :=
  (Nat.leb lo (code c)) && (Nat.leb (code c) hi).

(** [\d] *)
Definition is_digit (c : ascii) : bool := in_range 48 57 c.

(** [\w]: [A-Za-z0-9_] *)
Definition is_word (c : ascii) : bool :=
  in_range 48 57 c || in_range 65 90 c || in_range 97 122 c || Nat.eqb (code c) 95.

(** [s.startsWith(p)] *)
Definition startsWith (s p : string) : bool := String.prefix p s.

Definition ascii_space (c : ascii) : bool :=
  in_range 9 13 c || Nat.eqb (code c) 32.

(** White space and line terminators beyond ASCII, in UTF-8:
    U+00A0; U+1680; U+2000..U+200A, U+2028, U+2029, U+202F; U+205F; U+3000;
    U+FEFF. *)
Definition space2 (c1 c2 : ascii) : bool :=
  Nat.eqb (code c1) 194 && Nat.eqb (code c2) 160.

Definition space3 (c1 c2 c3 : ascii) : bool :=
  (Nat.eqb (code c1) 225 && Nat.eqb (code c2) 154 && Nat.eqb (code c3) 128)
  || (Nat.eqb (code c1) 226 && Nat.eqb (code c2) 128
      && (in_range 128 138 c3 || in_range 168 169 c3 || Nat.eqb (code c3) 175))
  || (Nat.eqb (code c1) 226 && Nat.eqb (code c2) 129 && Nat.eqb (code c3) 159)
  || (Nat.eqb (code c1) 227 && Nat.eqb (code c2) 128 && Nat.eqb (code c3) 128)
  || (Nat.eqb (code c1) 239 && Nat.eqb (code c2) 187 && Nat.eqb (code c3) 191).

(** [s.trim() === ""]: the string holds white space only. *)
Fixpoint is_blank (s : string) : bool :=
  match s with
  | EmptyString => true
  | String c1 s1 =>
      if ascii_space c1 then is_blank s1
      else match s1 with
           | EmptyString => false
           | String c2 s2 =>
               if space2 c1 c2 then is_blank s2
               else match s2 with
                    | EmptyString => false
                    | String c3 s3 => if space3 c1 c2 c3 then is_blank s3 else false
                    end
           end
  end.

End Js.

(* ================================================================== *)
(** * MessageParser.ts: the frame decoder *)
(* ================================================================== *)

Module MessageParser.
Import Js.

Declare Scope js_scope.
Delimit Scope js_scope with js.
Notation "x <- m ;; k" := (bind m (fun x => k))
  (at level 100, m at next level, right associativity) : js_scope.
Local Open Scope js_scope.

(** [KickEventType] of types.ts *)
Inductive KickEventType : Type :=
| ChatMessage | MessageDeleted | UserBanned | UserUnbanned | Subscription
| GiftedSubscriptions | PinnedMessageCreated | StreamHost | PollUpdate | PollDelete
| ready | disconnect | error | rawMessage.

#[global] Instance KickEventType_eq_dec : EqDecision KickEventType.
Proof. solve_decision. Defined.

(** The string a [KickEventType] is in the source. *)
Definition event_name (k : KickEventType) : string :=
  match k with
  | ChatMessage => "ChatMessage"
  | MessageDeleted => "MessageDeleted"
  | UserBanned => "UserBanned"
  | UserUnbanned => "UserUnbanned"
  | Subscription => "Subscription"
  | GiftedSubscriptions => "GiftedSubscriptions"
  | PinnedMessageCreated => "PinnedMessageCreated"
  | StreamHost => "StreamHost"
  | PollUpdate => "PollUpdate"
  | PollDelete => "PollDelete"
  | ready => "ready"
  | disconnect => "disconnect"
  | error => "error"
  | rawMessage => "rawMessage"
  end.

(** ** cleanEmotes: [content.replace(/\[emote:(\d+):(\w+)\]/g, "$2")] *)

(** Longest prefix of characters satisfying [p], and what follows it: a
    greedy [+] whose next pattern character is outside the class never
    needs to give characters back. *)
Fixpoint span (p : ascii -> bool) (s : string) : string * string :=
  match s with
  | EmptyString => (EmptyString, EmptyString)
  | String c rest =>
      if p c then let '(taken, after) := span p rest in (String c taken, after)
      else (EmptyString, s)
  end.

Fixpoint strip_prefix (p s : string) : option string :=
  match p, s with
  | EmptyString, _ => Some s
  | String a p', String b s' => if Ascii.eqb a b then strip_prefix p' s' else None
  | String _ _, EmptyString => None
  end.

Definition is_empty (s : string) : bool :=
  match s with EmptyString => true | _ => false end.

(** One attempt of the pattern at the start of [s]: the second group and
    the text after the match. *)
Definition match_emote (s : string) : option (string * string) :=
  match strip_prefix "[emote:" s with
  | None => None
  | Some s1 =>
      let '(id, s2) := span is_digit s1 in
      if is_empty id then None
      else match s2 with
           | String ":" s3 =>
               let '(name, s4) := span is_word s3 in
               if is_empty name then None
               else match s4 with
                    | String "]" s5 => Some (name, s5)
                    | _ => None
                    end
           | _ => None
           end
  end.

(** The global replace: scan from the left; where the pattern matches,
    write the name and go on after the match, otherwise copy one character.
    [fuel] bounds the number of steps; the length of the text is enough. *)
Fixpoint replace_from (fuel : nat) (s : string) : string :=
  match fuel with
  | O => s
  | S fuel' =>
      match match_emote s with
      | Some (name, rest) => name +:+ replace_from fuel' rest
      | None =>
          match s with
          | EmptyString => EmptyString
          | String c s' => String c (replace_from fuel' s')
          end
      end
  end.

Definition replace_emotes (s : string) : string := replace_from (String.length s) s.

Section Parser.
Context {RT : Runtime}.

Definition cleanEmotes (content : val) : result string :=
  if negb (truthy content) then Ok EmptyString
  else match content with
       | VStr s => Ok (replace_emotes s)
       | _ => Throw "TypeError: content.replace is not a function"
       end.

Definition str (s : string) : val := VStr s.
Definition obj (fields : list (string * val)) : val := VObj fields.

(** [a || b], [b] evaluated only when [a] is falsy *)
Definition or_lazy (a : val) (b : result val) : result val :=
  if truthy a then Ok a else b.

Definition typeof (v : val) : string :=
  match v with
  | VUndefined => "undefined"
  | VNull | VArr _ | VObj _ => "object"
  | VBool _ => "boolean"
  | VNum _ => "number"
  | VStr _ => "string"
  end.

Fixpoint mapM {A B} (f : A -> result B) (l : list A) : result (list B) :=
  match l with
  | [] => Ok []
  | x :: rest => y <- f x ;; ys <- mapM f rest ;; Ok (y :: ys)
  end.

Definition parseChatMessage (data : val) : result val :=
  id <- get data "id" ;;
  raw_content <- get data "content" ;;
  content <- cleanEmotes raw_content ;;
  created_at <- get data "created_at" ;;
  sender <- get data "sender" ;;
  sender_id <- get sender "id" ;;
  username <- get sender "username" ;;
  slug <- get sender "slug" ;;
  identity <- get sender "identity" ;;
  chatroom <- get data "chatroom" ;;
  Ok (obj [("id", id);
           ("content", str content);
           ("type", str "message");
           ("created_at", created_at);
           ("sender", obj [("id", sender_id);
                           ("username", username);
                           ("slug", slug);
                           ("identity",
                            obj [("color", or_else (get_opt identity "color") (str "#ffffff"));
                                 ("badges", or_else (get_opt identity "badges") (VArr []))])]);
           ("chatroom", obj [("id", or_else (get_opt chatroom "id") (VNum num_zero))])]).

Definition parseMessageDeleted (data : val) : result val :=
  message_id <- get data "message_id" ;;
  chatroom_id <- get data "chatroom_id" ;;
  Ok (obj [("message_id", message_id); ("chatroom_id", chatroom_id);
           ("type", str "message_deleted")]).

Definition parseUserBanned (data : val) : result val :=
  username <- get data "username" ;;
  name <- or_lazy username
            (banned <- get data "banned_username" ;; Ok (or_else banned (str "unknown"))) ;;
  Ok (obj [("username", name); ("type", str "user_banned")]).

Definition parseUserUnbanned (data : val) : result val :=
  username <- get data "username" ;;
  name <- or_lazy username
            (unbanned <- get data "unbanned_username" ;; Ok (or_else unbanned (str "unknown"))) ;;
  Ok (obj [("username", name); ("type", str "user_unbanned")]).

Definition parseSubscription (data : val) : result val :=
  username <- get data "username" ;;
  name <- or_lazy username
            (user <- get data "user" ;; Ok (or_else (get_opt user "username") (str "unknown"))) ;;
  Ok (obj [("username", name); ("type", str "subscription")]).

Definition parseGiftedSubscriptions (data : val) : result val :=
  gifted_by <- get data "gifted_by" ;;
  gifter <- or_lazy gifted_by
              (g <- get data "gifter" ;;
               alt <- (if String.eqb (typeof g) "object" then get g "username" else Ok g) ;;
               Ok (or_else alt (str "unknown"))) ;;
  rs <- get data "recipients" ;;
  recipients <- match rs with
                | VArr items =>
                    mapM (fun r => if String.eqb (typeof r) "string" then Ok r
                                   else (u <- get r "username" ;; Ok (or_else u (str "unknown"))))
                         items
                | _ => Ok []
                end ;;
  Ok (obj [("gifted_by", gifter); ("recipients", VArr recipients);
           ("type", str "gifted_subscriptions")]).

Definition parsePinnedMessageCreated (data : val) : result val :=
  inner <- get data "message" ;;
  message <- parseChatMessage inner ;;
  Ok (obj [("message", message); ("type", str "pinned_message_created")]).

Definition string_or_username (v : val) : val :=
  if String.eqb (typeof v) "string" then v
  else or_else (get_opt v "username") (str "unknown").

Definition parseStreamHost (data : val) : result val :=
  hoster <- get data "hoster" ;;
  hosted_channel <- get data "hosted_channel" ;;
  Ok (obj [("hoster", string_or_username hoster);
           ("hosted_channel", string_or_username hosted_channel);
           ("type", str "stream_host")]).

Definition parsePollUpdate (data : val) : result val :=
  id <- get data "id" ;;
  question <- get data "question" ;;
  opts <- get data "options" ;;
  options <- match or_else opts (VArr []) with
             | VArr items =>
                 mapM (fun opt =>
                         oid <- get opt "id" ;;
                         text <- get opt "text" ;;
                         votes <- get opt "votes" ;;
                         Ok (obj [("id", oid); ("text", text);
                                  ("votes", or_else votes (VNum num_zero))]))
                      items
             | _ => Throw "TypeError: (data.options || []).map is not a function"
             end ;;
  Ok (obj [("poll_id", id); ("question", question); ("options", VArr options);
           ("type", str "poll_update")]).

Definition parsePollDelete (data : val) : result val :=
  id <- get data "id" ;;
  Ok (obj [("poll_id", id); ("type", str "poll_delete")]).

(** [name.startsWith("pusher:") || name.startsWith("pusher_internal:")] *)
Definition is_pusher_event (name : string) : bool :=
  startsWith name "pusher:" || startsWith name "pusher_internal:".

(** [v === s] for a string literal [s] *)
Definition is_string (v : val) (s : string) : bool :=
  match v with
  | VStr s' => String.eqb s' s
  | _ => false
  end.

Definition is_undefined (v : val) : bool :=
  match v with VUndefined => true | _ => false end.

Record parsed : Type := { type : KickEventType; data : val }.

Definition tagged (k : KickEventType) (payload : result val) : result (option parsed) :=
  d <- payload ;; Ok (Some {| type := k; data := d |}).

(** The [switch (message.event)] of parseMessage. *)
Definition dispatch_event (name : string) (eventData : val) : result (option parsed) :=
  if String.eqb name "App\Events\ChatMessageEvent" then
    tagged ChatMessage (parseChatMessage eventData)
  else if String.eqb name "App\Events\MessageDeletedEvent" then
    tagged MessageDeleted (parseMessageDeleted eventData)
  else if String.eqb name "App\Events\UserBannedEvent" then
    tagged UserBanned (parseUserBanned eventData)
  else if String.eqb name "App\Events\UserUnbannedEvent" then
    tagged UserUnbanned (parseUserUnbanned eventData)
  else if String.eqb name "App\Events\SubscriptionEvent" then
    tagged Subscription (parseSubscription eventData)
  else if String.eqb name "App\Events\GiftedSubscriptionsEvent" then
    tagged GiftedSubscriptions (parseGiftedSubscriptions eventData)
  else if String.eqb name "App\Events\PinnedMessageCreatedEvent" then
    tagged PinnedMessageCreated (parsePinnedMessageCreated eventData)
  else if String.eqb name "App\Events\StreamHostEvent" then
    tagged StreamHost (parseStreamHost eventData)
  else if String.eqb name "App\Events\PollUpdateEvent" then
    tagged PollUpdate (parsePollUpdate eventData)
  else if String.eqb name "App\Events\PollDeleteEvent" then
    tagged PollDelete (parsePollDelete eventData)
  else Ok None.

Definition JSON_parse_text (s : string) : result val :=
  match JSON_parse s with
  | Some v => Ok v
  | None => Throw "SyntaxError: JSON.parse"
  end.

(** The inner [try] of parseMessage: [None] stands for its two
    [return null]. *)
Definition parse_event_data (d : val) : option val :=
  match try_catch
          (if is_undefined d || is_string d EmptyString then Ok None
           else (eventData <- JSON_parse_value d ;; Ok (Some eventData)))
          (fun _ => Ok None)
  with
  | Ok r => r
  | Throw _ => None
  end.

(** The body of the outer [try] of parseMessage (console output is not
    modelled).  A truthy [message.event] that is not a string has no
    [startsWith] method: the call throws. *)
Definition parseMessage_try (rawMessage : string) : result (option parsed) :=
  if is_empty rawMessage || is_blank rawMessage then Ok None
  else
    message <- JSON_parse_text rawMessage ;;
    ev <- get message "event" ;;
    missing <- (if negb (truthy ev) then Ok true
                else (d <- get message "data" ;; Ok (is_undefined d))) ;;
    if (missing : bool) then Ok None
    else
      match ev with
      | VStr name =>
          if is_pusher_event name then Ok None
          else
            d <- get message "data" ;;
            if String.eqb name EmptyString || is_string d EmptyString then Ok None
            else match parse_event_data d with
                 | None => Ok None
                 | Some eventData => dispatch_event name eventData
                 end
      | _ => Throw "TypeError: message.event.startsWith is not a function"
      end.

Definition parseMessage (rawMessage : string) : result (option parsed) :=
  try_catch (parseMessage_try rawMessage) (fun _ => Ok None).

Definition extractEventType_try (rawMessage : string) : result (option string) :=
  if is_empty rawMessage || is_blank rawMessage then Ok None
  else
    message <- JSON_parse_text rawMessage ;;
    ev <- get message "event" ;;
    if negb (truthy ev) then Ok None
    else
      match ev with
      | VStr name =>
          if is_pusher_event name then Ok None
          else if String.eqb name EmptyString then Ok None
          else Ok (Some name)
      | _ => Throw "TypeError: message.event.startsWith is not a function"
      end.

Definition extractEventType (rawMessage : string) : result (option string) :=
  try_catch (extractEventType_try rawMessage) (fun _ => Ok None).

(** The body of the [try] of isValidMessage; [&&] stops at the first
    falsy operand. *)
Definition isValidMessage_try (message : string) : result bool :=
  if is_empty message || is_blank message then Ok false
  else
    parsed <- JSON_parse_text message ;;
    ev <- get parsed "event" ;;
    if negb (truthy ev) then Ok false
    else
      d <- get parsed "data" ;;
      Ok (negb (is_undefined d) && negb (is_string ev EmptyString)
          && negb (is_string d EmptyString)).

Definition isValidMessage (message : string) : result bool :=
  try_catch (isValidMessage_try message) (fun _ => Ok false).
End Parser.

End MessageParser.

(* ================================================================== *)
(** * EventEmitter.ts: the event dispatcher *)
(* ================================================================== *)

Module EventEmitter.
Import Js.

(** A function value.  Functions are compared by reference: [Fn id] is
    the function the program created as its [id]-th one, and every call
    of [once] creates a new closure, told apart by [serial]. *)
Inductive listener : Type :=
| Fn (id : nat)
| OnceWrapper (serial : nat) (event : string) (inner : listener).

#[global] Instance listener_eq_dec : EqDecision listener.
Proof. solve_decision. Defined.

(** An EventEmitter object: [events] is its private
    [Map<string, Set<Function>>], a set being kept in insertion order as
    JavaScript keeps it; [closures] counts the closures [once] has created;
    [fields] is everything else a listener can reach (the fields of a
    subclass, the variables of the program). *)
Record object (U : Type) : Type := Object {
  events : gmap string (list listener);
  closures : nat;
  fields : U
}.
Arguments Object {U} events closures fields.
Arguments events {U} o.
Arguments closures {U} o.
Arguments fields {U} o.

(** What one [emit] did: the object afterwards, what the call returned or
    threw, and the calls it made, in order, each with its completion. *)
Record emitted (U : Type) : Type := Emitted {
  after : object U;
  returned : result bool;
  calls : list (listener * result unit)
}.
Arguments Emitted {U} after returned calls.
Arguments after {U} e.
Arguments returned {U} e.
Arguments calls {U} e.

Section Emitter.
Context {U Arg : Type}.

(** What calling the program's [id]-th function with [arg] does. *)
Variable call : nat -> Arg -> object U -> object U * result unit.

Definition new_emitter (u : U) : object U := Object ∅ 0 u.

Definition with_events (m : gmap string (list listener)) (o : object U) : object U :=
  Object m (closures o) (fields o).

(** [Set.prototype.add] *)
Definition set_add (l : listener) (ls : list listener) : list listener :=
  if bool_decide (l ∈ ls) then ls else ls ++ [l].

(** [Set.prototype.delete] *)
Definition set_delete (l : listener) (ls : list listener) : list listener :=
  List.filter (fun l' => negb (bool_decide (l' = l))) ls.

Definition on (event : string) (l : listener) (o : object U) : object U :=
  let ls := default [] (events o !! event) in
  with_events (<[event := set_add l ls]> (events o)) o.

Definition off (event : string) (l : listener) (o : object U) : object U :=
  match events o !! event with
  | Some ls =>
      let ls' := set_delete l ls in
      match ls' with
      | [] => with_events (delete event (events o)) o
      | _ => with_events (<[event := ls']> (events o)) o
      end
  | None => o
  end.

Definition once (event : string) (l : listener) (o : object U) : object U :=
  let onceWrapper := OnceWrapper (closures o) event l in
  on event onceWrapper (Object (events o) (S (closures o)) (fields o)).

(** [removeAllListeners(event?)]: an absent or empty name clears all. *)
Definition removeAllListeners (event : option string) (o : object U) : object U :=
  match event with
  | Some name =>
      if String.eqb name EmptyString then with_events ∅ o
      else with_events (delete name (events o)) o
  | None => with_events ∅ o
  end.

(** Calling a function value: the closure of [once] first removes
    itself, then calls the listener it wraps. *)
Fixpoint invoke (l : listener) (arg : Arg) (o : object U) : object U * result unit :=
  match l with
  | Fn id => call id arg o
  | OnceWrapper _ event inner => invoke inner arg (off event l o)
  end.

(** The loop of [emit] over the copied array: each call inside its own
    [try]/[catch], whose handler only reports on the console.  The log
    lists the calls made, each with how it completed. *)
Fixpoint run_listeners (listenersArray : list listener) (arg : Arg) (o : object U)
  : object U * result unit * list (listener * result unit) :=
  match listenersArray with
  | [] => (o, Ok tt, [])
  | l :: rest =>
      let '(o1, how) := invoke l arg o in
      match try_catch how (fun _ => Ok tt) with
      | Ok _ =>
          let '(o2, r, log) := run_listeners rest arg o1 in
          (o2, r, (l, how) :: log)
      | Throw e => (o1, Throw e, [(l, how)])
      end
  end.

Definition emit (event : string) (arg : Arg) (o : object U) : emitted U :=
  match events o !! event with
  | None => Emitted o (Ok false) []
  | Some [] => Emitted o (Ok false) []
  | Some listeners =>
      let listenersArray := listeners in
      let '(o', r, log) := run_listeners listenersArray arg o in
      Emitted o' (bind r (fun _ => Ok true)) log
  end.

Definition listenerCount (event : string) (o : object U) : nat :=
  match events o !! event with
  | Some ls => length ls
  | None => 0%nat
  end.

(** The listeners registered for [event], as [emit] would copy them. *)
Definition listeners_of (event : string) (o : object U) : list listener :=
  default [] (events o !! event).

(** [Array.from(this.events.keys())].  The map of the model does not keep
    the order in which the names were first registered: the list holds the
    names the source answers, each once, in the order of the model. *)
Definition eventNames (o : object U) : list string := (map_to_list (events o)).*1.

(** [prependListener]: the set is copied, emptied and filled again, the
    new listener first. *)
Definition prependListener (event : string) (l : listener) (o : object U) : object U :=
  let listenersArray := default [] (events o !! event) in
  let listeners := fold_left (fun set l' => set_add l' set) listenersArray (set_add l []) in
  with_events (<[event := listeners]> (events o)) o.

Definition prependOnceListener (event : string) (l : listener) (o : object U) : object U :=
  let onceWrapper := OnceWrapper (closures o) event l in
  prependListener event onceWrapper (Object (events o) (S (closures o)) (fields o)).
End Emitter.

End EventEmitter.

(* ================================================================== *)
(** * WebSocketManager.ts: the connection controller *)
(* ================================================================== *)

Module WebSocketManager.
Import Js.
Export EventEmitter.

(** [ConnectionState] of types.ts *)
Inductive ConnectionState : Type :=
| disconnected | connecting | connected | reconnecting | error.

#[global] Instance ConnectionState_eq_dec : EqDecision ConnectionState.
Proof. solve_decision. Defined.

(** [Required<KickWebSocketOptions>] ([debug] only switches console
    output, which is not modelled). *)
Record Options : Type := {
  debug : bool;
  autoReconnect : bool;
  reconnectInterval : Z;
  enableBuffer : bool;
  bufferSize : Z;
  filteredEvents : list MessageParser.KickEventType
}.

Definition default_options : Options :=
  {| debug := false; autoReconnect := true; reconnectInterval := 5000;
     enableBuffer := false; bufferSize := 1000; filteredEvents := [] |}.

(** The private fields of a WebSocketManager.  A socket and a timer are
    known by the number the host gave them; timer numbers start at 1, so a
    timer number is truthy. *)
Record manager : Type := Manager {
  ws : option nat;
  channelName : string;
  channelId : Z;
  connectionState : ConnectionState;
  options : Options;
  reconnectTimer : option nat;
  messageBuffer : list string;
  isManualDisconnect : bool
}.

Definition new_manager (opts : Options) : manager :=
  Manager None EmptyString 0 disconnected opts None [] false.

Definition set_ws (x : option nat) (m : manager) : manager :=
  Manager x (channelName m) (channelId m) (connectionState m) (options m)
          (reconnectTimer m) (messageBuffer m) (isManualDisconnect m).
Definition set_channelName (x : string) (m : manager) : manager :=
  Manager (ws m) x (channelId m) (connectionState m) (options m)
          (reconnectTimer m) (messageBuffer m) (isManualDisconnect m).
Definition set_channelId (x : Z) (m : manager) : manager :=
  Manager (ws m) (channelName m) x (connectionState m) (options m)
          (reconnectTimer m) (messageBuffer m) (isManualDisconnect m).
Definition set_connectionState (x : ConnectionState) (m : manager) : manager :=
  Manager (ws m) (channelName m) (channelId m) x (options m)
          (reconnectTimer m) (messageBuffer m) (isManualDisconnect m).
Definition set_reconnectTimer (x : option nat) (m : manager) : manager :=
  Manager (ws m) (channelName m) (channelId m) (connectionState m) (options m)
          x (messageBuffer m) (isManualDisconnect m).
Definition set_messageBuffer (x : list string) (m : manager) : manager :=
  Manager (ws m) (channelName m) (channelId m) (connectionState m) (options m)
          (reconnectTimer m) x (isManualDisconnect m).
Definition set_isManualDisconnect (x : bool) (m : manager) : manager :=
  Manager (ws m) (channelName m) (channelId m) (connectionState m) (options m)
          (reconnectTimer m) (messageBuffer m) x.

(** ** The host: timers, sockets and the channel lookup *)

Inductive readyState : Type := CONNECTING | OPEN | CLOSING | CLOSED.

#[global] Instance readyState_eq_dec : EqDecision readyState.
Proof. solve_decision. Defined.

(** Who awaits a channel lookup: [connect], whose [catch] calls
    handleConnectionError and rethrows, or the callback of the reconnect
    timer, whose [catch] only logs. *)
Inductive awaiter : Type := ByConnect | ByReconnectTimer.

Record host : Type := Host {
  timers : list (nat * Z);          (* pending timeouts: number, delay in ms *)
  timers_made : nat;
  sockets : gmap nat readyState;    (* every socket created, with its state *)
  sockets_made : nat;
  fetches : list (nat * awaiter);   (* lookups in flight *)
  fetches_made : nat
}.

Definition new_host : host := Host [] 0 ∅ 0 [] 0.

Definition set_timers (x : list (nat * Z)) (n : nat) (h : host) : host :=
  Host x n (sockets h) (sockets_made h) (fetches h) (fetches_made h).
Definition set_sockets (x : gmap nat readyState) (n : nat) (h : host) : host :=
  Host (timers h) (timers_made h) x n (fetches h) (fetches_made h).
Definition set_fetches (x : list (nat * awaiter)) (n : nat) (h : host) : host :=
  Host (timers h) (timers_made h) (sockets h) (sockets_made h) x n.

(** Everything a listener can reach: the manager, the host, and the
    variables [V] of the program. *)
Record this (V : Type) : Type := This {
  mgr : manager;
  env : host;
  vars : V
}.
Arguments This {V} mgr env vars.
Arguments mgr {V} t.
Arguments env {V} t.
Arguments vars {V} t.

(** What the host delivers to the controller, one callback at a time. *)
Inductive input : Type :=
| CallConnect (channel : string)                  (* the program calls connect() *)
| CallDisconnect                                  (* the program calls disconnect() *)
| FetchResolved (request : nat) (room : Z)        (* the lookup answered chatroom.id *)
| FetchRejected (request : nat) (message : string) (* getChannelInfo throws Error(message) *)
| SocketOpen (socket : nat)
| SocketMessage (socket : nat) (rawMessage : string)
| SocketClose (socket : nat) (code : Z) (reason : string)
| SocketError (socket : nat)
| TimerFired (timer : nat).

(** [Array.prototype.slice] on integer indices. *)
Definition clamp_index (len i : Z) : Z :=
  if i <? 0 then Z.max (len + i) 0 else Z.min i len.

Definition slice {A} (l : list A) (start : Z) (final : option Z) : list A :=
  let len := Z.of_nat (length l) in
  let k := clamp_index len start in
  let e := match final with
           | None => len
           | Some i => clamp_index len i
           end in
  take (Z.to_nat (e - k)) (drop (Z.to_nat k) l).

(** [push], then one [shift] when the length exceeds [bufferSize]. *)
Definition push_bounded (bufferSize : Z) (messageBuffer : list string) (message : string)
  : list string :=
  let pushed := messageBuffer ++ [message] in
  if bufferSize <? Z.of_nat (length pushed) then tail pushed else pushed.

(** The table of isEventFiltered, an object literal: a key that is not
    its own is looked up on [Object.prototype]. *)
Definition eventTypeMap : list (string * MessageParser.KickEventType) :=
  [("App\Events\ChatMessageEvent", MessageParser.ChatMessage);
   ("App\Events\MessageDeletedEvent", MessageParser.MessageDeleted);
   ("App\Events\UserBannedEvent", MessageParser.UserBanned);
   ("App\Events\UserUnbannedEvent", MessageParser.UserUnbanned);
   ("App\Events\SubscriptionEvent", MessageParser.Subscription);
   ("App\Events\GiftedSubscriptionsEvent", MessageParser.GiftedSubscriptions);
   ("App\Events\PinnedMessageCreatedEvent", MessageParser.PinnedMessageCreated);
   ("App\Events\StreamHostEvent", MessageParser.StreamHost);
   ("App\Events\PollUpdateEvent", MessageParser.PollUpdate);
   ("App\Events\PollDeleteEvent", MessageParser.PollDelete)].

Definition object_prototype_keys : list string :=
  ["constructor"; "hasOwnProperty"; "isPrototypeOf"; "propertyIsEnumerable";
   "toLocaleString"; "toString"; "valueOf"; "__proto__";
   "__defineGetter__"; "__defineSetter__"; "__lookupGetter__"; "__lookupSetter__"].

Inductive property : Type :=
| Own (k : MessageParser.KickEventType)
| Inherited
| Absent.

Fixpoint assoc {A} (key : string) (table : list (string * A)) : option A :=
  match table with
  | [] => None
  | (k, v) :: rest => if String.eqb key k then Some v else assoc key rest
  end.

(** [eventTypeMap[eventType]] *)
Definition eventTypeMap_get (eventType : string) : property :=
  match assoc eventType eventTypeMap with
  | Some k => Own k
  | None => if bool_decide (eventType ∈ object_prototype_keys) then Inherited else Absent
  end.

Definition isEventFiltered (opts : Options) (eventType : string) : bool :=
  match filteredEvents opts with
  | [] => false
  | allowed =>
      match eventTypeMap_get eventType with
      | Own standardEventType => negb (bool_decide (standardEventType ∈ allowed))
      | Inherited => true
      | Absent => false
      end
  end.

Definition exportRawMessagesInRange (startIndex : Z) (endIndex : option Z) (m : manager)
  : list string :=
  let buffer := messageBuffer m in
  match endIndex with
  | Some e => if e =? 0 then slice buffer startIndex None else slice buffer startIndex (Some e)
  | None => slice buffer startIndex None
  end.

Definition getMessageBuffer (m : manager) : list string := messageBuffer m.

Definition clearMessageBuffer (m : manager) : manager := set_messageBuffer [] m.

Declare Scope ctl_scope.
Delimit Scope ctl_scope with ctl.

(** ** What listeners receive, and what the controller does *)

Section Controller.
Context {RT : Runtime}.

Inductive payload : Type :=
| RawFrame (rawMessage : string)                (* rawMessage *)
| EventData (data : val)                        (* a decoded event *)
| Ready (channel : string)                      (* ready *)
| Closed (code : Z) (reason : string)           (* disconnect *)
| Failure (message : string).                   (* error *)

(** The effects of the controller, in the order it performs them. *)
Inductive action : Type :=
| Publish (event : string) (arg : payload)      (* this.emit(event, arg) *)
| Buffered (rawMessage : string)                (* messageBuffer.push *)
| SetTimeout (timer : nat) (delay : Z)
| ClearTimeout (timer : nat)
| Fetch (request : nat) (channel : string)      (* fetch of the channel *)
| NewWebSocket (socket : nat)
| SendSubscribe (socket : nat) (room : Z)       (* pusher:subscribe to chatrooms.<room>.v2 *)
| CloseSocket (socket : nat) (code : Z) (reason : string)
| ConnectRejected (message : string).           (* the promise of connect() rejects *)

Context {V : Type}.

Definition state : Type := object (this V).

Variable call : nat -> payload -> state -> state * result unit.

(** State, exceptions and the trace of effects. *)
Definition M (A : Type) : Type := state -> result A * state * list action.

Definition ret {A} (a : A) : M A := fun s => (Ok a, s, []).

Definition mbind {A B} (m : M A) (k : A -> M B) : M B :=
  fun s =>
    match m s with
    | (Ok a, s1, t1) => let '(r, s2, t2) := k a s1 in (r, s2, t1 ++ t2)
    | (Throw e, s1, t1) => (Throw e, s1, t1)
    end.

Notation "x <- m ;; k" := (mbind m (fun x => k))
  (at level 100, m at next level, right associativity) : ctl_scope.
Notation "m ;; k" := (mbind m (fun _ => k))
  (at level 100, right associativity) : ctl_scope.
Local Open Scope ctl_scope.

Definition gets {A} (f : manager -> A) : M A := fun s => (Ok (f (mgr (fields s))), s, []).

Definition on_fields (f : this V -> this V) (s : state) : state :=
  Object (events s) (closures s) (f (fields s)).

Definition modify (f : manager -> manager) : M unit :=
  fun s => (Ok tt, on_fields (fun t => This (f (mgr t)) (env t) (vars t)) s, []).

Definition get_host {A} (f : host -> A) : M A := fun s => (Ok (f (env (fields s))), s, []).

Definition modify_host (f : host -> host) : M unit :=
  fun s => (Ok tt, on_fields (fun t => This (mgr t) (f (env t)) (vars t)) s, []).

Definition tell (a : action) : M unit := fun s => (Ok tt, s, [a]).

Definition throw {A} (e : string) : M A := fun s => (Throw e, s, []).

Definition lift {A} (r : result A) : M A := fun s => (r, s, []).

(** *** Host calls *)

Definition setTimeout (delay : Z) : M nat :=
  made <- get_host timers_made ;;
  let id := S made in
  modify_host (fun h => set_timers (timers h ++ [(id, delay)]) id h) ;;
  tell (SetTimeout id delay) ;;
  ret id.

Definition clearTimeout (id : nat) : M unit :=
  modify_host (fun h => set_timers
                          (List.filter (fun t => negb (Nat.eqb (fst t) id)) (timers h))
                          (timers_made h) h) ;;
  tell (ClearTimeout id).

Definition fetch (who : awaiter) (channel : string) : M unit :=
  made <- get_host fetches_made ;;
  let id := S made in
  modify_host (fun h => set_fetches (fetches h ++ [(id, who)]) id h) ;;
  tell (Fetch id channel).

Definition new_WebSocket : M nat :=
  made <- get_host sockets_made ;;
  let id := S made in
  modify_host (fun h => set_sockets (<[id := CONNECTING]> (sockets h)) id h) ;;
  tell (NewWebSocket id) ;;
  ret id.

(** [socket.close(code, reason)]: the close event comes later. *)
Definition socket_close (socket : nat) (code : Z) (reason : string) : M unit :=
  modify_host (fun h =>
                 match sockets h !! socket with
                 | Some CONNECTING | Some OPEN =>
                     set_sockets (<[socket := CLOSING]> (sockets h)) (sockets_made h) h
                 | _ => h
                 end) ;;
  tell (CloseSocket socket code reason).

(** *** Methods *)

Definition this_emit (event : string) (arg : payload) : M bool :=
  fun s =>
    let r := emit call event arg s in
    (returned r, after r, [Publish event arg]).

Definition setConnectionState (x : ConnectionState) : M unit :=
  modify (set_connectionState x).

Definition addToBuffer (message : string) : M unit :=
  tell (Buffered message) ;;
  modify (fun m => set_messageBuffer
                     (push_bounded (bufferSize (options m)) (messageBuffer m) message) m).

(** [value?.startsWith(p)] *)
Definition opt_startsWith (v : val) (p : string) : result bool :=
  match v with
  | VUndefined | VNull => Ok false
  | VStr s => Ok (startsWith s p)
  | _ => Throw "TypeError: message.event?.startsWith is not a function"
  end.

(** The first [try] of handleMessage: is this a frame of the transport? *)
Definition is_system_frame (rawMessage : string) : bool :=
  match try_catch
          (bind (MessageParser.JSON_parse_text rawMessage) (fun message =>
           bind (get message "event") (fun ev =>
           bind (opt_startsWith ev "pusher:") (fun p =>
           if (p : bool) then Ok true else opt_startsWith ev "pusher_internal:"))))
          (fun _ => Ok false)
  with
  | Ok b => b
  | Throw _ => false
  end.

Definition handleMessage (rawMessage : string) : M unit :=
  this_emit "rawMessage" (RawFrame rawMessage) ;;
  enabled <- gets (fun m => enableBuffer (options m)) ;;
  (if (enabled : bool) then addToBuffer rawMessage else ret tt) ;;
  if is_system_frame rawMessage then ret tt
  else
    eventType <- lift (MessageParser.extractEventType rawMessage) ;;
    opts <- gets options ;;
    if match eventType with
       | Some name => isEventFiltered opts name
       | None => false
       end
    then ret tt
    else
      parsedMessage <- lift (MessageParser.parseMessage rawMessage) ;;
      match parsedMessage with
      | Some p =>
          this_emit (MessageParser.event_name (MessageParser.type p))
                    (EventData (MessageParser.data p)) ;;
          ret tt
      | None => ret tt
      end.

Definition scheduleReconnect : M unit :=
  pending <- gets reconnectTimer ;;
  match pending with
  | Some id => clearTimeout id
  | None => ret tt
  end ;;
  setConnectionState reconnecting ;;
  delay <- gets (fun m => reconnectInterval (options m)) ;;
  id <- setTimeout delay ;;
  modify (set_reconnectTimer (Some id)).

Definition reconnect_if_wanted : M unit :=
  auto <- gets (fun m => autoReconnect (options m)) ;;
  manual <- gets isManualDisconnect ;;
  if (auto : bool) && negb manual then scheduleReconnect else ret tt.

Definition handleDisconnect (code : Z) (reason : string) : M unit :=
  setConnectionState disconnected ;;
  this_emit "disconnect" (Closed code reason) ;;
  reconnect_if_wanted.

Definition handleConnectionError (message : string) : M unit :=
  setConnectionState error ;;
  this_emit "error" (Failure message) ;;
  reconnect_if_wanted.

(** performConnection up to its [await]: the lookup is in flight. *)
Definition performConnection (who : awaiter) : M unit :=
  setConnectionState connecting ;;
  name <- gets channelName ;;
  fetch who name.

(** performConnection after the lookup answered. *)
Definition performConnection_resume (room : Z) : M unit :=
  modify (set_channelId room) ;;
  socket <- new_WebSocket ;;
  modify (set_ws (Some socket)).

Definition connect (channel : string) : M unit :=
  current <- gets connectionState ;;
  match current with
  | connected | connecting => ret tt
  | _ =>
      modify (set_channelName channel) ;;
      modify (set_isManualDisconnect false) ;;
      performConnection ByConnect
  end.

Definition subscribeToChannel : M unit :=
  current <- gets ws ;;
  match current with
  | None => ret tt
  | Some socket =>
      ready <- get_host (fun h => sockets h !! socket) ;;
      room <- gets channelId ;;
      match ready with
      | Some OPEN => tell (SendSubscribe socket room)
      | Some CLOSING | Some CLOSED => ret tt       (* send: the data is discarded *)
      | Some CONNECTING | None => throw "InvalidStateError: the socket is not open"
      end ;;
      setConnectionState connected ;;
      name <- gets channelName ;;
      this_emit "ready" (Ready name) ;;
      ret tt
  end.

Definition disconnect : M unit :=
  modify (set_isManualDisconnect true) ;;
  pending <- gets reconnectTimer ;;
  match pending with
  | Some id => clearTimeout id ;; modify (set_reconnectTimer None)
  | None => ret tt
  end ;;
  current <- gets ws ;;
  match current with
  | Some socket => socket_close socket 1000 "Manual disconnect" ;; modify (set_ws None)
  | None => ret tt
  end ;;
  setConnectionState disconnected.

(** *** The event loop *)

Definition set_ready (socket : nat) (r : readyState) : M unit :=
  modify_host (fun h => set_sockets (<[socket := r]> (sockets h)) (sockets_made h) h).

Definition take_fetch (request : nat) : M (option awaiter) :=
  pending <- get_host fetches ;;
  match List.find (fun f => Nat.eqb (fst f) request) pending with
  | Some (_, who) =>
      modify_host (fun h => set_fetches
                              (List.filter (fun f => negb (Nat.eqb (fst f) request)) (fetches h))
                              (fetches_made h) h) ;;
      ret (Some who)
  | None => ret None
  end.

Definition take_timer (id : nat) : M bool :=
  pending <- get_host timers ;;
  if existsb (fun t => Nat.eqb (fst t) id) pending then
    modify_host (fun h => set_timers
                            (List.filter (fun t => negb (Nat.eqb (fst t) id)) (timers h))
                            (timers_made h) h) ;;
    ret true
  else ret false.

(** The callback the host runs for an input.  An input the host cannot
    deliver (a timer that is not pending, a socket in the wrong state, a
    lookup that is not in flight) runs nothing. *)
Definition callback (i : input) : M unit :=
  match i with
  | CallConnect channel => connect channel
  | CallDisconnect => disconnect
  | FetchResolved request room =>
      who <- take_fetch request ;;
      match who with
      | Some _ => performConnection_resume room
      | None => ret tt
      end
  | FetchRejected request message =>
      who <- take_fetch request ;;
      match who with
      | Some ByConnect =>
          handleConnectionError message ;;
          tell (ConnectRejected message)
      | Some ByReconnectTimer => ret tt      (* this.log("Reconnection failed:", error) *)
      | None => ret tt
      end
  | SocketOpen socket =>
      ready <- get_host (fun h => sockets h !! socket) ;;
      match ready with
      | Some CONNECTING => set_ready socket OPEN ;; subscribeToChannel
      | _ => ret tt
      end
  | SocketMessage socket rawMessage =>
      ready <- get_host (fun h => sockets h !! socket) ;;
      match ready with
      | Some OPEN => handleMessage rawMessage
      | _ => ret tt
      end
  | SocketClose socket code reason =>
      ready <- get_host (fun h => sockets h !! socket) ;;
      match ready with
      | Some CLOSED | None => ret tt
      | Some _ => set_ready socket CLOSED ;; handleDisconnect code reason
      end
  | SocketError socket =>
      ready <- get_host (fun h => sockets h !! socket) ;;
      match ready with
      | Some CLOSED | None => ret tt
      | Some _ => this_emit "error" (Failure "WebSocket error") ;; ret tt
      end
  | TimerFired id =>
      pending <- take_timer id ;;
      if (pending : bool) then performConnection ByReconnectTimer else ret tt
  end.

(** One turn of the event loop: an exception a callback lets escape is
    reported by the host and goes no further. *)
Definition step (i : input) (s : state) : state * list action :=
  let '(_, s', trace) := callback i s in (s', trace).

Fixpoint run (inputs : list input) (s : state) : state * list action :=
  match inputs with
  | [] => (s, [])
  | i :: rest =>
      let '(s1, t1) := step i s in
      let '(s2, t2) := run rest s1 in
      (s2, t1 ++ t2)
  end.

Definition new_state (opts : Options) (v : V) : state :=
  new_emitter (This (new_manager opts) new_host v).
End Controller.

(** ** Reading the buffer *)

Section Inspection.
Context {RT : Runtime}.

(** [parsed && parsed.type === eventType]; parseMessage catches what is
    thrown inside it, so the test answers for every message. *)
Definition has_type (eventType : MessageParser.KickEventType) (message : string) : bool :=
  match MessageParser.parseMessage message with
  | Ok (Some parsed) => bool_decide (MessageParser.type parsed = eventType)
  | _ => false
  end.

Definition exportRawMessages (m : manager) : list string := messageBuffer m.

Definition exportRawMessagesByEventType (eventType : MessageParser.KickEventType) (m : manager)
  : list string :=
  List.filter (has_type eventType) (messageBuffer m).

Definition clearRawMessagesByEventType (eventType : MessageParser.KickEventType) (m : manager)
  : manager :=
  set_messageBuffer
    (List.filter (fun message => negb (has_type eventType message)) (messageBuffer m)) m.

(** [byType[key] = (byType[key] || 0) + 1], on an object that keeps its
    keys in the order they were added. *)
Fixpoint bump (key : string) (byType : list (string * nat)) : list (string * nat) :=
  match byType with
  | [] => [(key, 1%nat)]
  | (k, n) :: rest =>
      if String.eqb key k then (k, S n) :: rest else (k, n) :: bump key rest
  end.

(** What getRawMessageStats answers; a [Date] is kept as its time value. *)
Record RawMessageStats : Type := {
  total : nat;
  byType : list (string * nat);
  oldestTimestamp : option Z;
  newestTimestamp : option Z
}.

(** The body of the [forEach] of getRawMessageStats. *)
Definition count_message (byType : list (string * nat)) (message : string)
  : list (string * nat) :=
  match MessageParser.parseMessage message with
  | Ok (Some parsed) => bump (MessageParser.event_name (MessageParser.type parsed)) byType
  | _ => byType
  end.

Definition getRawMessageStats (m : manager) : RawMessageStats :=
  {| total := length (messageBuffer m);
     byType := fold_left count_message (messageBuffer m) [];
     oldestTimestamp := None;
     newestTimestamp := None |}.
End Inspection.

(** ** Reading the state, changing the options *)

(** [connectionState === "connected" && ws?.readyState === WebSocket.OPEN] *)
Definition isConnected (m : manager) (h : host) : bool :=
  bool_decide (connectionState m = connected)
  && match ws m with
     | Some socket => bool_decide (sockets h !! socket = Some OPEN)
     | None => false
     end.

Definition getConnectionState (m : manager) : ConnectionState := connectionState m.

Definition getChannelName (m : manager) : string := channelName m.

Definition getChannelId (m : manager) : Z := channelId m.

(** [KickWebSocketOptions]: every option may be left out ([None]).  An
    option that is present holds a value of its type; a property present
    with the value [undefined] is outside the model. *)
Record KickWebSocketOptions : Type := {
  opt_debug : option bool;
  opt_autoReconnect : option bool;
  opt_reconnectInterval : option Z;
  opt_enableBuffer : option bool;
  opt_bufferSize : option Z;
  opt_filteredEvents : option (list MessageParser.KickEventType)
}.

(** [{ ...base, ...over }] *)
Definition spread (base : Options) (over : KickWebSocketOptions) : Options :=
  {| debug := default (debug base) (opt_debug over);
     autoReconnect := default (autoReconnect base) (opt_autoReconnect over);
     reconnectInterval := default (reconnectInterval base) (opt_reconnectInterval over);
     enableBuffer := default (enableBuffer base) (opt_enableBuffer over);
     bufferSize := default (bufferSize base) (opt_bufferSize over);
     filteredEvents := default (filteredEvents base) (opt_filteredEvents over) |}.


(** [new WebSocketManager(options)] *)
Definition constructor (options : KickWebSocketOptions) : manager :=
  new_manager (spread default_options options).

(** ** Registering by name *)

Section Helpers.
Context {U : Type}.

Definition onChatMessage (handler : listener) (o : object U) : object U :=
  on "ChatMessage" handler o.
Definition onMessageDeleted (handler : listener) (o : object U) : object U :=
  on "MessageDeleted" handler o.
Definition onUserBanned (handler : listener) (o : object U) : object U :=
  on "UserBanned" handler o.
Definition onUserUnbanned (handler : listener) (o : object U) : object U :=
  on "UserUnbanned" handler o.
Definition onSubscription (handler : listener) (o : object U) : object U :=
  on "Subscription" handler o.
Definition onGiftedSubscriptions (handler : listener) (o : object U) : object U :=
  on "GiftedSubscriptions" handler o.
Definition onPinnedMessageCreated (handler : listener) (o : object U) : object U :=
  on "PinnedMessageCreated" handler o.
Definition onStreamHost (handler : listener) (o : object U) : object U :=
  on "StreamHost" handler o.
Definition onPollUpdate (handler : listener) (o : object U) : object U :=
  on "PollUpdate" handler o.
Definition onPollDelete (handler : listener) (o : object U) : object U :=
  on "PollDelete" handler o.
Definition onReady (handler : listener) (o : object U) : object U :=
  on "ready" handler o.
Definition onDisconnect (handler : listener) (o : object U) : object U :=
  on "disconnect" handler o.
Definition onError (handler : listener) (o : object U) : object U :=
  on "error" handler o.
Definition onRawMessage (handler : listener) (o : object U) : object U :=
  on "rawMessage" handler o.
End Helpers.

End WebSocketManager.

(* ================================================================== *)
(** * index.ts: the class a program uses *)
(* ================================================================== *)

Module KickWebSocket.
Import Js.
Export WebSocketManager.
Import MessageParser.

Section Conveniences.
Context {U : Type}.

(** [events.forEach((event) => this.on(event, handler))] *)
Definition on_each (events : list KickEventType) (handler : listener) (o : object U)
  : object U :=
  fold_left (fun o' event => on (event_name event) handler o') events o.

Definition onAllEvents (handler : listener) (o : object U) : object U :=
  on_each [ChatMessage; MessageDeleted; UserBanned; UserUnbanned; Subscription;
           GiftedSubscriptions; PinnedMessageCreated; StreamHost; PollUpdate; PollDelete]
          handler o.

Definition onChatEvents (handler : listener) (o : object U) : object U :=
  on_each [ChatMessage; MessageDeleted; PinnedMessageCreated] handler o.

Definition onUserEvents (handler : listener) (o : object U) : object U :=
  on_each [UserBanned; UserUnbanned; Subscription; GiftedSubscriptions] handler o.

Definition onStreamEvents (handler : listener) (o : object U) : object U :=
  on_each [StreamHost; PollUpdate; PollDelete] handler o.
End Conveniences.

Section Factories.
Context {RT : Runtime} {V : Type}.
Variable call : nat -> payload -> state (V := V) -> state (V := V) * result unit.

(** [new KickWebSocket(options)], then
    [if (channelName) ws.connect(channelName).catch(console.error)]:
    the instance, and what the call has done when it returns. *)
Definition create (options : KickWebSocketOptions) (channelName : option string) (v : V)
  : state (V := V) * list action :=
  let ws := new_state (spread default_options options) v in
  match channelName with
  | Some name =>
      if String.eqb name EmptyString then (ws, []) else step call (CallConnect name) ws
  | None => (ws, [])
  end.

Definition createLightweight (channelName : option string) (v : V)
  : state (V := V) * list action :=
  create {| opt_debug := Some false;
            opt_autoReconnect := Some true;
            opt_reconnectInterval := Some 10000;
            opt_enableBuffer := Some false;
            opt_bufferSize := None;
            opt_filteredEvents := Some [ChatMessage] |}
         channelName v.

Definition createDebug (channelName : option string) (v : V)
  : state (V := V) * list action :=
  create {| opt_debug := Some true;
            opt_autoReconnect := Some true;
            opt_reconnectInterval := Some 3000;
            opt_enableBuffer := Some true;
            opt_bufferSize := Some 500;
            opt_filteredEvents := None |}
         channelName v.

Definition createAnalytics (channelName : option string) (v : V)
  : state (V := V) * list action :=
  create {| opt_debug := Some false;
            opt_autoReconnect := Some true;
            opt_reconnectInterval := Some 5000;
            opt_enableBuffer := Some true;
            opt_bufferSize := Some 2000;
            opt_filteredEvents := Some [ChatMessage; UserBanned; Subscription;
                                        GiftedSubscriptions] |}
         channelName v.
End Factories.

End KickWebSocket.

(* ================================================================== *)
(** * A host to run the model on *)
(* ================================================================== *)

(** Every statement below holds for any [Runtime].  To run the model on
    frames, this one reads JSON documents whose numbers are integers and
    whose strings use no [\u] escape; it rejects the others. *)
Module Host.
Import Js.

Definition quote : ascii := ascii_of_nat 34.
Definition backslash : ascii := ascii_of_nat 92.

(** Frames are written with ['] for the double quote. *)
Fixpoint text (s : string) : string :=
  match s with
  | EmptyString => EmptyString
  | String c rest => String (if Ascii.eqb c "'" then quote else c) (text rest)
  end.

Definition json_space (c : ascii) : bool :=
  Nat.eqb (code c) 32 || Nat.eqb (code c) 9 || Nat.eqb (code c) 10 || Nat.eqb (code c) 13.

Fixpoint skip_space (s : string) : string :=
  match s with
  | String c rest => if json_space c then skip_space rest else s
  | EmptyString => s
  end.

Definition unescape (c : ascii) : option ascii :=
  if Ascii.eqb c quote then Some quote
  else if Ascii.eqb c backslash then Some backslash
  else if Ascii.eqb c "/" then Some "/"%char
  else if Ascii.eqb c "b" then Some (ascii_of_nat 8)
  else if Ascii.eqb c "f" then Some (ascii_of_nat 12)
  else if Ascii.eqb c "n" then Some (ascii_of_nat 10)
  else if Ascii.eqb c "r" then Some (ascii_of_nat 13)
  else if Ascii.eqb c "t" then Some (ascii_of_nat 9)
  else None.

(** The characters of a string literal after its opening quote. *)
Fixpoint read_string (s : string) : option (string * string) :=
  match s with
  | EmptyString => None
  | String c rest =>
      if Ascii.eqb c quote then Some (EmptyString, rest)
      else if Ascii.eqb c backslash then
        match rest with
        | String e rest' =>
            match unescape e, read_string rest' with
            | Some c', Some (body, after) => Some (String c' body, after)
            | _, _ => None
            end
        | EmptyString => None
        end
      else if Nat.ltb (code c) 32 then None
      else match read_string rest with
           | Some (body, after) => Some (String c body, after)
           | None => None
           end
  end.

Fixpoint digits_value (s : string) (acc : Z) : Z :=
  match s with
  | EmptyString => acc
  | String c rest => digits_value rest (10 * acc + Z.of_nat (code c - 48))
  end.

Definition read_natural (s : string) : option (Z * string) :=
  let '(ds, rest) := MessageParser.span is_digit s in
  match ds with
  | EmptyString => None
  | String "0" (String _ _) => None
  | _ => match rest with
         | String "." _ | String "e" _ | String "E" _ => None
         | _ => Some (digits_value ds 0, rest)
         end
  end.

Definition read_number (s : string) : option (Z * string) :=
  match s with
  | String "-" rest =>
      match read_natural rest with
      | Some (n, after) => Some (- n, after)
      | None => None
      end
  | _ => read_natural s
  end.

(** A later binding of a key replaces an earlier one. *)
Fixpoint set_field (k : string) (v : value Z) (fields : list (string * value Z))
  : list (string * value Z) :=
  match fields with
  | [] => [(k, v)]
  | (k', v') :: rest =>
      if String.eqb k k' then (k, v) :: rest else (k', v') :: set_field k v rest
  end.

Fixpoint read_value (fuel : nat) (s : string) : option (value Z * string) :=
  match fuel with
  | O => None
  | S fuel' =>
      match skip_space s with
      | String "{" rest =>
          match skip_space rest with
          | String "}" after => Some (VObj [], after)
          | _ => match read_members fuel' rest [] with
                 | Some (fields, after) => Some (VObj fields, after)
                 | None => None
                 end
          end
      | String "[" rest =>
          match skip_space rest with
          | String "]" after => Some (VArr [], after)
          | _ => match read_elements fuel' rest with
                 | Some (items, after) => Some (VArr items, after)
                 | None => None
                 end
          end
      | String c rest as s' =>
          if Ascii.eqb c quote then
            match read_string rest with
            | Some (body, after) => Some (VStr body, after)
            | None => None
            end
          else match MessageParser.strip_prefix "true" s', MessageParser.strip_prefix "false" s',
                     MessageParser.strip_prefix "null" s' with
               | Some after, _, _ => Some (VBool true, after)
               | _, Some after, _ => Some (VBool false, after)
               | _, _, Some after => Some (VNull, after)
               | _, _, _ => match read_number s' with
                            | Some (n, after) => Some (VNum n, after)
                            | None => None
                            end
               end
      | EmptyString => None
      end
  end
with read_elements (fuel : nat) (s : string) : option (list (value Z) * string) :=
  match fuel with
  | O => None
  | S fuel' =>
      match read_value fuel' s with
      | Some (v, rest) =>
          match skip_space rest with
          | String "," rest' =>
              match read_elements fuel' rest' with
              | Some (items, after) => Some (v :: items, after)
              | None => None
              end
          | String "]" after => Some ([v], after)
          | _ => None
          end
      | None => None
      end
  end
with read_members (fuel : nat) (s : string) (seen : list (string * value Z))
  : option (list (string * value Z) * string) :=
  match fuel with
  | O => None
  | S fuel' =>
      match skip_space s with
      | String c rest =>
          if Ascii.eqb c quote then
            match read_string rest with
            | Some (key, rest1) =>
                match skip_space rest1 with
                | String ":" rest2 =>
                    match read_value fuel' rest2 with
                    | Some (v, rest3) =>
                        let seen' := set_field key v seen in
                        match skip_space rest3 with
                        | String "," rest4 => read_members fuel' rest4 seen'
                        | String "}" after => Some (seen', after)
                        | _ => None
                        end
                    | None => None
                    end
                | _ => None
                end
            | None => None
            end
          else None
      | EmptyString => None
      end
  end.

Definition parse (s : string) : option (value Z) :=
  match read_value (2 * String.length s + 2) s with
  | Some (v, rest) =>
      match skip_space rest with
      | EmptyString => Some v
      | _ => None
      end
  | None => None
  end.

Fixpoint natural_digits (fuel : nat) (n : Z) (acc : string) : string :=
  match fuel with
  | O => acc
  | S fuel' =>
      let acc' := String (ascii_of_nat (48 + Z.to_nat (n mod 10))) acc in
      if n / 10 =? 0 then acc' else natural_digits fuel' (n / 10) acc'
  end.

Definition print (n : Z) : string :=
  if n <? 0 then String "-" (natural_digits (Z.to_nat (- n)) (- n) EmptyString)
  else natural_digits (S (Z.to_nat n)) n EmptyString.

#[global] Instance runtime : Runtime := {
  num := Z;
  num_zero := 0;
  num_truthy := fun n => negb (n =? 0);
  num_toString := print;
  JSON_parse := parse
}.

End Host.

(* ================================================================== *)
(** * The message buffer *)
(* ================================================================== *)

Module BufferFacts.
Import Js WebSocketManager.

Lemma push_bounded_fold (N : nat) (frames : list string) :
  fold_left (push_bounded (Z.of_nat N)) frames [] = drop (length frames - N) frames.
Proof.
  induction frames as [|m frames IH] using rev_ind; [reflexivity|].
  rewrite fold_left_app, IH. cbn [fold_left]. unfold push_bounded.
  rewrite !length_app, length_drop. cbn [length].
  destruct (Z.ltb_spec (Z.of_nat N) (Z.of_nat (length frames - (length frames - N) + 1))) as [Hlt|Hge].
  - assert (HN : (N <= length frames)%nat) by lia.
    destruct (Nat.eq_dec N 0%nat) as [->|HN0].
    + rewrite Nat.sub_0_r, drop_all. cbn [app tail].
      rewrite drop_ge; [reflexivity|rewrite length_app; cbn; lia].
    + replace (length frames + 1 - N)%nat with (S (length frames - N)) by lia.
      rewrite drop_app_le by lia.
      destruct (drop (length frames - N) frames) as [|x xs] eqn:E.
      * apply (f_equal length) in E. rewrite length_drop in E. cbn in E. lia.
      * cbn [tail app].
        rewrite <- (Nat.add_1_r (length frames - N)), <- drop_drop, E. reflexivity.
  - replace (length frames + 1 - N)%nat with 0%nat by lia.
    replace (length frames - N)%nat with 0%nat by lia. reflexivity.
Qed.

Lemma push_bounded_full (N : nat) (buf : list string) (m : string) :
  (1 <= N)%nat -> length buf = N -> push_bounded (Z.of_nat N) buf m = tail buf ++ [m].
Proof.
  intros HN H. unfold push_bounded. rewrite length_app. cbn [length].
  destruct (Z.ltb_spec (Z.of_nat N) (Z.of_nat (length buf + 1))); [|lia].
  destruct buf; [cbn in H; lia | reflexivity].
Qed.

Lemma push_bounded_room (N : nat) (buf : list string) (m : string) :
  (length buf < N)%nat -> push_bounded (Z.of_nat N) buf m = buf ++ [m].
Proof.
  intros H. unfold push_bounded. rewrite length_app. cbn [length].
  destruct (Z.ltb_spec (Z.of_nat N) (Z.of_nat (length buf + 1))); [lia|reflexivity].
Qed.

Section Appending.
Context {RT : Runtime} {V : Type}.

(** The frames appended one after the other. *)
Fixpoint appendAll (frames : list string) : M (V := V) unit :=
  match frames with
  | [] => ret tt
  | m :: rest => mbind (addToBuffer m) (fun _ => appendAll rest)
  end.

Definition buffer_of (s : state (V := V)) : list string := messageBuffer (mgr (fields s)).

Definition size_of (s : state (V := V)) : Z := bufferSize (options (mgr (fields s))).

Definition buffer_after (frames : list string) (s : state (V := V)) : list string :=
  buffer_of (snd (fst (appendAll frames s))).

Lemma addToBuffer_buffer (m : string) (s : state (V := V)) :
  buffer_of (snd (fst (addToBuffer m s))) = push_bounded (size_of s) (buffer_of s) m
  /\ size_of (snd (fst (addToBuffer m s))) = size_of s
  /\ fst (fst (addToBuffer m s)) = Ok tt.
Proof. destruct s as [ev cl [[] h v]]. repeat split. Qed.

Lemma buffer_after_fold (frames : list string) (s : state (V := V)) :
  buffer_after frames s = fold_left (push_bounded (size_of s)) frames (buffer_of s).
Proof.
  unfold buffer_after. revert s.
  induction frames as [|m rest IH]; intros s; [reflexivity|].
  cbn [appendAll fold_left]. unfold mbind.
  destruct (addToBuffer_buffer m s) as (Hb & Hs & Hr).
  destruct (addToBuffer m s) as [[r s1] t1]. cbn in Hb, Hs, Hr. subst r.
  specialize (IH s1). destruct (appendAll rest s1) as [[r2 s2] t2].
  cbn in *. rewrite IH, Hb, Hs. reflexivity.
Qed.

(** C5.  With capacity [N >= 1] and an empty buffer, appending [N + k]
    frames leaves the last [N] of them, oldest first; the buffer never
    holds more than [N] frames; an append into a buffer that is not full
    adds at the tail, and an append into a full buffer drops exactly the
    oldest frame. *)
Theorem addToBuffer_keeps_last_N (N k : nat) (frames : list string) (s : state (V := V)) :
  (1 <= N)%nat ->
  size_of s = Z.of_nat N ->
  buffer_of s = [] ->
  length frames = (N + k)%nat ->
  buffer_after frames s = drop k frames
  /\ length (buffer_after frames s) = N
  /\ (forall n, (length (buffer_after (take n frames) s) <= N)%nat)
  /\ (forall n m, frames !! n = Some m ->
        buffer_after (take (S n) frames) s =
          if (n <? N)%nat then buffer_after (take n frames) s ++ [m]
          else tail (buffer_after (take n frames) s) ++ [m]).
Proof.
  intros HN Hsize Hempty Hlen.
  assert (Hfold : forall l, buffer_after l s = drop (length l - N) l).
  { intros l. rewrite buffer_after_fold, Hsize, Hempty. apply push_bounded_fold. }
  repeat split.
  - rewrite Hfold, Hlen. f_equal. lia.
  - rewrite Hfold, length_drop. lia.
  - intros n. rewrite Hfold, length_drop. lia.
  - intros n m Hm.
    rewrite (take_S_r _ _ _ Hm).
    rewrite (buffer_after_fold (take n frames ++ [m])), fold_left_app.
    rewrite <- buffer_after_fold. cbn [fold_left]. rewrite Hsize.
    assert (Hn : (n < length frames)%nat) by (apply lookup_lt_is_Some; eauto).
    assert (Hl : length (buffer_after (take n frames) s) = Nat.min n N).
    { rewrite Hfold, length_drop, length_take. lia. }
    destruct (Nat.ltb_spec n N).
    + apply push_bounded_room. lia.
    + apply push_bounded_full; lia.
Qed.

End Appending.

Lemma addToBuffer_keeps_last_N_witness :
  buffer_after ["a"; "b"; "c"; "d"; "e"] (new_state (V := unit)
      {| debug := false; autoReconnect := true; reconnectInterval := 5000;
         enableBuffer := true; bufferSize := 2; filteredEvents := [] |} tt)
  = ["d"; "e"].
Proof.
  refine (proj1 (addToBuffer_keeps_last_N 2 3 ["a"; "b"; "c"; "d"; "e"] _ _ _ _ _));
    [lia | reflexivity | reflexivity | reflexivity].
Defined.

(** C10.  [exportRawMessagesInRange(startIndex, 0)] answers what the call
    without an end index answers, the whole of the buffer from
    [startIndex] on, where [slice(startIndex, 0)] would be empty. *)
Theorem exportRawMessagesInRange_end_zero (m : manager) (startIndex : Z) :
  exportRawMessagesInRange startIndex (Some 0) m = exportRawMessagesInRange startIndex None m
  /\ exportRawMessagesInRange startIndex (Some 0) m = slice (messageBuffer m) startIndex None
  /\ (0 <= startIndex ->
      exportRawMessagesInRange startIndex (Some 0) m
      = drop (Z.to_nat startIndex) (messageBuffer m))
  /\ (startIndex < 0 ->
      exportRawMessagesInRange startIndex (Some 0) m
      = drop (length (messageBuffer m) - Z.to_nat (- startIndex)) (messageBuffer m))
  /\ slice (messageBuffer m) startIndex (Some 0) = [].
Proof.
  unfold exportRawMessagesInRange, slice, clamp_index. cbn.
  set (buf := messageBuffer m).
  repeat split.
  - intros H. destruct (Z.ltb_spec startIndex 0); [lia|].
    destruct (Z.min_spec startIndex (Z.of_nat (length buf))) as [[? ->]|[? ->]].
    + rewrite take_ge; [reflexivity|]. rewrite length_drop. lia.
    + rewrite Nat2Z.id, drop_all, take_nil.
      rewrite drop_ge; [reflexivity|lia].
  - intros H. destruct (Z.ltb_spec startIndex 0); [|lia].
    rewrite take_ge by (rewrite length_drop; lia).
    f_equal. lia.
  - destruct (Z.ltb_spec startIndex 0).
    + rewrite Z.min_l by lia. replace (Z.to_nat _) with 0%nat by lia. reflexivity.
    + rewrite Z.min_l by lia. replace (Z.to_nat _) with 0%nat by lia. reflexivity.
Qed.

Lemma exportRawMessagesInRange_end_zero_witness :
  exportRawMessagesInRange 1 (Some 0) (set_messageBuffer ["a"; "b"; "c"] (new_manager default_options))
  = ["b"; "c"]
  /\ exportRawMessagesInRange (-1) (Some 0) (set_messageBuffer ["a"; "b"; "c"] (new_manager default_options))
  = ["c"].
Proof.
  split.
  - refine (proj1 (proj2 (proj2 (exportRawMessagesInRange_end_zero _ 1))) _). lia.
  - refine (proj1 (proj2 (proj2 (proj2 (exportRawMessagesInRange_end_zero _ (-1))))) _). lia.
Defined.
End BufferFacts.

(* ================================================================== *)
(** * Emote placeholders *)
(* ================================================================== *)

Module EmoteFacts.
Import Js MessageParser.

Lemma app_cons (c : ascii) (s t : string) : String c s +:+ t = String c (s +:+ t).
Proof. reflexivity. Qed.

Lemma app_empty_l (t : string) : EmptyString +:+ t = t.
Proof. reflexivity. Qed.

Lemma app_empty_r (s : string) : s +:+ EmptyString = s.
Proof. induction s as [|c s IH]; [reflexivity|]. rewrite app_cons, IH. reflexivity. Qed.

Lemma app_assoc (s t u : string) : (s +:+ t) +:+ u = s +:+ (t +:+ u).
Proof. induction s as [|c s IH]; [reflexivity|]. rewrite !app_cons, IH. reflexivity. Qed.

Lemma length_app (s t : string) :
  String.length (s +:+ t) = (String.length s + String.length t)%nat.
Proof. induction s as [|c s IH]; [reflexivity|]. rewrite app_cons. cbn. rewrite IH. reflexivity. Qed.

Fixpoint all_chars (p : ascii -> bool) (s : string) : bool :=
  match s with
  | EmptyString => true
  | String c rest => p c && all_chars p rest
  end.

(** [s] does not begin with a character of the class [p]. *)
Definition stops (p : ascii -> bool) (s : string) : Prop :=
  match s with
  | EmptyString => True
  | String c _ => p c = false
  end.

Lemma span_spec (p : ascii -> bool) (s taken after : string) :
  span p s = (taken, after) ->
  s = taken +:+ after /\ all_chars p taken = true /\ stops p after.
Proof.
  revert taken after. induction s as [|c s IH]; intros taken after H; cbn in H.
  - inversion H; subst. repeat split.
  - destruct (p c) eqn:Hp.
    + destruct (span p s) as [t a]. inversion H; subst.
      destruct (IH t after eq_refl) as (-> & Ht & Ha).
      rewrite app_cons. cbn. rewrite Hp, Ht. repeat split. exact Ha.
    + inversion H; subst. repeat split. exact Hp.
Qed.

Lemma span_app (p : ascii -> bool) (taken after : string) :
  all_chars p taken = true -> stops p after -> span p (taken +:+ after) = (taken, after).
Proof.
  intros Ht Ha. induction taken as [|c t IH].
  - rewrite app_empty_l. destruct after as [|c a]; [reflexivity|]. cbn in *. rewrite Ha. reflexivity.
  - cbn in Ht. apply andb_true_iff in Ht as [Hc Ht].
    rewrite app_cons. cbn. rewrite Hc, (IH Ht). reflexivity.
Qed.

Lemma strip_prefix_spec (p s rest : string) :
  strip_prefix p s = Some rest <-> s = p +:+ rest.
Proof.
  revert s. induction p as [|a p IH]; intros s.
  - cbn. rewrite app_empty_l. split; [intros [= ->]|intros ->]; reflexivity.
  - rewrite app_cons. destruct s as [|b s]; cbn.
    + split; discriminate.
    + destruct (Ascii.eqb_spec a b) as [->|Hne].
      * rewrite IH. split; [intros ->; reflexivity|intros [= ->]; reflexivity].
      * split; [discriminate|intros [= ? ?]; congruence].
Qed.

(** [<id>]: one or more digits; [<name>]: one or more word characters. *)
Definition is_id (id : string) : Prop := id <> EmptyString /\ all_chars is_digit id = true.
Definition is_name (name : string) : Prop := name <> EmptyString /\ all_chars is_word name = true.

(** The text [[emote:<id>:<name>]]. *)
Definition placeholder (id name : string) : string :=
  "[emote:" +:+ id +:+ ":" +:+ name +:+ "]".

(** [content] holds a placeholder somewhere. *)
Definition contains_placeholder (content : string) : Prop :=
  exists before id name after,
    is_id id /\ is_name name /\ content = before +:+ placeholder id name +:+ after.

Lemma is_empty_spec (s : string) : is_empty s = true <-> s = EmptyString.
Proof. destruct s; cbn; split; congruence. Qed.

Lemma match_emote_sound (s name rest : string) :
  match_emote s = Some (name, rest) ->
  exists id, is_id id /\ is_name name /\ s = placeholder id name +:+ rest.
Proof.
  unfold match_emote. intros H.
  destruct (strip_prefix "[emote:" s) as [s1|] eqn:H1; [|discriminate].
  apply strip_prefix_spec in H1.
  destruct (span is_digit s1) as [id s2] eqn:H2.
  apply span_spec in H2 as (-> & Hid & _).
  destruct (is_empty id) eqn:Eid; [discriminate|].
  destruct s2 as [|c s3]; [discriminate|].
  destruct (Ascii.eqb_spec c ":") as [->|Hc].
  2:{ destruct c as [[] [] [] [] [] [] [] []]; try discriminate; contradiction. }
  destruct (span is_word s3) as [nm s4] eqn:H3.
  apply span_spec in H3 as (-> & Hnm & _).
  destruct (is_empty nm) eqn:Enm; [discriminate|].
  destruct s4 as [|d s5]; [discriminate|].
  destruct (Ascii.eqb_spec d "]") as [->|Hd].
  2:{ destruct d as [[] [] [] [] [] [] [] []]; try discriminate; contradiction. }
  inversion H; subst. exists id. repeat split.
  - intros ->. discriminate.
  - exact Hid.
  - intros ->. discriminate.
  - exact Hnm.
  - unfold placeholder. rewrite !app_assoc. reflexivity.
Qed.

Lemma match_emote_complete (id name rest : string) :
  is_id id -> is_name name -> match_emote (placeholder id name +:+ rest) = Some (name, rest).
Proof.
  intros [Hid1 Hid2] [Hn1 Hn2]. unfold match_emote, placeholder.
  rewrite !app_assoc.
  assert (H1 : strip_prefix "[emote:" ("[emote:" +:+ id +:+ ":" +:+ name +:+ "]" +:+ rest)
               = Some (id +:+ ":" +:+ name +:+ "]" +:+ rest)) by (apply strip_prefix_spec; reflexivity).
  rewrite H1.
  rewrite (span_app is_digit id) by (try exact Hid2; reflexivity).
  destruct id as [|i id']; [contradiction|]. cbn [is_empty].
  change (":" +:+ name +:+ "]" +:+ rest) with (String ":" (name +:+ "]" +:+ rest)).
  cbv iota beta.
  rewrite (span_app is_word name) by (try exact Hn2; reflexivity).
  destruct name as [|n name']; [contradiction|]. reflexivity.
Qed.

Lemma match_emote_shorter (s name rest : string) :
  match_emote s = Some (name, rest) -> (String.length rest < String.length s)%nat.
Proof.
  intros H. apply match_emote_sound in H as (id & _ & _ & ->).
  unfold placeholder. rewrite !length_app. cbn. lia.
Qed.

Lemma replace_from_enough (fuel1 fuel2 : nat) (s : string) :
  (String.length s <= fuel1)%nat -> (String.length s <= fuel2)%nat ->
  replace_from fuel1 s = replace_from fuel2 s.
Proof.
  revert fuel2 s. induction fuel1 as [|f1 IH]; intros fuel2 s H1 H2.
  - destruct s; [|cbn in H1; lia]. destruct fuel2; reflexivity.
  - destruct fuel2 as [|f2].
    + destruct s; [reflexivity|cbn in H2; lia].
    + cbn. destruct (match_emote s) as [[name rest]|] eqn:E.
      * apply match_emote_shorter in E. f_equal. apply IH; lia.
      * destruct s as [|c s']; [reflexivity|]. f_equal. cbn in H1, H2. apply IH; lia.
Qed.

Lemma replace_emotes_match (s name rest : string) :
  match_emote s = Some (name, rest) -> replace_emotes s = name +:+ replace_emotes rest.
Proof.
  intros E. unfold replace_emotes.
  pose proof (match_emote_shorter _ _ _ E) as Hlt.
  destruct (String.length s) as [|n] eqn:Hl; [lia|].
  cbn. rewrite E. f_equal. apply replace_from_enough; lia.
Qed.

Lemma replace_emotes_copy (c : ascii) (s : string) :
  match_emote (String c s) = None -> replace_emotes (String c s) = String c (replace_emotes s).
Proof. intros E. unfold replace_emotes. cbn [String.length replace_from]. rewrite E. reflexivity. Qed.

Definition not_bracket (c : ascii) : bool := negb (Ascii.eqb c "[").

Lemma all_chars_weaken (p q : ascii -> bool) (s : string) :
  (forall c, p c = true -> q c = true) -> all_chars p s = true -> all_chars q s = true.
Proof.
  intros Hpq. induction s as [|c s IH]; [reflexivity|]. cbn.
  intros H. apply andb_true_iff in H as [Hc Hs]. rewrite (Hpq _ Hc), (IH Hs). reflexivity.
Qed.

Lemma all_chars_app (p : ascii -> bool) (s t : string) :
  all_chars p (s +:+ t) = all_chars p s && all_chars p t.
Proof.
  induction s as [|c s IH]; [reflexivity|]. rewrite app_cons. cbn. rewrite IH, andb_assoc. reflexivity.
Qed.

Lemma digit_not_bracket (c : ascii) : is_digit c = true -> not_bracket c = true.
Proof. destruct c as [[] [] [] [] [] [] [] []]; vm_compute; congruence. Qed.

Lemma word_not_bracket (c : ascii) : is_word c = true -> not_bracket c = true.
Proof. destruct c as [[] [] [] [] [] [] [] []]; vm_compute; congruence. Qed.

(** After its first character a placeholder holds no bracket. *)
Lemma placeholder_brackets (id name : string) :
  is_id id -> is_name name ->
  exists body, placeholder id name = String "[" body /\ all_chars not_bracket body = true.
Proof.
  intros [_ Hid] [_ Hn]. exists ("emote:" +:+ id +:+ ":" +:+ name +:+ "]"). split; [reflexivity|].
  rewrite !all_chars_app.
  rewrite (all_chars_weaken _ _ _ digit_not_bracket Hid).
  rewrite (all_chars_weaken _ _ _ word_not_bracket Hn). reflexivity.
Qed.

Lemma prefix_before_bracket (body rest x y : string) :
  all_chars not_bracket body = true ->
  body +:+ rest = x +:+ String "[" y ->
  exists x', x = body +:+ x'.
Proof.
  revert x. induction body as [|c body IH]; intros x Hb H.
  - exists x. reflexivity.
  - cbn in Hb. apply andb_true_iff in Hb as [Hc Hb].
    destruct x as [|d x].
    + rewrite app_cons, app_empty_l in H. inversion H; subst. discriminate.
    + rewrite !app_cons in H. inversion H; subst.
      destruct (IH x Hb H2) as [x' ->]. exists x'. reflexivity.
Qed.

(** A match that begins before a placeholder ends before it. *)
Lemma match_emote_before (c : ascii) (x id name after found rest : string) :
  is_id id -> is_name name ->
  match_emote (String c x +:+ placeholder id name +:+ after) = Some (found, rest) ->
  exists rest', match_emote (String c x) = Some (found, rest').
Proof.
  intros Hid Hname H.
  apply match_emote_sound in H as (id' & Hid' & Hfound & H).
  destruct (placeholder_brackets id' found Hid' Hfound) as (body & Hp & Hbody).
  destruct (placeholder_brackets id name Hid Hname) as (body0 & Hp0 & _).
  rewrite Hp, Hp0, !app_cons in H. inversion H; subst c.
  destruct (prefix_before_bracket _ _ _ _ Hbody (eq_sym H2)) as [x' ->].
  exists x'. rewrite <- app_cons, <- Hp. apply match_emote_complete; assumption.
Qed.

Lemma contains_placeholder_tail (c : ascii) (s : string) :
  contains_placeholder s -> contains_placeholder (String c s).
Proof.
  intros (b & id & name & a & Hid & Hn & ->).
  exists (String c b), id, name, a. repeat split; try apply Hid; try apply Hn.
Qed.

Lemma match_emote_contains (s found rest : string) :
  match_emote s = Some (found, rest) -> contains_placeholder s.
Proof.
  intros H. apply match_emote_sound in H as (id & Hid & Hn & ->).
  exists EmptyString, id, found, rest. repeat split; try apply Hid; try apply Hn.
Qed.

Lemma replace_emotes_unchanged (s : string) :
  ~ contains_placeholder s -> replace_emotes s = s.
Proof.
  induction s as [|c s IH]; intros H; [reflexivity|].
  destruct (match_emote (String c s)) as [[found rest]|] eqn:E.
  - exfalso. apply H. eapply match_emote_contains, E.
  - rewrite (replace_emotes_copy _ _ E), IH; [reflexivity|].
    intros Hs. apply H, contains_placeholder_tail, Hs.
Qed.

Lemma replace_emotes_placeholder (before id name after : string) :
  ~ contains_placeholder before -> is_id id -> is_name name ->
  replace_emotes (before +:+ placeholder id name +:+ after)
  = before +:+ name +:+ replace_emotes after.
Proof.
  intros H Hid Hn. induction before as [|c x IH].
  - rewrite !app_empty_l. apply replace_emotes_match, match_emote_complete; assumption.
  - destruct (match_emote (String c x +:+ placeholder id name +:+ after)) as [[found rest]|] eqn:E.
    + exfalso. apply match_emote_before in E as [rest' E]; [|assumption..].
      apply H. eapply match_emote_contains, E.
    + rewrite app_cons in E |- *. rewrite (replace_emotes_copy _ _ E), IH; [reflexivity|].
      intros Hs. apply H, contains_placeholder_tail, Hs.
Qed.

(** Does the pattern match somewhere in [s]? *)
Fixpoint has_emote (s : string) : bool :=
  match match_emote s with
  | Some _ => true
  | None =>
      match s with
      | EmptyString => false
      | String _ rest => has_emote rest
      end
  end.

Lemma has_emote_unfold (s : string) :
  has_emote s = match match_emote s with
                | Some _ => true
                | None => match s with
                          | EmptyString => false
                          | String _ rest => has_emote rest
                          end
                end.
Proof. destruct s; reflexivity. Qed.

Lemma has_emote_complete (s : string) : contains_placeholder s -> has_emote s = true.
Proof.
  intros (before & id & name & after & Hid & Hn & ->).
  induction before as [|c x IH].
  - rewrite app_empty_l, has_emote_unfold, (match_emote_complete id name _ Hid Hn). reflexivity.
  - rewrite app_cons, has_emote_unfold.
    destruct (match_emote (String c (x +:+ placeholder id name +:+ after))); [reflexivity|exact IH].
Qed.

Lemma has_emote_false (s : string) : has_emote s = false -> ~ contains_placeholder s.
Proof. intros H Hc. apply has_emote_complete in Hc. congruence. Qed.

Section Content.
Context {RT : Runtime}.

Lemma cleanEmotes_string (s : string) : cleanEmotes (VStr s) = Ok (replace_emotes s).
Proof. destruct s; reflexivity. Qed.

Lemma parseChatMessage_content (data decoded : val) :
  parseChatMessage data = Ok decoded ->
  exists raw content,
    get data "content" = Ok raw /\ cleanEmotes raw = Ok content
    /\ get_opt decoded "content" = VStr content.
Proof.
  unfold parseChatMessage. intros H.
  destruct (get data "id") as [id|]; [|discriminate]. cbn [bind] in H.
  destruct (get data "content") as [raw|] eqn:Hraw; [|discriminate]. cbn [bind] in H.
  destruct (cleanEmotes raw) as [content|] eqn:Hclean; [|discriminate]. cbn [bind] in H.
  destruct (get data "created_at"); [|discriminate]. cbn [bind] in H.
  destruct (get data "sender") as [sender|]; [|discriminate]. cbn [bind] in H.
  destruct (get sender "id"); [|discriminate]. cbn [bind] in H.
  destruct (get sender "username"); [|discriminate]. cbn [bind] in H.
  destruct (get sender "slug"); [|discriminate]. cbn [bind] in H.
  destruct (get sender "identity"); [|discriminate]. cbn [bind] in H.
  destruct (get data "chatroom"); [|discriminate]. cbn [bind] in H.
  inversion H; subst. exists raw, content.
  split; [reflexivity|split; [exact Hclean|reflexivity]].
Qed.
End Content.


End EmoteFacts.

(* ================================================================== *)
(** * The dispatcher *)
(* ================================================================== *)

Module EmitterFacts.
Import Js EventEmitter.

Section Dispatch.
Context {U Arg : Type}.
Variable call : nat -> Arg -> object U -> object U * result unit.

(** The loop never lets an exception out, and calls the listeners of
    the array it was given, each once and in order, whatever they do. *)
Lemma run_listeners_all (ls : list listener) (arg : Arg) (o : object U) :
  snd (fst (run_listeners call ls arg o)) = Ok tt
  /\ List.map fst (snd (run_listeners call ls arg o)) = ls.
Proof.
  revert o. induction ls as [|l rest IH]; intros o; [split; reflexivity|].
  cbn [run_listeners].
  destruct (invoke call l arg o) as [o1 how].
  assert (Hcatch : exists u, try_catch how (fun _ => Ok tt) = Ok u).
  { destruct how as [u|e]; [exists u|exists tt]; reflexivity. }
  destruct Hcatch as [u ->].
  specialize (IH o1). destruct (run_listeners call rest arg o1) as [[o2 r] log].
  cbn in *. destruct IH as [-> ->]. split; reflexivity.
Qed.

Lemma emit_calls (event : string) (arg : Arg) (o : object U) :
  List.map fst (calls (emit call event arg o)) = listeners_of event o.
Proof.
  unfold emit, listeners_of.
  destruct (events o !! event) as [[|l ls]|] eqn:E; try reflexivity.
  pose proof (run_listeners_all (l :: ls) arg o) as [_ H].
  destruct (run_listeners call (l :: ls) arg o) as [[o' r] log]. exact H.
Qed.

Lemma emit_returned (event : string) (arg : Arg) (o : object U) :
  returned (emit call event arg o)
  = Ok (match listeners_of event o with [] => false | _ => true end).
Proof.
  unfold emit, listeners_of.
  destruct (events o !! event) as [[|l ls]|] eqn:E; try reflexivity.
  pose proof (run_listeners_all (l :: ls) arg o) as [H _].
  destruct (run_listeners call (l :: ls) arg o) as [[o' r] log].
  cbn in *. rewrite H. reflexivity.
Qed.

Lemma emit_calls_once (event : string) (arg : Arg) (o : object U) (l : listener) :
  NoDup (listeners_of event o) -> l ∈ listeners_of event o ->
  count_occ listener_eq_dec (List.map fst (calls (emit call event arg o))) l = 1%nat.
Proof.
  intros Hnd Hin. rewrite emit_calls.
  apply NoDup_count_occ'; [apply NoDup_ListNoDup, Hnd|]. apply list_elem_of_In, Hin.
Qed.

(** C6.  [emit] never throws; it returns [true] exactly when the event
    had a listener at the time of the call; the calls it makes are the
    listeners registered at that time, each once and in order, whatever a
    listener throws or does to the registry; with two listeners of which
    the first throws, the second is called once, after the first. *)
Theorem emit_isolates_listeners (event : string) (arg : Arg) (o : object U) :
  (exists b : bool,
      returned (emit call event arg o) = Ok b
      /\ (b = true <-> listeners_of event o <> []))
  /\ List.map fst (calls (emit call event arg o)) = listeners_of event o
  /\ (forall l, NoDup (listeners_of event o) -> l ∈ listeners_of event o ->
        count_occ listener_eq_dec (List.map fst (calls (emit call event arg o))) l = 1%nat)
  /\ (forall first second o1 e,
        listeners_of event o = [first; second] ->
        invoke call first arg o = (o1, Throw e) ->
        calls (emit call event arg o)
        = [(first, Throw e); (second, snd (invoke call second arg o1))]
        /\ returned (emit call event arg o) = Ok true).
Proof.
  split; [|split; [|split]].
  - rewrite emit_returned. destruct (listeners_of event o) as [|l ls].
    + exists false. split; [reflexivity|]. split; [discriminate|congruence].
    + exists true. split; [reflexivity|]. split; [discriminate|reflexivity].
  - apply emit_calls.
  - intros l Hnd Hin. apply emit_calls_once; assumption.
  - intros first second o1 e Hls Hfirst.
    rewrite emit_returned, Hls. split; [|reflexivity].
    unfold emit. unfold listeners_of in Hls.
    destruct (events o !! event) as [ls|]; [|discriminate]. cbn in Hls. subst ls.
    cbn [run_listeners]. rewrite Hfirst. cbn [try_catch].
    destruct (invoke call second arg o1) as [o2 how2].
    destruct how2 as [[]|e2]; reflexivity.
Qed.
End Dispatch.

(** Two listeners on one event; the first one throws. *)
Definition thrower (id : nat) (arg : unit) (o : object nat) : object nat * result unit :=
  match id with
  | O => (o, Throw "Error: first listener")
  | _ => (Object (events o) (closures o) (S (fields o)), Ok tt)
  end.

Lemma emit_isolates_listeners_witness :
  calls (emit thrower "test" tt (on "test" (Fn 1) (on "test" (Fn 0) (new_emitter 0%nat))))
  = [(Fn 0, Throw "Error: first listener");
     (Fn 1, snd (invoke thrower (Fn 1) tt (on "test" (Fn 1) (on "test" (Fn 0) (new_emitter 0%nat)))))]
  /\ returned (emit thrower "test" tt (on "test" (Fn 1) (on "test" (Fn 0) (new_emitter 0%nat))))
     = Ok true.
Proof.
  refine (proj2 (proj2 (proj2 (emit_isolates_listeners thrower "test" tt _))) (Fn 0) (Fn 1) _ _ _ _);
    reflexivity.
Defined.

Section Registration.
Context {U Arg : Type}.

Lemma set_add_elem (l : listener) (ls : list listener) : l ∈ set_add l ls.
Proof.
  unfold set_add. case_bool_decide as H; [exact H|].
  apply elem_of_app. right. apply list_elem_of_singleton. reflexivity.
Qed.

Lemma set_add_idem (l : listener) (ls : list listener) :
  set_add l (set_add l ls) = set_add l ls.
Proof.
  unfold set_add at 1. rewrite bool_decide_eq_true_2; [reflexivity|apply set_add_elem].
Qed.

Lemma set_add_NoDup (l : listener) (ls : list listener) : NoDup ls -> NoDup (set_add l ls).
Proof.
  intros H. unfold set_add. case_bool_decide as Hin; [exact H|].
  apply NoDup_app. split; [exact H|]. split.
  - intros x Hx Hx'. apply list_elem_of_singleton in Hx'. subst. contradiction.
  - apply NoDup_singleton.
Qed.

Lemma listeners_of_on (event : string) (l : listener) (o : object U) :
  listeners_of event (on event l o) = set_add l (listeners_of event o).
Proof. unfold listeners_of, on. cbn. rewrite lookup_insert_eq. reflexivity. Qed.

Lemma listenerCount_length (event : string) (o : object U) :
  listenerCount event o = length (listeners_of event o).
Proof. unfold listenerCount, listeners_of. destruct (events o !! event); reflexivity. Qed.

Lemma on_on_same (event : string) (l : listener) (o : object U) :
  on event l (on event l o) = on event l o.
Proof.
  unfold on at 1. fold (listeners_of event (on event l o)).
  rewrite listeners_of_on, set_add_idem.
  unfold on, with_events. cbn. rewrite insert_insert_eq. reflexivity.
Qed.

(** C8, as the code has it.  The listeners of an event are a [Set]:
    registering a listener that is already registered changes nothing,
    so after [on] twice with the same listener the count has grown by
    one at most and an [emit] calls the listener once.  Two different
    listeners are both registered. *)
Theorem on_registers_listener_once (event : string) (l : listener) (o : object U) :
  on event l (on event l o) = on event l o
  /\ listenerCount event (on event l (on event l o))
     = (if bool_decide (l ∈ listeners_of event o) then listenerCount event o
        else S (listenerCount event o))
  /\ (forall (call : nat -> Arg -> object U -> object U * result unit) (arg : Arg),
        NoDup (listeners_of event o) ->
        count_occ listener_eq_dec
          (List.map fst (calls (emit call event arg (on event l (on event l o))))) l = 1%nat)
  /\ (forall l', l' <> l -> l ∉ listeners_of event o -> l' ∉ listeners_of event o ->
        listenerCount event (on event l' (on event l o)) = S (S (listenerCount event o))).
Proof.
  split; [apply on_on_same|]. split; [|split].
  - rewrite on_on_same, !listenerCount_length, listeners_of_on. unfold set_add.
    case_bool_decide; [reflexivity|]. rewrite length_app. cbn. lia.
  - intros call arg Hnd. rewrite on_on_same. apply emit_calls_once.
    + rewrite listeners_of_on. apply set_add_NoDup, Hnd.
    + rewrite listeners_of_on. apply set_add_elem.
  - intros l' Hne Hl Hl'.
    rewrite !listenerCount_length, !listeners_of_on. unfold set_add.
    rewrite (bool_decide_eq_false_2 _ Hl).
    rewrite bool_decide_eq_false_2.
    + rewrite !length_app. cbn. lia.
    + intros Hin. apply elem_of_app in Hin as [Hin|Hin]; [contradiction|].
      apply list_elem_of_singleton in Hin. contradiction.
Qed.
End Registration.

Definition quiet (id : nat) (arg : unit) (o : object unit) : object unit * result unit :=
  (o, Ok tt).

Lemma on_registers_listener_once_witness :
  count_occ listener_eq_dec
    (List.map fst (calls (emit quiet "chat" tt
                            (on "chat" (Fn 0) (on "chat" (Fn 0) (new_emitter tt)))))) (Fn 0)
  = 1%nat
  /\ listenerCount "chat" (on "chat" (Fn 1) (on "chat" (Fn 0) (new_emitter tt))) = 2%nat.
Proof.
  destruct (on_registers_listener_once (Arg := unit) "chat" (Fn 0) (new_emitter tt))
    as (_ & _ & Hcalls & Htwo).
  split.
  - refine (Hcalls quiet tt _). apply NoDup_nil_2.
  - refine (Htwo (Fn 1) _ _ _).
    + discriminate.
    + apply not_elem_of_nil.
    + apply not_elem_of_nil.
Defined.

(** C8, as the claim states it, fails: after [on] twice with one listener
    the count is 1, and an [emit] calls the listener once. *)
Lemma on_twice_is_one_registration :
  listenerCount "chat" (on "chat" (Fn 0) (on "chat" (Fn 0) (new_emitter tt))) = 1%nat
  /\ List.map fst (calls (emit quiet "chat" tt
                             (on "chat" (Fn 0) (on "chat" (Fn 0) (new_emitter tt)))))
     = [Fn 0].
Proof. split; reflexivity. Qed.

(** ** A listener of [once] called twice *)

(** The program
<<
    const e = new EventEmitter(); let first = true, count = 0;
    e.on("x", () => { if (first) { first = false; e.emit("x"); } });   // Fn 0
    e.once("x", () => { count++; });                                   // Fn 1
    e.emit("x");
>>  *)
Record counters : Type := Counters { first : bool; count : nat }.

(** What the two functions do; [depth] bounds the nesting of calls. *)
Fixpoint program (depth : nat) (id : nat) (arg : unit) (o : object counters)
  : object counters * result unit :=
  match depth with
  | O => (o, Throw "RangeError: Maximum call stack size exceeded")
  | S depth' =>
      match id with
      | O =>
          if first (fields o) then
            let o1 := Object (events o) (closures o) (Counters false (count (fields o))) in
            (after (emit (program depth') "x" tt o1), Ok tt)
          else (o, Ok tt)
      | _ =>
          (Object (events o) (closures o) (Counters (first (fields o)) (S (count (fields o)))),
           Ok tt)
      end
  end.

Definition reentrant_start : object counters :=
  once "x" (Fn 1) (on "x" (Fn 0) (new_emitter (Counters true 0))).

Definition sequential_start : object counters :=
  once "x" (Fn 1) (new_emitter (Counters false 0)).

(** C7 on the code.  Two publishes in a row call a listener of [once]
    once, as the test of the repository checks.  When a listener
    registered before it publishes the event again, the inner publish
    calls it and removes it, and the outer publish, which copied the
    listeners before, calls it a second time: one top-level publish, two
    calls, both of which return.  The bound on the nesting is not
    reached: any bound of three or more gives the same run. *)
Theorem once_listener_called_twice_when_nested (depth : nat) :
  let call := program (3 + depth)%nat in
  count (fields (after (emit call "x" tt (after (emit call "x" tt sequential_start)))))
  = 1%nat
  /\ listeners_of "x" reentrant_start = [Fn 0; OnceWrapper 0 "x" (Fn 1)]
  /\ count (fields (after (emit call "x" tt reentrant_start))) = 2%nat
  /\ calls (emit call "x" tt reentrant_start)
     = [(Fn 0, Ok tt); (OnceWrapper 0 "x" (Fn 1), Ok tt)]
  /\ returned (emit call "x" tt reentrant_start) = Ok true
  /\ listeners_of "x" (after (emit call "x" tt reentrant_start)) = [Fn 0].
Proof. repeat split; reflexivity. Qed.

End EmitterFacts.

(* ================================================================== *)
(** * The frame decoder *)
(* ================================================================== *)

Module DecoderFacts.
Import Js WebSocketManager MessageParser.
Local Open Scope js_scope.

Section Shapes.
Context {RT : Runtime}.

Definition is_object (v : val) : bool :=
  match v with VObj _ => true | _ => false end.

Definition is_nullish (v : val) : bool :=
  match v with VUndefined | VNull => true | _ => false end.

Definition is_text (v : val) : bool :=
  match v with VStr _ => true | _ => false end.

(** [RawChatMessageData]: an object whose [content], when present, is a
    string, and whose [sender] is an object. *)
Definition chat_shape (data : val) : bool :=
  is_object data
  && (is_text (get_opt data "content") || negb (truthy (get_opt data "content")))
  && is_object (get_opt data "sender").

(** [RawGiftedSubscriptionsData]: [gifter], when present, is an object;
    [recipients], when an array, holds strings and objects. *)
Definition gifted_shape (data : val) : bool :=
  is_object data
  && negb (is_nullish (get_opt data "gifter") && negb (is_undefined (get_opt data "gifter")))
  && match get_opt data "recipients" with
     | VArr items => forallb (fun r => negb (is_nullish r)) items
     | _ => true
     end.

(** [RawPollUpdateData]: [options], when present, is an array of
    objects. *)
Definition poll_shape (data : val) : bool :=
  is_object data
  && match get_opt data "options" with
     | VArr items => forallb (fun opt => negb (is_nullish opt)) items
     | other => negb (truthy other)
     end.

(** The payload has the shape types.ts declares for the kind, as far as
    the decoder reads it. *)
Definition well_formed (k : KickEventType) (payload : val) : bool :=
  match k with
  | ChatMessage => chat_shape payload
  | PinnedMessageCreated => is_object payload && chat_shape (get_opt payload "message")
  | GiftedSubscriptions => gifted_shape payload
  | PollUpdate => poll_shape payload
  | MessageDeleted | UserBanned | UserUnbanned | Subscription | StreamHost | PollDelete =>
      is_object payload
  | ready | disconnect | error | rawMessage => false
  end.

(** The decoder of a kind. *)
Definition decoder_of (k : KickEventType) : val -> result val :=
  match k with
  | ChatMessage => parseChatMessage
  | MessageDeleted => parseMessageDeleted
  | UserBanned => parseUserBanned
  | UserUnbanned => parseUserUnbanned
  | Subscription => parseSubscription
  | GiftedSubscriptions => parseGiftedSubscriptions
  | PinnedMessageCreated => parsePinnedMessageCreated
  | StreamHost => parseStreamHost
  | PollUpdate => parsePollUpdate
  | PollDelete => parsePollDelete
  | ready | disconnect | error | rawMessage => fun _ => Throw "not a decoded kind"
  end.
End Shapes.

Section Decoder.
Context {RT : Runtime}.

Ltac table_cases H :=
  unfold eventTypeMap in H; cbn [assoc] in H;
  repeat match type of H with
         | context [String.eqb ?a ?b] => destruct (String.eqb_spec a b); [subst|]
         end.

Lemma table_names (name : string) (k : KickEventType) :
  assoc name eventTypeMap = Some k ->
  is_pusher_event name = false /\ name <> EmptyString
  /\ forall eventData, dispatch_event name eventData = tagged k (decoder_of k eventData).
Proof.
  intros H. table_cases H; try discriminate; inversion H; subst;
    (split; [reflexivity|split; [discriminate|reflexivity]]).
Qed.

Lemma table_misses (name : string) :
  assoc name eventTypeMap = None -> forall eventData, dispatch_event name eventData = Ok None.
Proof.
  intros H eventData. table_cases H; try discriminate.
  unfold dispatch_event.
  repeat match goal with
         | |- context [String.eqb ?a ?b] => destruct (String.eqb_spec a b); [contradiction|]
         end.
  reflexivity.
Qed.

Lemma get_object (fields : list (string * val)) (k : string) :
  get (VObj fields) k = Ok (get_opt (VObj fields) k).
Proof. reflexivity. Qed.

Lemma is_object_inv (v : val) : is_object v = true -> exists fields, v = VObj fields.
Proof. destruct v; try discriminate. eauto. Qed.

Lemma parseChatMessage_ok (data : val) :
  chat_shape data = true -> exists decoded, parseChatMessage data = Ok decoded.
Proof.
  unfold chat_shape. intros H.
  apply andb_true_iff in H as [H Hsender]. apply andb_true_iff in H as [Hobj Hcontent].
  apply is_object_inv in Hobj as [fields ->].
  apply is_object_inv in Hsender as [sfields Hs].
  unfold parseChatMessage. rewrite !get_object, Hs. cbn [bind]. rewrite !get_object. cbn [bind].
  assert (Hc : exists c, cleanEmotes (get_opt (VObj fields) "content") = Ok c).
  { unfold cleanEmotes. destruct (get_opt (VObj fields) "content") as [| | | |s| |];
      cbn in Hcontent |- *; try (apply negb_true_iff in Hcontent; rewrite Hcontent);
      try discriminate; cbn; eauto.
    destruct (negb (negb (String.eqb s EmptyString))); eauto. }
  destruct Hc as [c ->]. cbn [bind]. eauto.
Qed.

Lemma mapM_ok {A B} (f : A -> result B) (l : list A) :
  (forall x, In x l -> exists y, f x = Ok y) -> exists ys, mapM f l = Ok ys.
Proof.
  induction l as [|x l IH]; intros H; [exists []; reflexivity|].
  destruct (H x (or_introl eq_refl)) as [y Hy].
  destruct IH as [ys Hys]; [intros z Hz; apply H; right; exact Hz|].
  exists (y :: ys). cbn. rewrite Hy. cbn. rewrite Hys. reflexivity.
Qed.

Lemma get_not_nullish (v : val) (k : string) :
  is_nullish v = false -> exists x, get v k = Ok x.
Proof. destruct v; try discriminate; cbn; eauto. Qed.

Lemma bind_ok {A B} (m : result A) (k : A -> result B) :
  (exists x, m = Ok x) -> (forall x, exists y, k x = Ok y) -> exists y, bind m k = Ok y.
Proof. intros [x ->] H. apply H. Qed.

Lemma or_lazy_ok (a : val) (b : result val) :
  (exists x, b = Ok x) -> exists x, or_lazy a b = Ok x.
Proof. intros H. unfold or_lazy. destruct (truthy a); eauto. Qed.

Lemma parseGiftedSubscriptions_ok (data : val) :
  gifted_shape data = true -> exists decoded, parseGiftedSubscriptions data = Ok decoded.
Proof.
  unfold gifted_shape. intros H.
  apply andb_true_iff in H as [H Hrec]. apply andb_true_iff in H as [Hobj Hgifter].
  apply is_object_inv in Hobj as [fields ->].
  unfold parseGiftedSubscriptions. rewrite !get_object. cbn [bind].
  apply bind_ok.
  { apply or_lazy_ok.
    destruct (get_opt (VObj fields) "gifter"); cbn in *; try discriminate; eauto. }
  intros gifter.
  destruct (get_opt (VObj fields) "recipients") as [| | | | |items|]; cbn [bind]; eauto.
  apply bind_ok; [|eauto].
  apply mapM_ok. intros r Hr. rewrite forallb_forall in Hrec. specialize (Hrec r Hr).
  destruct r; cbn in *; try discriminate; eauto.
Qed.

Lemma parsePollUpdate_ok (data : val) :
  poll_shape data = true -> exists decoded, parsePollUpdate data = Ok decoded.
Proof.
  unfold poll_shape. intros H. apply andb_true_iff in H as [Hobj Hopts].
  apply is_object_inv in Hobj as [fields ->].
  unfold parsePollUpdate. rewrite !get_object. cbn [bind].
  assert (Ho : exists items,
             or_else (get_opt (VObj fields) "options") (VArr []) = VArr items
             /\ forallb (fun opt => negb (is_nullish opt)) items = true).
  { unfold or_else. destruct (get_opt (VObj fields) "options") as [| | | | |items|] eqn:E;
      cbn in Hopts |- *;
      try (apply negb_true_iff in Hopts; rewrite Hopts);
      try discriminate; eauto. }
  destruct Ho as (items & -> & Hitems).
  apply bind_ok; [|eauto].
  apply mapM_ok. intros opt Hopt. rewrite forallb_forall in Hitems. specialize (Hitems opt Hopt).
  destruct opt; cbn in *; try discriminate; eauto.
Qed.

Lemma decoder_ok (k : KickEventType) (payload : val) :
  well_formed k payload = true -> exists decoded, decoder_of k payload = Ok decoded.
Proof.
  destruct k; cbn [well_formed decoder_of]; intros H; try discriminate;
    try apply parseChatMessage_ok; try apply parseGiftedSubscriptions_ok;
    try apply parsePollUpdate_ok; try assumption;
    try (apply is_object_inv in H as [fields ->]).
  - unfold parseMessageDeleted. rewrite !get_object. cbn. eauto.
  - unfold parseUserBanned, or_lazy. rewrite !get_object. cbn [bind].
    destruct (truthy (get_opt (VObj fields) "username")); cbn; eauto.
  - unfold parseUserUnbanned, or_lazy. rewrite !get_object. cbn [bind].
    destruct (truthy (get_opt (VObj fields) "username")); cbn; eauto.
  - unfold parseSubscription, or_lazy. rewrite !get_object. cbn [bind].
    destruct (truthy (get_opt (VObj fields) "username")); cbn; eauto.
  - apply andb_true_iff in H as [Hobj Hchat].
    apply is_object_inv in Hobj as [fields ->].
    unfold parsePinnedMessageCreated. rewrite get_object. cbn [bind].
    destruct (parseChatMessage_ok _ Hchat) as [m ->]. cbn. eauto.
  - unfold parseStreamHost. rewrite !get_object. cbn. eauto.
  - unfold parsePollDelete. rewrite !get_object. cbn. eauto.
Qed.

Lemma is_blank_empty (s : string) : is_empty s = true -> is_blank s = true.
Proof. destruct s; [reflexivity|discriminate]. Qed.

Lemma parseMessage_total (rawMessage : string) : exists r, parseMessage rawMessage = Ok r.
Proof. unfold parseMessage. destruct (parseMessage_try rawMessage); cbn; eauto. Qed.

Lemma parse_event_data_inv (d eventData : val) :
  parse_event_data d = Some eventData ->
  is_undefined d = false /\ is_string d EmptyString = false
  /\ JSON_parse (toString d) = Some eventData.
Proof.
  unfold parse_event_data, JSON_parse_value.
  destruct (is_undefined d); [discriminate|].
  destruct (is_string d EmptyString); [discriminate|]. cbn.
  destruct (JSON_parse (toString d)); cbn; [|discriminate].
  intros [= ->]. repeat split.
Qed.

(** What a frame that decodes to an event looks like. *)
Lemma parseMessage_inv (rawMessage : string) (p : parsed) :
  parseMessage rawMessage = Ok (Some p) ->
  is_blank rawMessage = false
  /\ exists message name eventData,
       JSON_parse rawMessage = Some message
       /\ get_opt message "event" = VStr name
       /\ name <> EmptyString
       /\ is_pusher_event name = false
       /\ is_undefined (get_opt message "data") = false
       /\ is_string (get_opt message "data") EmptyString = false
       /\ JSON_parse (toString (get_opt message "data")) = Some eventData
       /\ dispatch_event name eventData = Ok (Some p).
Proof.
  unfold parseMessage. destruct (parseMessage_try rawMessage) as [r|e] eqn:E; cbn; [|discriminate].
  intros [= ->]. unfold parseMessage_try in E.
  destruct (is_empty rawMessage || is_blank rawMessage) eqn:Hblank; [discriminate|].
  apply orb_false_iff in Hblank as [_ Hblank]. split; [exact Hblank|].
  unfold JSON_parse_text in E.
  destruct (JSON_parse rawMessage) as [message|]; [|discriminate]. cbn [bind] in E.
  destruct message as [| | | | | |fields]; try discriminate.
  rewrite !get_object in E. cbn [bind] in E.
  destruct (truthy (get_opt (VObj fields) "event")) eqn:Hev; [|discriminate].
  cbn [negb bind] in E.
  destruct (is_undefined (get_opt (VObj fields) "data")) eqn:Hdata; [discriminate|].
  destruct (get_opt (VObj fields) "event") as [| | | |name| |] eqn:Hname; try discriminate.
  destruct (is_pusher_event name) eqn:Hpusher; [discriminate|].
  destruct (String.eqb_spec name EmptyString) as [->|Hne]; [discriminate|].
  destruct (is_string (get_opt (VObj fields) "data") EmptyString) eqn:Hd; [discriminate|].
  cbn [orb] in E.
  destruct (parse_event_data (get_opt (VObj fields) "data")) as [eventData|] eqn:Hp;
    [|discriminate].
  apply parse_event_data_inv in Hp as (_ & _ & Hjson).
  exists (VObj fields), name, eventData. rewrite Hname. repeat split; assumption.
Qed.

Lemma dispatch_event_inv (name : string) (eventData : val) (p : parsed) :
  dispatch_event name eventData = Ok (Some p) ->
  assoc name eventTypeMap = Some (type p).
Proof.
  intros H. destruct (assoc name eventTypeMap) as [k|] eqn:E.
  - destruct (table_names _ _ E) as (_ & _ & Hd). rewrite Hd in H.
    unfold tagged in H. destruct (decoder_of k eventData); cbn in H; [|discriminate].
    inversion H; subst. reflexivity.
  - rewrite (table_misses _ E) in H. discriminate.
Qed.

(** C1.  parseMessage never throws.  It answers [null] for a frame that
    is empty or blank, that is not JSON, that lacks [event] or [data],
    whose event name begins with a control prefix (whatever the data),
    whose event or data is the empty string, whose data is not JSON, or
    whose event name is not one of the ten of the table.  For a frame
    whose event is one of the ten names and whose data is the JSON text of
    a payload of the shape declared for that kind, it answers an event of
    that kind. *)
Theorem parseMessage_decodes (rawMessage : string) :
  (exists r, parseMessage rawMessage = Ok r)
  /\ (is_blank rawMessage = true -> parseMessage rawMessage = Ok None)
  /\ (JSON_parse rawMessage = None -> parseMessage rawMessage = Ok None)
  /\ (forall message,
        JSON_parse rawMessage = Some message ->
        get_opt message "event" = VUndefined
        \/ get_opt message "data" = VUndefined
        \/ (exists name, get_opt message "event" = VStr name /\ is_pusher_event name = true)
        \/ get_opt message "event" = VStr EmptyString
        \/ get_opt message "data" = VStr EmptyString
        \/ JSON_parse (toString (get_opt message "data")) = None
        \/ (forall name, get_opt message "event" = VStr name ->
              assoc name eventTypeMap = None) ->
        parseMessage rawMessage = Ok None)
  /\ (forall message name text payload k,
        is_blank rawMessage = false ->
        JSON_parse rawMessage = Some message ->
        get_opt message "event" = VStr name ->
        get_opt message "data" = VStr text ->
        text <> EmptyString ->
        JSON_parse text = Some payload ->
        assoc name eventTypeMap = Some k ->
        well_formed k payload = true ->
        exists decoded, parseMessage rawMessage = Ok (Some {| type := k; data := decoded |})).
Proof.
  assert (Hnone : (forall p, parseMessage rawMessage <> Ok (Some p)) ->
                  parseMessage rawMessage = Ok None).
  { intros H. destruct (parseMessage_total rawMessage) as [[p|] Hr]; [|exact Hr].
    exfalso. exact (H p Hr). }
  split; [apply parseMessage_total|]. split; [|split; [|split]].
  - intros Hblank. apply Hnone. intros p Hp.
    apply parseMessage_inv in Hp as [Hb _]. congruence.
  - intros Hjson. apply Hnone. intros p Hp.
    apply parseMessage_inv in Hp as (_ & m & n & d & Hm & _). congruence.
  - intros message Hjson Hcase. apply Hnone. intros p Hp.
    apply parseMessage_inv in Hp
      as (_ & m & n & d & Hm & Hev & Hne & Hpusher & Hundef & Hempty & Hdata & Hdisp).
    rewrite Hjson in Hm. inversion Hm; subst m.
    destruct Hcase as [H|[H|[(n' & H & H')|[H|[H|[H|H]]]]]].
    + congruence.
    + rewrite H in Hundef. discriminate.
    + rewrite Hev in H. inversion H; subst. congruence.
    + congruence.
    + rewrite H in Hempty. discriminate.
    + congruence.
    + apply dispatch_event_inv in Hdisp. rewrite (H n Hev) in Hdisp. discriminate.
  - intros message name text payload k Hblank Hjson Hev Hdata Htext Hpayload Hk Hshape.
    destruct (table_names _ _ Hk) as (Hpusher & Hne & Hdisp).
    destruct (decoder_ok _ _ Hshape) as [decoded Hdecoded].
    exists decoded. unfold parseMessage, parseMessage_try.
    destruct (is_empty rawMessage) eqn:He; [apply is_blank_empty in He; congruence|].
    rewrite Hblank. cbn [orb]. unfold JSON_parse_text. rewrite Hjson. cbn [bind].
    destruct message as [| | | | | |fields]; try discriminate.
    rewrite !get_object, Hev, Hdata. cbn [bind].
    assert (Htruthy : truthy (VStr name) = true).
    { cbn. destruct (String.eqb_spec name EmptyString); [contradiction|reflexivity]. }
    rewrite Htruthy. cbn [negb bind is_undefined]. rewrite Hpusher.
    destruct (String.eqb_spec name EmptyString) as [|_]; [contradiction|].
    cbn [is_string]. destruct (String.eqb_spec text EmptyString) as [|_]; [contradiction|].
    cbn [orb]. unfold parse_event_data, JSON_parse_value. cbn [is_undefined is_string].
    destruct (String.eqb_spec text EmptyString) as [|_]; [contradiction|].
    cbn [orb toString]. rewrite Hpayload. cbn [bind try_catch].
    rewrite Hdisp, Hdecoded. reflexivity.
Qed.

(** A frame of a name of the table whose payload the decoder of the kind
    accepts is answered with what that decoder returns. *)
Lemma parseMessage_payload (rawMessage : string) (message : val) (name text : string)
      (payload decoded : val) (k : KickEventType) :
  is_blank rawMessage = false ->
  JSON_parse rawMessage = Some message ->
  get_opt message "event" = VStr name ->
  get_opt message "data" = VStr text ->
  text <> EmptyString ->
  JSON_parse text = Some payload ->
  assoc name eventTypeMap = Some k ->
  decoder_of k payload = Ok decoded ->
  parseMessage rawMessage = Ok (Some {| type := k; data := decoded |}).
Proof.
  intros Hblank Hjson Hev Hdata Htext Hpayload Hk Hdecoded.
  destruct (table_names _ _ Hk) as (Hpusher & Hne & Hdisp).
  assert (Hempty : is_empty rawMessage = false).
  { destruct (is_empty rawMessage) eqn:He; [|reflexivity].
    apply is_blank_empty in He. congruence. }
  assert (Hfields : exists fields, message = VObj fields).
  { destruct message; try discriminate. eauto. }
  destruct Hfields as [fields ->].
  unfold parseMessage, parseMessage_try, JSON_parse_text.
  rewrite Hempty, Hblank, Hjson. cbn [orb bind].
  rewrite !get_object, Hev, Hdata. cbn [bind truthy is_undefined is_string].
  apply String.eqb_neq in Hne, Htext. rewrite Hne, Htext. cbn [negb bind orb].
  rewrite Hpusher. unfold parse_event_data, JSON_parse_value.
  cbn [is_undefined is_string toString]. rewrite Htext, Hpayload. cbn [orb bind try_catch].
  rewrite Hdisp, Hdecoded. reflexivity.
Qed.

(** A chat payload with a sender is decoded, its content cleaned. *)
Lemma parseChatMessage_clean (fields sender : list (string * val)) (clean : string) :
  get_opt (VObj fields) "sender" = VObj sender ->
  cleanEmotes (get_opt (VObj fields) "content") = Ok clean ->
  exists decoded,
    parseChatMessage (VObj fields) = Ok decoded /\ get_opt decoded "content" = VStr clean.
Proof.
  intros Hsender Hclean. unfold parseChatMessage.
  rewrite !get_object. cbn [bind]. rewrite Hclean. cbn [bind].
  rewrite Hsender, !get_object. cbn [bind].
  eexists. split; reflexivity.
Qed.
End Decoder.

Definition ban_frame : string :=
  Host.text "{'event':'App\\Events\\UserBannedEvent','data':'{\'banned_username\':\'bob\'}'}".

Definition ping_frame : string :=
  Host.text "{'event':'pusher:ping','data':'not json'}".

Lemma parseMessage_decodes_witness :
  parseMessage "   " = Ok None
  /\ parseMessage "invalid json" = Ok None
  /\ parseMessage ping_frame = Ok None
  /\ exists decoded, parseMessage ban_frame = Ok (Some {| type := UserBanned; data := decoded |}).
Proof.
  split; [|split; [|split]].
  - refine (proj1 (proj2 (parseMessage_decodes (RT := Host.runtime) "   ")) _). reflexivity.
  - refine (proj1 (proj2 (proj2 (parseMessage_decodes (RT := Host.runtime) "invalid json"))) _).
    reflexivity.
  - refine (proj1 (proj2 (proj2 (proj2 (parseMessage_decodes (RT := Host.runtime) ping_frame))))
              (VObj [("event", VStr "pusher:ping"); ("data", VStr "not json")]) _ _).
    + reflexivity.
    + right. right. left. exists "pusher:ping". split; reflexivity.
  - refine (proj2 (proj2 (proj2 (proj2 (parseMessage_decodes (RT := Host.runtime) ban_frame))))
              (VObj [("event", VStr "App\Events\UserBannedEvent");
                     ("data", VStr (Host.text "{'banned_username':'bob'}"))])
              "App\Events\UserBannedEvent" (Host.text "{'banned_username':'bob'}")
              (VObj [("banned_username", VStr "bob")]) UserBanned _ _ _ _ _ _ _ _);
      try reflexivity.
    discriminate.
Defined.
End DecoderFacts.

(* ================================================================== *)
(** * The content of a chat message *)
(* ================================================================== *)

Module ContentFacts.
Import Js MessageParser EmoteFacts.

Section Content.
Context {RT : Runtime}.

(** C9.  A chat payload with a sender is decoded, by parseChatMessage
    and by parseMessage on a ChatMessage frame that carries it, and the
    decoded content is [cleanEmotes] of the payload's content; no decoded
    ChatMessage has another content.  A placeholder [[emote:<id>:<name>]]
    (digits, then word characters) that follows text without placeholders
    is replaced by its name, and the replacement goes on in the text after
    it; text without placeholders is returned as it is; empty or absent
    content gives the empty string. *)
Theorem cleanEmotes_replaces_placeholders :
  (forall (fields sender : list (string * val)) (clean : string),
      get_opt (VObj fields) "sender" = VObj sender ->
      cleanEmotes (get_opt (VObj fields) "content") = Ok clean ->
      exists decoded,
        parseChatMessage (VObj fields) = Ok decoded
        /\ get_opt decoded "content" = VStr clean)
  /\ (forall (rawMessage text : string) (message : val)
             (fields sender : list (string * val)) (clean : string),
        is_blank rawMessage = false ->
        JSON_parse rawMessage = Some message ->
        get_opt message "event" = VStr "App\Events\ChatMessageEvent" ->
        get_opt message "data" = VStr text ->
        text <> EmptyString ->
        JSON_parse text = Some (VObj fields) ->
        get_opt (VObj fields) "sender" = VObj sender ->
        cleanEmotes (get_opt (VObj fields) "content") = Ok clean ->
        exists decoded,
          parseMessage rawMessage = Ok (Some {| type := ChatMessage; data := decoded |})
          /\ get_opt decoded "content" = VStr clean)
  /\ (forall data decoded : val,
        parseChatMessage data = Ok decoded ->
        exists raw content,
          get data "content" = Ok raw /\ cleanEmotes raw = Ok content
          /\ get_opt decoded "content" = VStr content)
  /\ (forall before id name after : string,
        ~ contains_placeholder before -> is_id id -> is_name name ->
        cleanEmotes (VStr (before +:+ placeholder id name +:+ after))
        = Ok (before +:+ name +:+ replace_emotes after))
  /\ cleanEmotes (VStr "Hi [emote:1:Kappa] there [emote:2:Pog]") = Ok "Hi Kappa there Pog"
  /\ (forall content : string,
        ~ contains_placeholder content -> cleanEmotes (VStr content) = Ok content)
  /\ cleanEmotes (VStr EmptyString) = Ok EmptyString
  /\ cleanEmotes VUndefined = Ok EmptyString
  /\ cleanEmotes VNull = Ok EmptyString.
Proof.
  split; [exact DecoderFacts.parseChatMessage_clean|].
  split.
  { intros rawMessage text message fields sender clean
           Hblank Hjson Hev Hdata Htext Hpayload Hsender Hclean.
    destruct (DecoderFacts.parseChatMessage_clean fields sender clean Hsender Hclean)
      as (decoded & Hdecoded & Hcontent).
    exists decoded. split; [|exact Hcontent].
    apply (DecoderFacts.parseMessage_payload rawMessage message
             "App\Events\ChatMessageEvent" text (VObj fields) decoded ChatMessage);
      try assumption; reflexivity. }
  split; [exact parseChatMessage_content|].
  split.
  { intros before id name after H Hid Hn.
    rewrite cleanEmotes_string, replace_emotes_placeholder by assumption. reflexivity. }
  split; [reflexivity|].
  split.
  { intros content H. rewrite cleanEmotes_string, replace_emotes_unchanged by assumption.
    reflexivity. }
  repeat split.
Qed.
End Content.

(** The frame of the repository's test of the emote codes. *)
Definition emote_payload : string :=
  Host.text ("{'id':'123','content':'Hola [emote:123:Kappa] mundo [emote:456:PogChamp]',"
             +:+ "'type':'message','created_at':'2024-01-01T00:00:00Z',"
             +:+ "'sender':{'id':456,'username':'testuser','slug':'testuser',"
             +:+ "'identity':{'color':'#ffffff','badges':[]}},'chatroom':{'id':789}}").

Definition emote_frame : string :=
  Host.text ("{'event':'App\\Events\\ChatMessageEvent','data':'{\'id\':\'123\',"
             +:+ "\'content\':\'Hola [emote:123:Kappa] mundo [emote:456:PogChamp]\',"
             +:+ "\'type\':\'message\',\'created_at\':\'2024-01-01T00:00:00Z\',"
             +:+ "\'sender\':{\'id\':456,\'username\':\'testuser\',\'slug\':\'testuser\',"
             +:+ "\'identity\':{\'color\':\'#ffffff\',\'badges\':[]}},"
             +:+ "\'chatroom\':{\'id\':789}}'}").

Definition emote_fields : list (string * value Z) :=
  [("id", VStr "123");
   ("content", VStr "Hola [emote:123:Kappa] mundo [emote:456:PogChamp]");
   ("type", VStr "message");
   ("created_at", VStr "2024-01-01T00:00:00Z");
   ("sender", VObj [("id", VNum 456); ("username", VStr "testuser"); ("slug", VStr "testuser");
                    ("identity", VObj [("color", VStr "#ffffff"); ("badges", VArr [])])]);
   ("chatroom", VObj [("id", VNum 789)])].

Lemma cleanEmotes_replaces_placeholders_witness :
  (exists decoded,
      parseMessage (RT := Host.runtime) emote_frame
      = Ok (Some {| type := ChatMessage; data := decoded |})
      /\ get_opt decoded "content" = VStr "Hola Kappa mundo PogChamp")
  /\ cleanEmotes (RT := Host.runtime) (VStr "Hi [emote:1:Kappa] there") = Ok "Hi Kappa there"
  /\ cleanEmotes (RT := Host.runtime) (VStr "no [emote:x:Kappa] here")
     = Ok "no [emote:x:Kappa] here".
Proof.
  destruct (cleanEmotes_replaces_placeholders (RT := Host.runtime))
    as (_ & Hframe & _ & Hrepl & _ & Hsame & _).
  split; [|split].
  - refine (Hframe emote_frame emote_payload
              (VObj [("event", VStr "App\Events\ChatMessageEvent");
                     ("data", VStr emote_payload)])
              emote_fields _ "Hola Kappa mundo PogChamp" _ _ _ _ _ _ _ _);
      try reflexivity.
    discriminate.
  - refine (Hrepl "Hi " "1" "Kappa" " there" _ _ _).
    + apply has_emote_false. reflexivity.
    + split; [discriminate|reflexivity].
    + split; [discriminate|reflexivity].
  - refine (Hsame "no [emote:x:Kappa] here" _).
    apply has_emote_false. reflexivity.
Defined.

End ContentFacts.

(* ================================================================== *)
(** * The message pipeline *)
(* ================================================================== *)

Module PipelineFacts.
Import Js WebSocketManager MessageParser.

Section Pipeline.
Context {RT : Runtime} {V : Type}.
Variable call : nat -> payload -> state (V := V) -> state (V := V) * result unit.

Lemma extractEventType_total (rawMessage : string) :
  exists r, extractEventType rawMessage = Ok r.
Proof. unfold extractEventType. destruct (extractEventType_try rawMessage); cbn; eauto. Qed.

(** A frame that decodes has the event name extractEventType answers. *)
Lemma extractEventType_of_parsed (rawMessage : string) (p : parsed) :
  parseMessage rawMessage = Ok (Some p) ->
  exists name, extractEventType rawMessage = Ok (Some name)
               /\ assoc name eventTypeMap = Some (type p)
               /\ is_system_frame rawMessage = false.
Proof.
  intros H. apply DecoderFacts.parseMessage_inv in H
    as (Hblank & message & name & eventData & Hjson & Hev & Hne & Hpusher & _ & _ & _ & Hd).
  exists name. split; [|split].
  - unfold extractEventType, extractEventType_try.
    destruct (is_empty rawMessage) eqn:He;
      [apply DecoderFacts.is_blank_empty in He; congruence|].
    rewrite Hblank. cbn [orb]. unfold JSON_parse_text. rewrite Hjson. cbn [bind].
    destruct message as [| | | | | |fields]; try discriminate.
    rewrite DecoderFacts.get_object, Hev. cbn [bind truthy].
    destruct (String.eqb_spec name EmptyString); [contradiction|].
    cbn [negb]. rewrite Hpusher. reflexivity.
  - apply DecoderFacts.dispatch_event_inv in Hd. exact Hd.
  - unfold is_system_frame, JSON_parse_text. rewrite Hjson. cbn [bind].
    destruct message as [| | | | | |fields]; try discriminate.
    rewrite DecoderFacts.get_object, Hev. cbn [bind opt_startsWith].
    unfold is_pusher_event in Hpusher. apply orb_false_iff in Hpusher as [-> ->].
    reflexivity.
Qed.

Lemma isEventFiltered_own (opts : Options) (name : string) (k : KickEventType) :
  assoc name eventTypeMap = Some k ->
  filteredEvents opts <> [] ->
  k ∉ filteredEvents opts ->
  isEventFiltered opts name = true.
Proof.
  intros Hk Hne Hnot. unfold isEventFiltered, eventTypeMap_get. rewrite Hk.
  destruct (filteredEvents opts) as [|a allowed]; [contradiction|].
  rewrite bool_decide_eq_false_2 by exact Hnot. reflexivity.
Qed.

(** What handleMessage publishes after the raw frame. *)
Definition decoded_publish (opts : Options) (rawMessage : string) : list action :=
  if is_system_frame rawMessage then []
  else if match extractEventType rawMessage with
          | Ok (Some name) => isEventFiltered opts name
          | _ => false
          end
       then []
       else match parseMessage rawMessage with
            | Ok (Some p) => [Publish (event_name (type p)) (EventData (data p))]
            | _ => []
            end.

Lemma mbind_run {A B} (m : M (V := V) A) (k : A -> M (V := V) B) (s s1 : state (V := V))
  (a : A) (t1 : list action) :
  m s = (Ok a, s1, t1) ->
  mbind m k s = (fst (fst (k a s1)), snd (fst (k a s1)), t1 ++ snd (k a s1)).
Proof. intros H. unfold mbind. rewrite H. destruct (k a s1) as [[r s2] t2]. reflexivity. Qed.

Lemma this_emit_run (event : string) (arg : payload) (s : state) :
  this_emit call event arg s
  = (Ok (match listeners_of event s with [] => false | _ => true end),
     after (emit call event arg s), [Publish event arg]).
Proof. unfold this_emit. rewrite (EmitterFacts.emit_returned call). reflexivity. Qed.

Lemma handleMessage_trace (rawMessage : string) (s : state) :
  let s1 := after (emit call "rawMessage" (RawFrame rawMessage) s) in
  let opts := options (mgr (fields s1)) in
  fst (fst (handleMessage call rawMessage s)) = Ok tt
  /\ snd (handleMessage call rawMessage s)
     = Publish "rawMessage" (RawFrame rawMessage)
         :: (if enableBuffer opts then [Buffered rawMessage] else [])
         ++ decoded_publish opts rawMessage.
Proof.
  intros s1 opts. unfold handleMessage.
  erewrite mbind_run by apply this_emit_run. fold s1.
  erewrite mbind_run by reflexivity. fold opts. cbn [fst snd].
  set (s2 := snd (fst ((if enableBuffer opts then addToBuffer rawMessage else ret tt) s1))).
  assert (Hbuf : (if enableBuffer opts then addToBuffer rawMessage else ret tt) s1
                 = (Ok tt, s2, if enableBuffer opts then [Buffered rawMessage] else [])).
  { subst s2. destruct (enableBuffer opts); reflexivity. }
  assert (Hopts : options (mgr (fields s2)) = opts).
  { subst s2. destruct (enableBuffer opts); reflexivity. }
  erewrite mbind_run by exact Hbuf. cbn [fst snd].
  unfold decoded_publish.
  destruct (is_system_frame rawMessage).
  { split; reflexivity. }
  destruct (extractEventType_total rawMessage) as [ev Hev].
  erewrite mbind_run by (unfold lift; rewrite Hev; reflexivity).
  erewrite mbind_run by reflexivity. rewrite Hopts, Hev. cbn [fst snd].
  destruct (match ev with Some name => isEventFiltered opts name | None => false end) eqn:Hf.
  - split; reflexivity.
  - cbv beta iota.
    destruct (DecoderFacts.parseMessage_total rawMessage) as [[p|] Hp].
    + erewrite mbind_run by (unfold lift; rewrite Hp; reflexivity). cbv beta iota.
      erewrite mbind_run by apply this_emit_run. rewrite Hp. cbn.
      split; reflexivity.
    + erewrite mbind_run by (unfold lift; rewrite Hp; reflexivity). rewrite Hp. cbn.
      split; reflexivity.
Qed.

(** C2.  handleMessage never throws.  Its first effect is the publish
    of [rawMessage] with the frame as it came; buffering, if enabled,
    follows, and then at most one publish of a decoded event.  When the
    filter list in force is not empty and the frame decodes to a kind
    that is not in it, nothing is published after [rawMessage].  The
    options are read after the listeners of [rawMessage] ran. *)
Theorem handleMessage_raw_first (rawMessage : string) (s : state) :
  let s1 := after (emit call "rawMessage" (RawFrame rawMessage) s) in
  let opts := options (mgr (fields s1)) in
  fst (fst (handleMessage call rawMessage s)) = Ok tt
  /\ snd (handleMessage call rawMessage s)
     = Publish "rawMessage" (RawFrame rawMessage)
         :: (if enableBuffer opts then [Buffered rawMessage] else [])
         ++ decoded_publish opts rawMessage
  /\ (length (decoded_publish opts rawMessage) <= 1)%nat
  /\ (forall a, a ∈ decoded_publish opts rawMessage ->
        exists p, parseMessage rawMessage = Ok (Some p)
                  /\ a = Publish (event_name (type p)) (EventData (data p)))
  /\ (forall p, parseMessage rawMessage = Ok (Some p) ->
        filteredEvents opts <> [] ->
        type p ∉ filteredEvents opts ->
        snd (handleMessage call rawMessage s)
        = Publish "rawMessage" (RawFrame rawMessage)
            :: (if enableBuffer opts then [Buffered rawMessage] else [])).
Proof.
  intros s1 opts.
  destruct (handleMessage_trace rawMessage s) as [Hok Htrace]. fold s1 opts in Htrace.
  split; [exact Hok|]. split; [exact Htrace|]. split; [|split].
  - unfold decoded_publish. destruct (is_system_frame rawMessage); [cbn; lia|].
    destruct (match extractEventType rawMessage with
              | Ok (Some name) => isEventFiltered opts name
              | _ => false
              end); [cbn; lia|].
    destruct (parseMessage rawMessage) as [[p|]|]; cbn; lia.
  - intros a Ha. unfold decoded_publish in Ha.
    destruct (is_system_frame rawMessage); [apply elem_of_nil in Ha; contradiction|].
    destruct (match extractEventType rawMessage with
              | Ok (Some name) => isEventFiltered opts name
              | _ => false
              end); [apply elem_of_nil in Ha; contradiction|].
    destruct (parseMessage rawMessage) as [[p|]|];
      try (apply elem_of_nil in Ha; contradiction).
    apply list_elem_of_singleton in Ha. exists p. split; [reflexivity|exact Ha].
  - intros p Hp Hne Hnot. rewrite Htrace.
    destruct (extractEventType_of_parsed _ _ Hp) as (name & Hname & Hk & Hsys).
    unfold decoded_publish. rewrite Hsys, Hname.
    rewrite (isEventFiltered_own opts name (type p) Hk Hne Hnot).
    rewrite List.app_nil_r. reflexivity.
Qed.
End Pipeline.

(** A controller that lets chat messages through only, with one listener
    on [rawMessage] and one on [UserBanned]. *)
Definition chat_only : Options :=
  {| debug := false; autoReconnect := true; reconnectInterval := 5000;
     enableBuffer := false; bufferSize := 1000; filteredEvents := [ChatMessage] |}.

Definition counting (id : nat) (arg : payload) (s : state (V := nat)) : state * result unit :=
  (on_fields (fun t => This (mgr t) (env t) (S (vars t))) s, Ok tt).

Definition filtered_start : state (V := nat) :=
  on "UserBanned" (Fn 1) (on "rawMessage" (Fn 0) (new_state chat_only 0%nat)).

Lemma handleMessage_raw_first_witness :
  snd (handleMessage counting DecoderFacts.ban_frame filtered_start)
  = [Publish "rawMessage" (RawFrame DecoderFacts.ban_frame)].
Proof.
  refine (proj2 (proj2 (proj2 (proj2
            (handleMessage_raw_first counting DecoderFacts.ban_frame filtered_start))))
            {| type := UserBanned;
               data := VObj [("username", VStr "bob"); ("type", VStr "user_banned")] |} _ _ _).
  - reflexivity.
  - discriminate.
  - intros H. apply list_elem_of_singleton in H. discriminate.
Defined.
End PipelineFacts.

(* ================================================================== *)
(** * The connection controller *)
(* ================================================================== *)

Module ControllerFacts.
Import Js WebSocketManager.
Local Open Scope ctl_scope.

Section Controller.
Context {RT : Runtime} {V : Type}.
Variable call : nat -> payload -> state (V := V) -> state (V := V) * result unit.

(** Listeners that leave the controller and the host alone: they may
    subscribe, unsubscribe and change the variables of the program. *)
Definition quiet : Prop :=
  forall id arg s,
    mgr (fields (fst (call id arg s))) = mgr (fields s)
    /\ env (fields (fst (call id arg s))) = env (fields s).

Lemma off_fields (event : string) (l : listener) (s : state (V := V)) :
  fields (off event l s) = fields s.
Proof.
  unfold off. destruct (events s !! event) as [ls|]; [|reflexivity].
  destruct (set_delete l ls); reflexivity.
Qed.

Lemma invoke_quiet (l : listener) (arg : payload) (s : state) :
  quiet ->
  mgr (fields (fst (invoke call l arg s))) = mgr (fields s)
  /\ env (fields (fst (invoke call l arg s))) = env (fields s).
Proof.
  intros Hq. revert s. induction l as [id|serial event inner IH]; intros s.
  - apply Hq.
  - cbn [invoke]. destruct (IH (off event (OnceWrapper serial event inner) s)) as [-> ->].
    rewrite off_fields. split; reflexivity.
Qed.

Lemma run_listeners_quiet (ls : list listener) (arg : payload) (s : state) :
  quiet ->
  mgr (fields (fst (fst (run_listeners call ls arg s)))) = mgr (fields s)
  /\ env (fields (fst (fst (run_listeners call ls arg s)))) = env (fields s).
Proof.
  intros Hq. revert s. induction ls as [|l rest IH]; intros s; [split; reflexivity|].
  cbn [run_listeners].
  pose proof (invoke_quiet l arg s Hq) as [Hm He].
  destruct (invoke call l arg s) as [s1 how]. cbn [fst] in Hm, He.
  specialize (IH s1).
  destruct how as [[]|e]; cbn [try_catch];
    destruct (run_listeners call rest arg s1) as [[s2 r] log]; cbn [fst] in *;
    destruct IH as [-> ->]; split; assumption.
Qed.

Lemma emit_quiet (event : string) (arg : payload) (s : state) :
  quiet ->
  mgr (fields (after (emit call event arg s))) = mgr (fields s)
  /\ env (fields (after (emit call event arg s))) = env (fields s).
Proof.
  intros Hq. unfold emit.
  destruct (events s !! event) as [[|l ls]|]; try (split; reflexivity).
  pose proof (run_listeners_quiet (l :: ls) arg s Hq) as H.
  destruct (run_listeners call (l :: ls) arg s) as [[s' r] log]. exact H.
Qed.

(** ** Invariants of the controller, one callback at a time *)

Section Hoare.
Variable I : manager -> host -> Prop.
Variable Q : action -> Prop.

Definition holds (s : state (V := V)) : Prop := I (mgr (fields s)) (env (fields s)).

(** From a state where the invariant holds, [m] ends in one where it
    holds, and every effect of [m] satisfies [Q]. *)
Definition safe {A} (m : M (V := V) A) (s : state (V := V)) : Prop :=
  holds s -> holds (snd (fst (m s))) /\ Forall Q (snd (m s)).

Lemma safe_ret {A} (a : A) (s : state) : safe (ret a) s.
Proof. intros H. split; [exact H|constructor]. Qed.

Lemma safe_throw {A} (e : string) (s : state) : safe (throw (A := A) e) s.
Proof. intros H. split; [exact H|constructor]. Qed.

Lemma safe_lift {A} (r : result A) (s : state) : safe (lift r) s.
Proof. intros H. split; [exact H|constructor]. Qed.

Lemma safe_gets {A} (f : manager -> A) (s : state) : safe (gets f) s.
Proof. intros H. split; [exact H|constructor]. Qed.

Lemma safe_get_host {A} (f : host -> A) (s : state) : safe (get_host f) s.
Proof. intros H. split; [exact H|constructor]. Qed.

Lemma safe_tell (a : action) (s : state) : Q a -> safe (tell a) s.
Proof. intros Ha H. split; [exact H|]. repeat constructor. exact Ha. Qed.

Lemma safe_modify (f : manager -> manager) (s : state) :
  (I (mgr (fields s)) (env (fields s)) -> I (f (mgr (fields s))) (env (fields s))) ->
  safe (modify f) s.
Proof. intros Hf H. split; [apply Hf, H|constructor]. Qed.

Lemma safe_modify_host (f : host -> host) (s : state) :
  (I (mgr (fields s)) (env (fields s)) -> I (mgr (fields s)) (f (env (fields s)))) ->
  safe (modify_host f) s.
Proof. intros Hf H. split; [apply Hf, H|constructor]. Qed.

Lemma safe_emit (event : string) (arg : payload) (s : state) :
  quiet -> Q (Publish event arg) -> safe (this_emit call event arg) s.
Proof.
  intros Hq Ha H. unfold this_emit. cbn [fst snd]. split.
  - unfold holds. destruct (emit_quiet event arg s Hq) as [-> ->]. exact H.
  - repeat constructor. exact Ha.
Qed.

Lemma safe_bind {A B} (m : M A) (k : A -> M B) (s : state) :
  safe m s ->
  (forall a s1 t1, holds s -> m s = (Ok a, s1, t1) -> holds s1 -> safe (k a) s1) ->
  safe (mbind m k) s.
Proof.
  intros Hm Hk H. destruct (Hm H) as [H1 Ht1]. unfold mbind.
  destruct (m s) as [[[a|e] s1] t1] eqn:E; cbn [fst snd] in *.
  - destruct (Hk a s1 t1 H eq_refl H1 H1) as [H2 Ht2].
    destruct (k a s1) as [[r s2] t2]. cbn [fst snd] in *.
    split; [exact H2|]. apply Forall_app. split; assumption.
  - split; assumption.
Qed.

Lemma safe_step (i : input) (s : state) :
  safe (callback call i) s ->
  holds s -> holds (fst (step call i s)) /\ Forall Q (snd (step call i s)).
Proof.
  intros Hs H. destruct (Hs H) as [H1 H2]. unfold step.
  destruct (callback call i s) as [[r s'] t]. split; assumption.
Qed.
End Hoare.

Ltac safe_with lemmas tac :=
  repeat first
    [ lemmas
    | apply safe_ret | apply safe_throw | apply safe_lift
    | apply safe_gets | apply safe_get_host
    | apply safe_tell; exact Logic.I
    | apply safe_emit; [assumption|exact Logic.I]
    | apply safe_modify; tac
    | apply safe_modify_host; tac
    | apply safe_bind; [|intros ? ? ? _ _ _]
    | match goal with
      | |- safe _ _ (match ?x with _ => _ end) _ => destruct x
      end ].

Ltac safe_auto tac := safe_with fail tac.

(** *** After a manual disconnect *)

(** The flag is set, the state is [disconnected], no socket is held, no
    timer is pending and no lookup is in flight. *)
Definition stopped (m : manager) (h : host) : Prop :=
  isManualDisconnect m = true /\ connectionState m = disconnected /\ ws m = None
  /\ timers h = [] /\ fetches h = [].

(** An effect that starts or continues a connection attempt. *)
Definition attempt (a : action) : Prop :=
  match a with
  | SetTimeout _ _ | Fetch _ _ | NewWebSocket _ => True
  | _ => False
  end.

Definition no_attempt (a : action) : Prop :=
  match a with
  | SetTimeout _ _ | Fetch _ _ | NewWebSocket _ => False
  | _ => True
  end.

Ltac keep_stopped :=
  let Hm := fresh in let Hs := fresh in let Hw := fresh in
  let Ht := fresh in let Hf := fresh in
  intros (Hm & Hs & Hw & Ht & Hf); unfold stopped; repeat case_match; cbn; rewrite ?Ht;
  repeat split; try assumption; try reflexivity.

Lemma stopped_handleMessage (rawMessage : string) (s : state) :
  quiet -> safe stopped no_attempt (handleMessage call rawMessage) s.
Proof.
  intros Hq. unfold handleMessage, addToBuffer. safe_auto keep_stopped.
Qed.

Lemma stopped_reconnect_if_wanted (s : state) :
  safe stopped no_attempt (reconnect_if_wanted (V := V)) s.
Proof.
  unfold reconnect_if_wanted.
  apply safe_bind; [apply safe_gets|]. intros auto s1 t1 _ _ _.
  apply safe_bind; [apply safe_gets|]. intros manual s2 t2 _ E H.
  unfold gets in E. inversion E; subst. destruct H as (-> & _).
  rewrite andb_false_r. apply safe_ret.
Qed.

Lemma stopped_handleDisconnect (code : Z) (reason : string) (s : state) :
  quiet -> safe stopped no_attempt (handleDisconnect call code reason) s.
Proof.
  intros Hq. unfold handleDisconnect, setConnectionState.
  apply safe_bind; [safe_auto keep_stopped|]. intros ? ? ? _ _ _.
  apply safe_bind; [safe_auto keep_stopped|]. intros ? ? ? _ _ _.
  apply stopped_reconnect_if_wanted.
Qed.

Lemma stopped_subscribeToChannel (s : state) :
  quiet -> safe stopped no_attempt (subscribeToChannel call) s.
Proof.
  intros _. unfold subscribeToChannel.
  apply safe_bind; [apply safe_gets|]. intros current s1 t1 _ E H.
  unfold gets in E. inversion E; subst. destruct H as (_ & _ & -> & _).
  apply safe_ret.
Qed.

Lemma stopped_disconnect (s : state) : safe stopped no_attempt (disconnect (V := V)) s.
Proof.
  unfold disconnect, clearTimeout, socket_close, setConnectionState.
  safe_auto keep_stopped.
Qed.

Lemma take_fetch_none (request : nat) (s : state (V := V)) :
  fetches (env (fields s)) = [] -> take_fetch request s = (Ok None, s, []).
Proof. intros H. unfold take_fetch, mbind, get_host. rewrite H. reflexivity. Qed.

Lemma take_timer_none (id : nat) (s : state (V := V)) :
  timers (env (fields s)) = [] -> take_timer id s = (Ok false, s, []).
Proof. intros H. unfold take_timer, mbind, get_host. rewrite H. reflexivity. Qed.

Lemma safe_known {A} (I : manager -> host -> Prop) (Q : action -> Prop)
      (m : M (V := V) A) (s : state) (r : result A) :
  (holds I s -> m s = (r, s, [])) -> safe I Q m s.
Proof. intros Hm H. rewrite (Hm H). split; [exact H|constructor]. Qed.

Lemma stopped_callback (i : input) (s : state) :
  quiet -> (forall channel, i <> CallConnect channel) ->
  safe stopped no_attempt (callback call i) s.
Proof.
  intros Hq Hi. destruct i as [channel| |request room|request message|socket|socket raw
                               |socket code reason|socket|id]; cbn [callback].
  - exfalso. exact (Hi channel eq_refl).
  - apply stopped_disconnect.
  - apply safe_bind.
    + apply (safe_known _ _ _ _ (Ok None)). intros (_ & _ & _ & _ & Hf). apply take_fetch_none, Hf.
    + intros who s1 t1 (_ & _ & _ & _ & Hf) E _. rewrite (take_fetch_none _ _ Hf) in E.
      inversion E; subst. apply safe_ret.
  - apply safe_bind.
    + apply (safe_known _ _ _ _ (Ok None)). intros (_ & _ & _ & _ & Hf). apply take_fetch_none, Hf.
    + intros who s1 t1 (_ & _ & _ & _ & Hf) E _. rewrite (take_fetch_none _ _ Hf) in E.
      inversion E; subst. apply safe_ret.
  - unfold set_ready.
    safe_with ltac:(apply stopped_subscribeToChannel; assumption) keep_stopped.
  - safe_with ltac:(apply stopped_handleMessage; assumption) keep_stopped.
  - unfold set_ready.
    safe_with ltac:(apply stopped_handleDisconnect; assumption) keep_stopped.
  - safe_auto keep_stopped.
  - apply safe_bind.
    + apply (safe_known _ _ _ _ (Ok false)). intros (_ & _ & _ & Ht & _). apply take_timer_none, Ht.
    + intros pending s1 t1 (_ & _ & _ & Ht & _) E _. rewrite (take_timer_none _ _ Ht) in E.
      inversion E; subst. apply safe_ret.
Qed.

(** No input other than a call of connect starts or continues an
    attempt once the controller is stopped. *)
Lemma stopped_run (inputs : list input) (s : state) :
  quiet ->
  Forall (fun i => forall channel, i <> CallConnect channel) inputs ->
  holds stopped s ->
  holds stopped (fst (run call inputs s)) /\ Forall no_attempt (snd (run call inputs s)).
Proof.
  intros Hq Hin. revert s. induction Hin as [|i rest Hi Hrest IH]; intros s H.
  - split; [exact H|constructor].
  - cbn [run].
    destruct (safe_step _ _ i s (stopped_callback i s Hq Hi) H) as [H1 Ht1].
    destruct (step call i s) as [s1 t1]. cbn [fst snd] in *.
    destruct (IH s1 H1) as [H2 Ht2].
    destruct (run call rest s1) as [s2 t2]. cbn [fst snd] in *.
    split; [exact H2|]. apply Forall_app. split; assumption.
Qed.

(** *** The pending timer *)

(** Every pending timer is the one [reconnectTimer] holds. *)
Definition tracked (m : manager) (h : host) : Prop :=
  forall t, t ∈ timers h -> reconnectTimer m = Some (fst t).

Definition any (a : action) : Prop := True.

Ltac keep_tracked :=
  let H := fresh in
  intros H; unfold tracked in *; repeat case_match; cbn in *; try exact H.

Lemma filter_elem {A} (f : A -> bool) (l : list A) (x : A) :
  x ∈ List.filter f l <-> x ∈ l /\ f x = true.
Proof. rewrite !list_elem_of_In. apply filter_In. Qed.

Lemma tracked_scheduleReconnect (s : state) : safe tracked any (scheduleReconnect (V := V)) s.
Proof.
  intros H. split; [|apply Forall_forall; intros; exact Logic.I].
  destruct s as [ev cl [[w cn ci cs o rt mb md] h v]]. unfold holds, tracked in *. cbn in H.
  destruct rt as [id|]; cbn; intros t Ht.
  - apply elem_of_app in Ht as [Ht|Ht].
    + apply filter_elem in Ht as [Ht Hne]. apply H in Ht. inversion Ht; subst.
      rewrite Nat.eqb_refl in Hne. discriminate.
    + apply list_elem_of_singleton in Ht. subst t. reflexivity.
  - apply elem_of_app in Ht as [Ht|Ht].
    + apply H in Ht. discriminate.
    + apply list_elem_of_singleton in Ht. subst t. reflexivity.
Qed.

Lemma tracked_disconnect (s : state) : safe tracked any (disconnect (V := V)) s.
Proof.
  intros H. split; [|apply Forall_forall; intros; exact Logic.I].
  destruct s as [ev cl [[w cn ci cs o rt mb md] h v]]. unfold holds, tracked in *. cbn in H.
  destruct rt as [id|], w as [sock|]; cbn; intros t Ht; repeat case_match; cbn in Ht;
    try (apply filter_elem in Ht as [Ht Hne]; apply H in Ht; inversion Ht; subst;
         rewrite Nat.eqb_refl in Hne; discriminate);
    try (apply H in Ht; discriminate).
Qed.

Lemma tracked_callback (i : input) (s : state) :
  quiet -> safe tracked any (callback call i) s.
Proof.
  intros Hq. destruct i; cbn [callback];
    unfold connect, performConnection, performConnection_resume, fetch, new_WebSocket,
      take_fetch, take_timer, handleConnectionError, handleDisconnect, reconnect_if_wanted,
      subscribeToChannel, handleMessage, addToBuffer, setConnectionState, set_ready;
    safe_with ltac:(first [apply tracked_scheduleReconnect | apply tracked_disconnect])
              keep_tracked.
  all: intros t Ht; apply filter_elem in Ht as [Ht _]; auto.
Qed.

Lemma tracked_run (inputs : list input) (s : state) :
  quiet -> holds tracked s -> holds tracked (fst (run call inputs s)).
Proof.
  intros Hq. revert s. induction inputs as [|i rest IH]; intros s H; [exact H|].
  cbn [run].
  destruct (safe_step _ _ i s (tracked_callback i s Hq) H) as [H1 _].
  destruct (step call i s) as [s1 t1]. cbn [fst] in H1.
  specialize (IH s1 H1). destruct (run call rest s1) as [s2 t2]. exact IH.
Qed.

Lemma tracked_new (opts : Options) (v : V) : holds tracked (new_state opts v).
Proof. intros t Ht. apply elem_of_nil in Ht. contradiction. Qed.

(** *** disconnect() *)

Lemma filter_none {A} (f : A -> bool) (l : list A) :
  (forall x, x ∈ l -> f x = false) -> List.filter f l = [].
Proof.
  induction l as [|x l IH]; intros H; [reflexivity|]. cbn.
  rewrite (H x) by (left). apply IH. intros y Hy. apply H. right. exact Hy.
Qed.

Lemma disconnect_effects (s : state (V := V)) :
  holds tracked s ->
  fst (fst (disconnect s)) = Ok tt
  /\ isManualDisconnect (mgr (fields (snd (fst (disconnect s))))) = true
  /\ reconnectTimer (mgr (fields (snd (fst (disconnect s))))) = None
  /\ timers (env (fields (snd (fst (disconnect s))))) = []
  /\ fetches (env (fields (snd (fst (disconnect s))))) = fetches (env (fields s))
  /\ ws (mgr (fields (snd (fst (disconnect s))))) = None
  /\ connectionState (mgr (fields (snd (fst (disconnect s))))) = disconnected
  /\ (forall id, reconnectTimer (mgr (fields s)) = Some id ->
        ClearTimeout id ∈ snd (disconnect s))
  /\ (forall socket, ws (mgr (fields s)) = Some socket ->
        CloseSocket socket 1000 "Manual disconnect" ∈ snd (disconnect s)
        /\ (sockets (env (fields s)) !! socket = Some OPEN ->
            sockets (env (fields (snd (fst (disconnect s))))) !! socket = Some CLOSING)).
Proof.
  intros H. destruct s as [ev cl [[w cn ci cs o rt mb md] h v]].
  unfold holds, tracked in H. cbn in H.
  assert (Htimers : forall id, rt = Some id ->
            List.filter (fun t => negb (Nat.eqb (fst t) id)) (timers h) = []).
  { intros id ->. apply filter_none. intros t Ht. apply H in Ht. inversion Ht; subst.
    rewrite Nat.eqb_refl. reflexivity. }
  assert (Hnone : rt = None -> timers h = []).
  { intros ->. destruct (timers h) as [|t ts]; [reflexivity|].
    specialize (H t (list_elem_of_here _ _)). discriminate. }
  destruct rt as [id|], w as [sock|]; cbn;
    rewrite ?(Htimers _ eq_refl), ?(Hnone eq_refl);
    repeat split; try reflexivity;
    try (intros ? [= <-]); try discriminate;
    try (repeat case_match; reflexivity);
    try (apply list_elem_of_In; cbn; tauto).
  all: repeat match goal with
              | E : Some _ = Some _ |- _ => inversion E; subst; clear E
              end.
  all: try (apply list_elem_of_In; cbn; tauto).
  all: try (let Hs := fresh in intros Hs; rewrite Hs; cbn; apply lookup_insert_eq).
  all: repeat case_match; cbn; auto.
Qed.

Lemma reconnect_if_wanted_manual (s : state (V := V)) :
  isManualDisconnect (mgr (fields s)) = true -> reconnect_if_wanted s = (Ok tt, s, []).
Proof.
  intros H. unfold reconnect_if_wanted, mbind, gets. cbn. rewrite H, andb_false_r. reflexivity.
Qed.

Lemma close_when_manual (socket : nat) (code : Z) (reason : string) (s : state) :
  quiet ->
  isManualDisconnect (mgr (fields s)) = true ->
  sockets (env (fields s)) !! socket = Some CLOSING ->
  snd (step call (SocketClose socket code reason) s)
  = [Publish "disconnect" (Closed code reason)].
Proof.
  intros Hq Hm Hs. unfold step, callback.
  erewrite PipelineFacts.mbind_run by reflexivity. rewrite Hs. cbv beta iota.
  erewrite PipelineFacts.mbind_run by reflexivity. unfold handleDisconnect.
  erewrite PipelineFacts.mbind_run by reflexivity.
  erewrite PipelineFacts.mbind_run by apply (PipelineFacts.this_emit_run call).
  rewrite reconnect_if_wanted_manual.
  - reflexivity.
  - cbn [fst snd]. rewrite (proj1 (emit_quiet _ _ _ Hq)). exact Hm.
Qed.

Lemma connect_when_disconnected (channel : string) (s : state) :
  connectionState (mgr (fields s)) = disconnected ->
  isManualDisconnect (mgr (fields (fst (step call (CallConnect channel) s)))) = false
  /\ snd (step call (CallConnect channel) s)
     = [Fetch (S (fetches_made (env (fields s)))) channel].
Proof.
  intros H. destruct s as [ev cl [[w cn ci cs o rt mb md] h v]]. cbn in H. subst cs.
  split; reflexivity.
Qed.

(** What [disconnect()] does stop.  It sets the manual flag,
    cancels the pending reconnect timer, closes the socket it holds with
    code 1000 and leaves the state [disconnected], without starting
    anything.  From then on, with no lookup in flight, no input other
    than a call of [connect] arms a timer, starts a lookup or opens a
    socket, and the flag stays set until the next [connect], which clears
    it and starts a lookup.  The close notification of the socket still
    arrives, and publishes [disconnect].  Listeners are taken not to call into
    the controller. *)
Theorem disconnect_stops_reconnecting (s : state) :
  quiet ->
  holds tracked s ->
  let s' := snd (fst (disconnect s)) in
  fst (fst (disconnect s)) = Ok tt
  /\ isManualDisconnect (mgr (fields s')) = true
  /\ reconnectTimer (mgr (fields s')) = None
  /\ timers (env (fields s')) = []
  /\ ws (mgr (fields s')) = None
  /\ connectionState (mgr (fields s')) = disconnected
  /\ (forall id, reconnectTimer (mgr (fields s)) = Some id ->
        ClearTimeout id ∈ snd (disconnect s))
  /\ (forall socket, ws (mgr (fields s)) = Some socket ->
        CloseSocket socket 1000 "Manual disconnect" ∈ snd (disconnect s))
  /\ Forall no_attempt (snd (disconnect s))
  /\ (fetches (env (fields s)) = [] ->
      forall inputs,
        Forall (fun i => forall channel, i <> CallConnect channel) inputs ->
        Forall no_attempt (snd (run call inputs s'))
        /\ isManualDisconnect (mgr (fields (fst (run call inputs s')))) = true
        /\ forall channel,
             isManualDisconnect
               (mgr (fields (fst (step call (CallConnect channel)
                                       (fst (run call inputs s')))))) = false
             /\ snd (step call (CallConnect channel) (fst (run call inputs s')))
                = [Fetch (S (fetches_made (env (fields (fst (run call inputs s'))))))
                         channel])
  /\ (forall socket code reason,
        ws (mgr (fields s)) = Some socket ->
        sockets (env (fields s)) !! socket = Some OPEN ->
        snd (step call (SocketClose socket code reason) s')
        = [Publish "disconnect" (Closed code reason)])
  /\ (forall channel,
        isManualDisconnect (mgr (fields (fst (step call (CallConnect channel) s')))) = false
        /\ snd (step call (CallConnect channel) s')
           = [Fetch (S (fetches_made (env (fields s')))) channel]).
Proof.
  intros Hq Ht s'.
  destruct (disconnect_effects s Ht)
    as (Hok & Hmanual & Htimer & Htimers & Hfetches & Hws & Hstate & Hclear & Hclose).
  fold s' in Hmanual, Htimer, Htimers, Hfetches, Hws, Hstate, Hclose.
  repeat (split; [assumption|]).
  split; [intros socket Hsocket; apply (Hclose socket Hsocket)|].
  split.
  { apply Forall_forall. intros a Ha.
    clear - Ha.
    destruct s as [ev cl [[w cn ci cs o rt mb md] h v]].
    destruct rt as [id|], w as [sock|]; cbn in Ha;
      repeat match goal with
             | H : _ ∈ _ :: _ |- _ => apply elem_of_cons in H as [->|H]
             end;
      try exact Logic.I; apply elem_of_nil in Ha; contradiction. }
  split.
  { intros Hnofetch inputs Hinputs.
    assert (Hstopped : holds stopped s').
    { repeat split; [exact Hmanual|exact Hstate|exact Hws|exact Htimers|].
      rewrite Hfetches. exact Hnofetch. }
    destruct (stopped_run inputs s' Hq Hinputs Hstopped) as [(Hm & Hs & _) Htrace].
    split; [exact Htrace|]. split; [exact Hm|].
    intros channel. apply connect_when_disconnected, Hs. }
  split.
  { intros socket code reason Hsocket Hopen.
    apply close_when_manual; [exact Hq|exact Hmanual|].
    apply (proj2 (Hclose socket Hsocket)), Hopen. }
  intros channel. apply connect_when_disconnected, Hstate.
Qed.

(** *** The reconnect timer *)

(** scheduleReconnect cancels the timer it holds, moves to
    [reconnecting] and leaves exactly one timer pending, armed with
    [reconnectInterval]. *)
Lemma scheduleReconnect_effects (s : state (V := V)) :
  holds tracked s ->
  let s' := snd (fst (scheduleReconnect s)) in
  let id := S (timers_made (env (fields s))) in
  let delay := reconnectInterval (options (mgr (fields s))) in
  fst (fst (scheduleReconnect s)) = Ok tt
  /\ connectionState (mgr (fields s')) = reconnecting
  /\ timers (env (fields s')) = [(id, delay)]
  /\ reconnectTimer (mgr (fields s')) = Some id
  /\ snd (scheduleReconnect s)
     = match reconnectTimer (mgr (fields s)) with
       | Some old => [ClearTimeout old; SetTimeout id delay]
       | None => [SetTimeout id delay]
       end.
Proof.
  intros H. destruct s as [ev cl [[w cn ci cs o rt mb md] h v]].
  unfold holds, tracked in H. cbn in H.
  destruct rt as [old|]; cbn.
  - rewrite filter_none; [repeat split|].
    intros t Ht. apply H in Ht. inversion Ht; subst. rewrite Nat.eqb_refl. reflexivity.
  - destruct (timers h) as [|t ts]; [repeat split|].
    specialize (H t (list_elem_of_here _ _)). discriminate.
Qed.

(** A close the caller did not ask for, with [autoReconnect] on:
    [disconnect] is published, then one timer is armed with
    [reconnectInterval], whatever the number of earlier attempts. *)
Lemma handleDisconnect_schedules (code : Z) (reason : string) (s : state) :
  quiet ->
  holds tracked s ->
  autoReconnect (options (mgr (fields s))) = true ->
  isManualDisconnect (mgr (fields s)) = false ->
  let s' := snd (fst (handleDisconnect call code reason s)) in
  let id := S (timers_made (env (fields s))) in
  let delay := reconnectInterval (options (mgr (fields s))) in
  connectionState (mgr (fields s')) = reconnecting
  /\ timers (env (fields s')) = [(id, delay)]
  /\ snd (handleDisconnect call code reason s)
     = Publish "disconnect" (Closed code reason)
         :: match reconnectTimer (mgr (fields s)) with
            | Some old => [ClearTimeout old; SetTimeout id delay]
            | None => [SetTimeout id delay]
            end.
Proof.
  intros Hq Ht Hauto Hmanual.
  set (s1 := snd (fst (setConnectionState (V := V) disconnected s))).
  set (s2 := after (emit call "disconnect" (Closed code reason) s1)).
  destruct (emit_quiet "disconnect" (Closed code reason) s1 Hq) as [Hmgr Henv].
  fold s2 in Hmgr, Henv.
  assert (Ht2 : holds tracked s2).
  { unfold holds. rewrite Hmgr, Henv. exact Ht. }
  assert (Hwanted : reconnect_if_wanted s2 = scheduleReconnect s2).
  { unfold reconnect_if_wanted.
    erewrite PipelineFacts.mbind_run by reflexivity.
    erewrite PipelineFacts.mbind_run by reflexivity.
    rewrite Hmgr. cbn [setConnectionState modify on_fields s1 fst snd fields mgr options
                       isManualDisconnect set_connectionState].
    rewrite Hauto, Hmanual. cbn [andb negb].
    destruct (scheduleReconnect s2) as [[r s3] t3]. reflexivity. }
  assert (Hrun : handleDisconnect call code reason s
                 = (fst (fst (scheduleReconnect s2)), snd (fst (scheduleReconnect s2)),
                    Publish "disconnect" (Closed code reason) :: snd (scheduleReconnect s2))).
  { unfold handleDisconnect.
    rewrite (PipelineFacts.mbind_run _ _ s s1 tt [] eq_refl). cbv beta.
    rewrite (PipelineFacts.mbind_run _ _ s1 s2 _ _ (PipelineFacts.this_emit_run call _ _ s1)).
    cbv beta. rewrite Hwanted. reflexivity. }
  destruct (scheduleReconnect_effects s2 Ht2) as (_ & Hstate & Htimers & _ & Htrace).
  rewrite Hrun. cbn [fst snd]. rewrite Htrace, Hstate, Htimers, Henv, Hmgr.
  repeat split.
Qed.

(** The state a failed lookup of the reconnect timer leaves behind. *)
Definition stuck (s : state (V := V)) : Prop :=
  connectionState (mgr (fields s)) = connecting
  /\ timers (env (fields s)) = []
  /\ fetches (env (fields s)) = []
  /\ forall socket, sockets (env (fields s)) !! socket = None
                    \/ sockets (env (fields s)) !! socket = Some CLOSED.

Lemma stuck_step (i : input) (s : state) :
  stuck s -> i <> CallDisconnect -> step call i s = (s, []).
Proof.
  intros (Hstate & Htimers & Hfetches & Hsockets) Hi.
  destruct i as [channel| |request room|request message|socket|socket raw
                 |socket code reason|socket|id]; unfold step, callback.
  - unfold connect, mbind, gets. rewrite Hstate. reflexivity.
  - contradiction.
  - unfold mbind at 1. rewrite (take_fetch_none _ _ Hfetches). reflexivity.
  - unfold mbind at 1. rewrite (take_fetch_none _ _ Hfetches). reflexivity.
  - unfold mbind at 1, get_host. destruct (Hsockets socket) as [-> | ->]; reflexivity.
  - unfold mbind at 1, get_host. destruct (Hsockets socket) as [-> | ->]; reflexivity.
  - unfold mbind at 1, get_host. destruct (Hsockets socket) as [-> | ->]; reflexivity.
  - unfold mbind at 1, get_host. destruct (Hsockets socket) as [-> | ->]; reflexivity.
  - unfold mbind at 1. rewrite (take_timer_none _ _ Htimers). reflexivity.
Qed.

(** *** One timer at a time *)

(** At most one timer is pending, and [reconnectTimer] holds it. *)
Definition single (m : manager) (h : host) : Prop :=
  timers h = [] \/ exists id delay, timers h = [(id, delay)] /\ reconnectTimer m = Some id.

Ltac keep_single :=
  let H := fresh in
  intros H; unfold single in *; repeat case_match; cbn in *; try exact H.

Lemma single_filter (m : manager) (h : host) (id : nat) :
  single m h ->
  List.filter (fun t => negb (Nat.eqb (fst t) id)) (timers h) = []
  \/ List.filter (fun t => negb (Nat.eqb (fst t) id)) (timers h) = timers h.
Proof.
  intros [->|(id' & delay & -> & _)]; [left; reflexivity|]. cbn.
  destruct (negb (id' =? id)%nat); [right|left]; reflexivity.
Qed.

Lemma single_scheduleReconnect (s : state) : safe single any (scheduleReconnect (V := V)) s.
Proof.
  intros H. split; [|apply Forall_forall; intros; exact Logic.I].
  destruct s as [ev cl [[w cn ci cs o rt mb md] h v]]. unfold holds, single in *. cbn in H.
  right. destruct rt as [id|]; cbn.
  - destruct H as [->|(id' & delay & -> & [= ->])]; cbn.
    + eauto.
    + rewrite Nat.eqb_refl. cbn. eauto.
  - destruct H as [->|(id' & delay & _ & [=])]. cbn. eauto.
Qed.

Lemma single_disconnect (s : state) : safe single any (disconnect (V := V)) s.
Proof.
  intros H. split; [|apply Forall_forall; intros; exact Logic.I].
  destruct s as [ev cl [[w cn ci cs o rt mb md] h v]]. unfold holds, single in *. cbn in H.
  left. destruct rt as [id|], w as [sock|]; cbn; repeat case_match; cbn;
    destruct H as [->|(id' & delay & -> & [= <-])]; cbn; rewrite ?Nat.eqb_refl; reflexivity.
Qed.

Lemma single_callback (i : input) (s : state) :
  quiet -> safe single any (callback call i) s.
Proof.
  intros Hq. destruct i; cbn [callback];
    unfold connect, performConnection, performConnection_resume, fetch, new_WebSocket,
      take_fetch, take_timer, handleConnectionError, handleDisconnect, reconnect_if_wanted,
      subscribeToChannel, handleMessage, addToBuffer, setConnectionState, set_ready;
    safe_with ltac:(first [apply single_scheduleReconnect | apply single_disconnect])
              keep_single.
  all: match goal with
       | H : _ \/ _ |- _ =>
           destruct H as [H|(id' & delay & H & Hr)]; rewrite H; cbn;
           [left; reflexivity|]; destruct (negb _); cbn; [right; eauto|left; reflexivity]
       end.
Qed.

Lemma single_run (inputs : list input) (s : state) :
  quiet -> holds single s -> holds single (fst (run call inputs s)).
Proof.
  intros Hq. revert s. induction inputs as [|i rest IH]; intros s H; [exact H|].
  cbn [run].
  destruct (safe_step _ _ i s (single_callback i s Hq) H) as [H1 _].
  destruct (step call i s) as [s1 t1]. cbn [fst] in H1.
  specialize (IH s1 H1). destruct (run call rest s1) as [s2 t2]. exact IH.
Qed.

(** X19.  From a state without a pending timer, as a new manager is,
    whatever the host delivers and the program calls, in whatever order,
    at most one reconnect timer is pending at any time, and it is the one
    [reconnectTimer] holds.  Listeners are taken not to call into the
    controller. *)
Theorem at_most_one_reconnect_timer (inputs : list input) (s : state) :
  quiet ->
  timers (env (fields s)) = [] ->
  let s' := fst (run call inputs s) in
  (length (timers (env (fields s'))) <= 1)%nat
  /\ (forall timer delay,
        (timer, delay) ∈ timers (env (fields s')) ->
        reconnectTimer (mgr (fields s')) = Some timer).
Proof.
  intros Hq Hnone s'.
  assert (H : holds single s') by (apply single_run; [exact Hq|left; exact Hnone]).
  destruct H as [H|(id & delay & H & Hr)]; rewrite H; cbn.
  - split; [lia|]. intros timer d Hin. apply elem_of_nil in Hin. contradiction.
  - split; [lia|]. intros timer d Hin. apply list_elem_of_singleton in Hin.
    inversion Hin; subst. exact Hr.
Qed.

(** *** From connect to ready *)

Lemma reconnect_if_wanted_state (s : state (V := V)) :
  connectionState (mgr (fields (snd (fst (reconnect_if_wanted s)))))
  = connectionState (mgr (fields s))
  \/ connectionState (mgr (fields (snd (fst (reconnect_if_wanted s))))) = reconnecting.
Proof.
  destruct s as [ev cl [[w cn ci cs o rt mb md] h v]].
  unfold reconnect_if_wanted, mbind, gets. cbn.
  destruct (autoReconnect o && negb md); [right|left; reflexivity].
  destruct rt; reflexivity.
Qed.

Lemma handleDisconnect_state (code : Z) (reason : string) (s : state) :
  quiet ->
  connectionState (mgr (fields (snd (fst (handleDisconnect call code reason s)))))
  <> connected.
Proof.
  intros Hq. unfold handleDisconnect.
  set (s1 := snd (fst (setConnectionState (V := V) disconnected s))).
  set (s2 := after (emit call "disconnect" (Closed code reason) s1)).
  rewrite (PipelineFacts.mbind_run _ _ s s1 tt [] eq_refl). cbv beta.
  rewrite (PipelineFacts.mbind_run _ _ s1 s2 _ _ (PipelineFacts.this_emit_run call _ _ s1)).
  cbv beta. cbn [fst snd].
  assert (H2 : connectionState (mgr (fields s2)) = disconnected).
  { unfold s2. rewrite (proj1 (emit_quiet _ _ _ Hq)). reflexivity. }
  destruct (reconnect_if_wanted_state s2) as [H|H]; rewrite H; [rewrite H2|]; discriminate.
Qed.

Lemma run_snoc (inputs : list input) (i : input) (s : state) :
  run call (inputs ++ [i]) s
  = (fst (step call i (fst (run call inputs s))),
     snd (run call inputs s) ++ snd (step call i (fst (run call inputs s)))).
Proof.
  revert s. induction inputs as [|j rest IH]; intros s; cbn [run app fst snd].
  - destruct (step call i s) as [s1 t1]. cbn. rewrite app_nil_r. reflexivity.
  - destruct (step call j s) as [s1 t1]. rewrite IH.
    destruct (run call rest s1) as [s2 t2]. cbn [fst snd].
    rewrite app_assoc. reflexivity.
Qed.

Lemma subscribeToChannel_open (socket : nat) (s : state) :
  ws (mgr (fields s)) = Some socket ->
  sockets (env (fields s)) !! socket = Some OPEN ->
  subscribeToChannel call s
  = (Ok tt,
     after (emit call "ready" (Ready (channelName (mgr (fields s))))
              (snd (fst (setConnectionState (V := V) connected s)))),
     [SendSubscribe socket (channelId (mgr (fields s)));
      Publish "ready" (Ready (channelName (mgr (fields s))))]).
Proof.
  intros Hws Hopen. unfold subscribeToChannel.
  erewrite PipelineFacts.mbind_run by reflexivity. rewrite Hws. cbv beta iota.
  erewrite PipelineFacts.mbind_run by reflexivity. rewrite Hopen. cbv beta iota.
  erewrite PipelineFacts.mbind_run by reflexivity. cbv beta iota.
  erewrite PipelineFacts.mbind_run by reflexivity.
  erewrite PipelineFacts.mbind_run by reflexivity.
  erewrite PipelineFacts.mbind_run by reflexivity.
  erewrite PipelineFacts.mbind_run by apply PipelineFacts.this_emit_run.
  reflexivity.
Qed.

(** The manager and the host of a new controller whose lookup has
    answered [room] and whose socket has opened. *)
Definition ready_manager (opts : Options) (channel : string) (room : Z) : manager :=
  Manager (Some 1%nat) channel room connected opts None [] false.

Definition ready_host : host :=
  Host [] 0 (<[1%nat := OPEN]> (<[1%nat := CONNECTING]> ∅)) 1 [] 1.

(** X20.  On a new manager, connect starts one lookup of the channel;
    when it answers, one socket is opened; when the socket opens, the
    controller subscribes to the chat room the lookup named and publishes
    [ready] with the channel.  Only then is isConnected true; it is false
    again after the socket closes and after disconnect().  Listeners are
    taken not to call into the controller. *)
Theorem connect_reaches_ready (opts : Options) (v : V) (channel : string) (room : Z)
        (s : state) :
  quiet ->
  fields s = This (new_manager opts) new_host v ->
  let looking := fst (run call [CallConnect channel] s) in
  let opening := fst (run call [CallConnect channel; FetchResolved 1 room] s) in
  let opened := fst (run call [CallConnect channel; FetchResolved 1 room; SocketOpen 1] s) in
  snd (run call [CallConnect channel; FetchResolved 1 room; SocketOpen 1] s)
  = [Fetch 1 channel; NewWebSocket 1; SendSubscribe 1 room; Publish "ready" (Ready channel)]
  /\ getConnectionState (mgr (fields looking)) = connecting
  /\ isConnected (mgr (fields looking)) (env (fields looking)) = false
  /\ getConnectionState (mgr (fields opening)) = connecting
  /\ isConnected (mgr (fields opening)) (env (fields opening)) = false
  /\ mgr (fields opened) = ready_manager opts channel room
  /\ env (fields opened) = ready_host
  /\ isConnected (mgr (fields opened)) (env (fields opened)) = true
  /\ getConnectionState (mgr (fields opened)) = connected
  /\ getChannelName (mgr (fields opened)) = channel
  /\ getChannelId (mgr (fields opened)) = room
  /\ (forall code reason,
        isConnected (mgr (fields (fst (step call (SocketClose 1 code reason) opened))))
                    (env (fields (fst (step call (SocketClose 1 code reason) opened))))
        = false)
  /\ isConnected (mgr (fields (fst (step call CallDisconnect opened))))
                 (env (fields (fst (step call CallDisconnect opened))))
     = false.
Proof.
  intros Hq Hf looking opening opened.
  destruct s as [ev cl f]. cbn in Hf. subst f.
  set (s3 := Object ev cl (This (ready_manager opts channel room) ready_host v)).
  assert (Hopen : step call (SocketOpen 1) opening
                  = (after (emit call "ready" (Ready channel) s3),
                     [SendSubscribe 1 room; Publish "ready" (Ready channel)])).
  { unfold step, callback.
    erewrite PipelineFacts.mbind_run by reflexivity.
    change (sockets (env (fields opening)) !! 1%nat) with (Some CONNECTING). cbv beta iota.
    erewrite PipelineFacts.mbind_run by reflexivity.
    rewrite (subscribeToChannel_open 1) by reflexivity. reflexivity. }
  assert (Hrun : run call [CallConnect channel; FetchResolved 1 room; SocketOpen 1]
                     (Object ev cl (This (new_manager opts) new_host v))
                 = (after (emit call "ready" (Ready channel) s3),
                    [Fetch 1 channel; NewWebSocket 1; SendSubscribe 1 room;
                     Publish "ready" (Ready channel)])).
  { rewrite (run_snoc [CallConnect channel; FetchResolved 1 room] (SocketOpen 1)).
    fold opening. rewrite Hopen. reflexivity. }
  assert (Hopened : opened = after (emit call "ready" (Ready channel) s3)).
  { unfold opened. rewrite Hrun. reflexivity. }
  destruct (emit_quiet "ready" (Ready channel) s3 Hq) as [Hmgr Henv].
  rewrite <- Hopened in Hmgr, Henv. cbn in Hmgr, Henv.
  rewrite Hrun. cbn [snd].
  repeat (split; [reflexivity|]).
  split; [exact Hmgr|]. split; [exact Henv|].
  rewrite Hmgr, Henv.
  repeat (split; [reflexivity|]).
  split.
  - intros code reason.
    assert (Hstep : step call (SocketClose 1 code reason) opened
                    = (snd (fst (handleDisconnect call code reason
                                   (snd (fst (set_ready (V := V) 1 CLOSED opened))))),
                       snd (handleDisconnect call code reason
                              (snd (fst (set_ready (V := V) 1 CLOSED opened)))))).
    { unfold step, callback.
      erewrite PipelineFacts.mbind_run by reflexivity. rewrite Henv.
      change (sockets ready_host !! 1%nat) with (Some OPEN). cbv beta iota.
      erewrite PipelineFacts.mbind_run by reflexivity.
      destruct (handleDisconnect call code reason _) as [[r s'] t]. reflexivity. }
    rewrite Hstep. cbn [fst]. unfold isConnected.
    rewrite bool_decide_eq_false_2 by (apply handleDisconnect_state, Hq). reflexivity.
  - destruct opened as [ev' cl' [m' h' v']]. cbn in Hmgr, Henv. subst m' h'. reflexivity.
Qed.

(** *** Closes and failures *)

(** What handleDisconnect and handleConnectionError have in common: the
    state is set, the event is published, and a reconnect is scheduled
    when [autoReconnect] is on and the caller has not disconnected. *)
Definition report (st : ConnectionState) (event : string) (arg : payload) : M (V := V) unit :=
  mbind (setConnectionState st)
        (fun _ => mbind (this_emit call event arg) (fun _ => reconnect_if_wanted)).

Lemma report_run (st : ConnectionState) (event : string) (arg : payload) (s : state) :
  quiet ->
  holds tracked s ->
  let wanted := autoReconnect (options (mgr (fields s)))
                && negb (isManualDisconnect (mgr (fields s))) in
  let id := S (timers_made (env (fields s))) in
  let delay := reconnectInterval (options (mgr (fields s))) in
  fst (fst (report st event arg s)) = Ok tt
  /\ snd (report st event arg s)
     = Publish event arg
         :: (if wanted
             then match reconnectTimer (mgr (fields s)) with
                  | Some old => [ClearTimeout old; SetTimeout id delay]
                  | None => [SetTimeout id delay]
                  end
             else [])
  /\ connectionState (mgr (fields (snd (fst (report st event arg s)))))
     = (if wanted then reconnecting else st)
  /\ timers (env (fields (snd (fst (report st event arg s)))))
     = (if wanted then [(id, delay)] else timers (env (fields s))).
Proof.
  intros Hq Ht wanted id delay.
  set (s1 := snd (fst (setConnectionState (V := V) st s))).
  set (s2 := after (emit call event arg s1)).
  destruct (emit_quiet event arg s1 Hq) as [Hmgr Henv]. fold s2 in Hmgr, Henv.
  assert (Ht2 : holds tracked s2).
  { unfold holds. rewrite Hmgr, Henv. exact Ht. }
  assert (Hif : reconnect_if_wanted s2
                = if wanted then scheduleReconnect s2 else (Ok tt, s2, [])).
  { unfold reconnect_if_wanted.
    erewrite PipelineFacts.mbind_run by reflexivity.
    erewrite PipelineFacts.mbind_run by reflexivity.
    rewrite Hmgr. cbn [setConnectionState modify on_fields s1 fst snd fields mgr options
                       isManualDisconnect set_connectionState].
    fold wanted. destruct wanted; [|reflexivity].
    destruct (scheduleReconnect s2) as [[r s3] t3]. reflexivity. }
  assert (Hrun : report st event arg s
                 = (fst (fst (reconnect_if_wanted s2)), snd (fst (reconnect_if_wanted s2)),
                    Publish event arg :: snd (reconnect_if_wanted s2))).
  { unfold report.
    rewrite (PipelineFacts.mbind_run _ _ s s1 tt [] eq_refl). cbv beta.
    rewrite (PipelineFacts.mbind_run _ _ s1 s2 _ _ (PipelineFacts.this_emit_run call _ _ s1)).
    cbv beta. destruct (reconnect_if_wanted s2) as [[r s3] t3]. reflexivity. }
  rewrite Hrun, Hif. cbn [fst snd].
  destruct (scheduleReconnect_effects s2 Ht2) as (Hok & Hstate & Htimers & _ & Htrace).
  destruct wanted; cbn [fst snd].
  - rewrite Hok, Htrace, Hstate, Htimers, Henv, Hmgr. repeat split.
  - rewrite Hmgr, Henv. repeat split.
Qed.

(** X27.  When a socket that is open closes without disconnect()
    having been called, [disconnect] is published with the code and the
    reason, and then, with [autoReconnect] on, the pending timer is
    cancelled and one timer of [reconnectInterval] is armed, the state
    being [reconnecting]; with [autoReconnect] off nothing is scheduled
    and the state is [disconnected].  Listeners are taken not to call into
    the controller. *)
Theorem unrequested_close_schedules_reconnect (socket : nat) (code : Z) (reason : string)
        (s : state) :
  quiet ->
  holds tracked s ->
  sockets (env (fields s)) !! socket = Some OPEN ->
  isManualDisconnect (mgr (fields s)) = false ->
  let s' := fst (step call (SocketClose socket code reason) s) in
  let id := S (timers_made (env (fields s))) in
  let delay := reconnectInterval (options (mgr (fields s))) in
  let auto := autoReconnect (options (mgr (fields s))) in
  snd (step call (SocketClose socket code reason) s)
  = Publish "disconnect" (Closed code reason)
      :: (if auto
          then match reconnectTimer (mgr (fields s)) with
               | Some old => [ClearTimeout old; SetTimeout id delay]
               | None => [SetTimeout id delay]
               end
          else [])
  /\ connectionState (mgr (fields s')) = (if auto then reconnecting else disconnected)
  /\ timers (env (fields s')) = (if auto then [(id, delay)] else timers (env (fields s)))
  /\ sockets (env (fields s')) !! socket = Some CLOSED.
Proof.
  intros Hq Ht Hopen Hmanual s' id delay auto.
  set (sc := snd (fst (set_ready (V := V) socket CLOSED s))).
  assert (Hstep : step call (SocketClose socket code reason) s
                  = (snd (fst (report disconnected "disconnect" (Closed code reason) sc)),
                     snd (report disconnected "disconnect" (Closed code reason) sc))).
  { unfold step, callback.
    erewrite PipelineFacts.mbind_run by reflexivity. rewrite Hopen. cbv beta iota.
    rewrite (PipelineFacts.mbind_run _ _ s sc tt [] eq_refl). cbv beta.
    change (handleDisconnect call code reason sc)
      with (report disconnected "disconnect" (Closed code reason) sc).
    destruct (report disconnected "disconnect" (Closed code reason) sc) as [[r s3] t3].
    reflexivity. }
  assert (Htc : holds tracked sc) by exact Ht.
  destruct (report_run disconnected "disconnect" (Closed code reason) sc Hq Htc)
    as (_ & Htrace & Hstate & Htimers).
  change (mgr (fields sc)) with (mgr (fields s)) in Htrace, Hstate, Htimers.
  change (timers (env (fields sc))) with (timers (env (fields s))) in Htimers.
  change (timers_made (env (fields sc))) with (timers_made (env (fields s)))
    in Htrace, Htimers.
  rewrite Hmanual, andb_true_r in Htrace, Hstate, Htimers.
  unfold s'. rewrite Hstep. cbn [fst snd].
  split; [exact Htrace|]. split; [exact Hstate|]. split; [exact Htimers|].
  assert (Hsockets : sockets (env (fields
                       (snd (fst (report disconnected "disconnect" (Closed code reason) sc)))))
                     = sockets (env (fields sc))).
  { unfold report.
    rewrite (PipelineFacts.mbind_run _ _ sc _ tt [] eq_refl). cbv beta.
    erewrite PipelineFacts.mbind_run by apply (PipelineFacts.this_emit_run call).
    cbv beta. cbn [fst snd].
    set (s2 := after (emit call "disconnect" (Closed code reason) _)).
    assert (H2 : sockets (env (fields s2)) = sockets (env (fields sc))).
    { unfold s2. rewrite (proj2 (emit_quiet _ _ _ Hq)). reflexivity. }
    rewrite <- H2. destruct s2 as [ev cl [[w cn ci cs o rt mb md] h v]].
    unfold reconnect_if_wanted, mbind, gets. cbn.
    destruct (o.(autoReconnect) && negb md); [|reflexivity]. destruct rt; reflexivity. }
  rewrite Hsockets. unfold sc. cbn. apply lookup_insert_eq.
Qed.

(** X28.  When the lookup of a connect() on a new manager fails,
    [error] is published with what the lookup threw and the promise of
    connect() rejects with it; with [autoReconnect] on a reconnect is
    scheduled all the same, after [reconnectInterval], and the state is
    [reconnecting]; with [autoReconnect] off the state is [error].
    Listeners are taken not to call into the controller. *)
Theorem failed_connect_is_reported (opts : Options) (v : V) (channel message : string)
        (s : state) :
  quiet ->
  fields s = This (new_manager opts) new_host v ->
  let failed := run call [CallConnect channel; FetchRejected 1 message] s in
  snd failed
  = [Fetch 1 channel; Publish "error" (Failure message)]
      ++ (if autoReconnect opts then [SetTimeout 1 (reconnectInterval opts)] else [])
      ++ [ConnectRejected message]
  /\ connectionState (mgr (fields (fst failed)))
     = (if autoReconnect opts then reconnecting else error)
  /\ timers (env (fields (fst failed)))
     = (if autoReconnect opts then [(1%nat, reconnectInterval opts)] else []).
Proof.
  intros Hq Hf failed. destruct s as [ev cl f]. cbn in Hf. subst f.
  set (s1 := fst (run call [CallConnect channel]
                     (Object ev cl (This (new_manager opts) new_host v)))).
  set (s1' := snd (fst (take_fetch (V := V) 1 s1))).
  assert (Ht : holds tracked s1').
  { intros t Hin. apply elem_of_nil in Hin. contradiction. }
  destruct (report_run error "error" (Failure message) s1' Hq Ht)
    as (Hok & Htrace & Hstate & Htimers).
  change (autoReconnect (options (mgr (fields s1')))) with (autoReconnect opts)
    in Htrace, Hstate, Htimers.
  change (isManualDisconnect (mgr (fields s1'))) with false in Htrace, Hstate, Htimers.
  change (reconnectTimer (mgr (fields s1'))) with (@None nat) in Htrace.
  change (reconnectInterval (options (mgr (fields s1')))) with (reconnectInterval opts)
    in Htrace, Htimers.
  change (timers_made (env (fields s1'))) with 0%nat in Htrace, Htimers.
  change (timers (env (fields s1'))) with (@nil (nat * Z)) in Htimers.
  rewrite andb_true_r in Htrace, Hstate, Htimers.
  assert (Hstep : step call (FetchRejected 1 message) s1
                  = (snd (fst (report error "error" (Failure message) s1')),
                     snd (report error "error" (Failure message) s1')
                       ++ [ConnectRejected message])).
  { destruct (report error "error" (Failure message) s1') as [[r s3] t3] eqn:Hr.
    cbn in Hok. subst r. unfold step, callback.
    rewrite (PipelineFacts.mbind_run _ _ s1 s1' (Some ByConnect) [] eq_refl). cbv beta iota.
    change (handleConnectionError call message)
      with (report error "error" (Failure message)).
    rewrite (PipelineFacts.mbind_run _ _ s1' s3 tt t3 Hr). reflexivity. }
  unfold failed. rewrite (run_snoc [CallConnect channel] (FetchRejected 1 message)).
  fold s1. rewrite Hstep. cbn [fst snd]. rewrite Htrace.
  split; [|split; assumption].
  destruct (autoReconnect opts); reflexivity.
Qed.

(** *** Calls that cross a lookup or a timer *)

(** X29.  disconnect() does not stop a lookup that is in flight: when
    it is called on a new manager between connect() and the answer of the
    lookup, nothing is closed or cancelled, and when the lookup answers the
    socket is opened all the same; once it is open the controller
    subscribes, publishes [ready] and is connected, the manual flag still
    set.  Listeners are taken not to call into the controller. *)
Theorem disconnect_during_lookup_still_connects (opts : Options) (v : V)
        (channel : string) (room : Z) (s : state) :
  quiet ->
  fields s = This (new_manager opts) new_host v ->
  let inputs := [CallConnect channel; CallDisconnect; FetchResolved 1 room; SocketOpen 1] in
  let s' := fst (run call inputs s) in
  snd (run call [CallConnect channel; CallDisconnect] s) = [Fetch 1 channel]
  /\ snd (run call inputs s)
     = [Fetch 1 channel; NewWebSocket 1; SendSubscribe 1 room; Publish "ready" (Ready channel)]
  /\ isConnected (mgr (fields s')) (env (fields s')) = true
  /\ isManualDisconnect (mgr (fields s')) = true.
Proof.
  intros Hq Hf inputs s'. destruct s as [ev cl f]. cbn in Hf. subst f.
  set (s0 := Object ev cl (This (new_manager opts) new_host v)).
  set (s3 := Object ev cl
               (This (Manager (Some 1%nat) channel room disconnected opts None [] true)
                     (Host [] 0 (<[1%nat := CONNECTING]> ∅) 1 [] 1) v)).
  set (s4 := Object ev cl
               (This (Manager (Some 1%nat) channel room connected opts None [] true)
                     ready_host v)).
  assert (Hlookup : run call [CallConnect channel; CallDisconnect; FetchResolved 1 room] s0
                    = (s3, [Fetch 1 channel; NewWebSocket 1])) by reflexivity.
  assert (Hopen : step call (SocketOpen 1) s3
                  = (after (emit call "ready" (Ready channel) s4),
                     [SendSubscribe 1 room; Publish "ready" (Ready channel)])).
  { unfold step, callback.
    erewrite PipelineFacts.mbind_run by reflexivity.
    change (sockets (env (fields s3)) !! 1%nat) with (Some CONNECTING). cbv beta iota.
    erewrite PipelineFacts.mbind_run by reflexivity.
    rewrite (subscribeToChannel_open 1) by reflexivity. reflexivity. }
  assert (Hrun : run call inputs s0
                 = (after (emit call "ready" (Ready channel) s4),
                    [Fetch 1 channel; NewWebSocket 1; SendSubscribe 1 room;
                     Publish "ready" (Ready channel)])).
  { unfold inputs.
    rewrite (run_snoc [CallConnect channel; CallDisconnect; FetchResolved 1 room]
                      (SocketOpen 1)).
    rewrite Hlookup. cbn [fst snd]. rewrite Hopen. reflexivity. }
  destruct (emit_quiet "ready" (Ready channel) s4 Hq) as [Hmgr Henv].
  split; [reflexivity|]. fold s0. split; [rewrite Hrun; reflexivity|].
  unfold s'. fold s0. rewrite Hrun. cbn [fst]. rewrite Hmgr, Henv. split; reflexivity.
Qed.

Lemma existsb_elem {A} (f : A -> bool) (l : list A) (x : A) :
  x ∈ l -> f x = true -> existsb f l = true.
Proof.
  intros Hin Hx. apply existsb_exists. exists x. split; [|exact Hx].
  apply list_elem_of_In, Hin.
Qed.

(** X30.  connect() does not cancel a pending reconnect timer.  Called
    while the controller waits to reconnect, it starts a lookup at once
    and leaves the timer pending; when the timer fires, a second lookup of
    the same channel is started, so that two lookups are in flight. *)
Theorem connect_keeps_reconnect_timer (channel : string) (timer : nat) (delay : Z)
        (s : state) :
  connectionState (mgr (fields s)) = reconnecting ->
  (timer, delay) ∈ timers (env (fields s)) ->
  let made := fetches_made (env (fields s)) in
  let s1 := fst (step call (CallConnect channel) s) in
  let s2 := fst (run call [CallConnect channel; TimerFired timer] s) in
  snd (step call (CallConnect channel) s) = [Fetch (S made) channel]
  /\ timers (env (fields s1)) = timers (env (fields s))
  /\ reconnectTimer (mgr (fields s1)) = reconnectTimer (mgr (fields s))
  /\ snd (run call [CallConnect channel; TimerFired timer] s)
     = [Fetch (S made) channel; Fetch (S (S made)) channel]
  /\ fetches (env (fields s2))
     = fetches (env (fields s)) ++ [(S made, ByConnect); (S (S made), ByReconnectTimer)]
  /\ connectionState (mgr (fields s2)) = connecting.
Proof.
  intros Hstate Hin made s1 s2.
  destruct s as [ev cl [[w cn ci cs o rt mb md] h v]]. cbn in Hstate, Hin. subst cs.
  assert (Hpending : existsb (fun t => Nat.eqb (fst t) timer) (timers h) = true).
  { apply (existsb_elem _ _ _ Hin). apply Nat.eqb_refl. }
  unfold s2, s1, made, run, step, callback, connect, performConnection, take_timer, fetch,
    setConnectionState, mbind, gets, get_host, modify, modify_host, tell, ret.
  cbn. rewrite Hpending. cbn. rewrite <- app_assoc. repeat split.
Qed.
End Controller.

(** ** A run of the controller *)

(** One listener, on [disconnect]; it counts its calls. *)
Definition start : state (V := nat) :=
  on "disconnect" (Fn 0) (new_state default_options 0%nat).

Definition connected_state : state (V := nat) :=
  fst (run PipelineFacts.counting
           [CallConnect "chan"; FetchResolved 1 42; SocketOpen 1] start).

Lemma counting_quiet : quiet PipelineFacts.counting.
Proof. intros id arg s. split; reflexivity. Qed.

Lemma connected_tracked : holds tracked connected_state.
Proof.
  apply tracked_run; [exact counting_quiet|].
  intros t Ht. apply elem_of_nil in Ht. contradiction.
Qed.

Lemma disconnect_stops_reconnecting_witness :
  isManualDisconnect (mgr (fields (snd (fst (disconnect connected_state))))) = true
  /\ Forall no_attempt
       (snd (run PipelineFacts.counting
                 [SocketClose 1 1000 "Manual disconnect"; TimerFired 1; SocketError 1]
                 (snd (fst (disconnect connected_state)))))
  /\ snd (step PipelineFacts.counting (SocketClose 1 1000 "Manual disconnect")
               (snd (fst (disconnect connected_state))))
     = [Publish "disconnect" (Closed 1000 "Manual disconnect")].
Proof.
  destruct (disconnect_stops_reconnecting PipelineFacts.counting connected_state
              counting_quiet connected_tracked)
    as (_ & Hmanual & _ & _ & _ & _ & _ & _ & _ & Hrun & Hclose & _).
  split; [exact Hmanual|]. split.
  - apply Hrun; [reflexivity|]. repeat constructor; discriminate.
  - apply Hclose; reflexivity.
Defined.

(** [disconnect()] has returned, no listener has been called,
    [connect] is not called again, and the close notification of the
    socket calls the listener of [disconnect], as the repository's test
    of the disconnection expects. *)
Lemma disconnect_event_after_disconnect :
  vars (fields (snd (fst (disconnect connected_state)))) = 0%nat
  /\ snd (step PipelineFacts.counting (SocketClose 1 1000 "Manual disconnect")
               (snd (fst (disconnect connected_state))))
     = [Publish "disconnect" (Closed 1000 "Manual disconnect")]
  /\ vars (fields (fst (step PipelineFacts.counting (SocketClose 1 1000 "Manual disconnect")
                             (snd (fst (disconnect connected_state)))))) = 1%nat.
Proof. repeat split; reflexivity. Qed.

Definition dropped : state (V := nat) :=
  fst (run PipelineFacts.counting [SocketClose 1 1006 "gone"] connected_state).

(** A program that listens to [ready] too, and calls [disconnect()]
    while the lookup of [connect()] is in flight. *)
Definition watching : state (V := nat) := on "ready" (Fn 1) start.

Definition interrupted : state (V := nat) :=
  fst (run PipelineFacts.counting [CallConnect "chan"; CallDisconnect] watching).

Definition resumed : state (V := nat) :=
  fst (run PipelineFacts.counting
           [FetchResolved 1 42; SocketOpen 1; SocketMessage 1 DecoderFacts.ban_frame]
           interrupted).

(** C4 on the code.  [disconnect()] closes the socket it holds with
    code 1000 and cancels the pending reconnect timer, so that the timer
    never fires.  Called while the channel lookup of [connect()] is in
    flight, it finds neither timer nor socket and stops nothing: the flag
    is set and the state is [disconnected], no listener has been called,
    but the lookup is still pending.  When it answers, without any call
    of [connect], performConnection goes on: the socket is opened, the
    controller subscribes, publishes [ready] to its listener and is
    connected, the manual flag still set, and the frames of the socket
    are published. *)
Theorem disconnect_misses_lookup_in_flight :
  snd (run PipelineFacts.counting [CallDisconnect] connected_state)
  = [CloseSocket 1 1000 "Manual disconnect"]
  /\ snd (run PipelineFacts.counting [CallDisconnect; TimerFired 1] dropped)
     = [ClearTimeout 1; CloseSocket 1 1000 "Manual disconnect"]
  /\ snd (run PipelineFacts.counting [CallConnect "chan"; CallDisconnect] watching)
     = [Fetch 1 "chan"]
  /\ isManualDisconnect (mgr (fields interrupted)) = true
  /\ connectionState (mgr (fields interrupted)) = disconnected
  /\ ws (mgr (fields interrupted)) = None
  /\ timers (env (fields interrupted)) = []
  /\ vars (fields interrupted) = 0%nat
  /\ fetches (env (fields interrupted)) = [(1%nat, ByConnect)]
  /\ snd (run PipelineFacts.counting
               [FetchResolved 1 42; SocketOpen 1; SocketMessage 1 DecoderFacts.ban_frame]
               interrupted)
     = [NewWebSocket 1; SendSubscribe 1 42; Publish "ready" (Ready "chan");
        Publish "rawMessage" (RawFrame DecoderFacts.ban_frame);
        Publish "UserBanned"
                (EventData (VObj [("username", VStr "bob"); ("type", VStr "user_banned")]))]
  /\ vars (fields resumed) = 1%nat
  /\ connectionState (mgr (fields resumed)) = connected
  /\ isConnected (mgr (fields resumed)) (env (fields resumed)) = true
  /\ isManualDisconnect (mgr (fields resumed)) = true.
Proof.
  repeat split; vm_compute; reflexivity.
Qed.

(** What getChannelInfo throws when the lookup answers 503. *)
Definition lookup_failed : string :=
  "Failed to fetch channel info for chan: Error: HTTP 503: Service Unavailable".

Definition failed : state (V := nat) :=
  fst (run PipelineFacts.counting [TimerFired 1; FetchRejected 2 lookup_failed] dropped).

Lemma failed_stuck : stuck failed.
Proof.
  split; [reflexivity|]. split; [reflexivity|]. split; [reflexivity|].
  intros socket.
  assert (E : sockets (env (fields failed)) = <[1%nat := CLOSED]> ∅)
    by (vm_compute; reflexivity).
  rewrite E. destruct (decide (socket = 1%nat)) as [->|Hne].
  - right. apply lookup_insert_eq.
  - left. rewrite lookup_insert_ne by congruence. apply lookup_empty.
Qed.

(** C3 on the code.  A socket that closes on its own schedules one
    reconnect after [reconnectInterval], and the timer starts the connect
    procedure again.  When the socket of that attempt fails, the next
    attempt is scheduled at the same interval.  When the channel lookup of
    that attempt fails, nothing is scheduled: the state stays
    [connecting], no timer and no lookup is pending, and no input but
    [disconnect()] changes anything any more, a call of [connect]
    included.  The same failure under [connect()] does schedule a
    reconnect. *)
Theorem failed_reconnect_lookup_is_not_retried :
  snd (run PipelineFacts.counting [SocketClose 1 1006 "gone"] connected_state)
  = [Publish "disconnect" (Closed 1006 "gone"); SetTimeout 1 5000]
  /\ connectionState (mgr (fields dropped)) = reconnecting
  /\ snd (run PipelineFacts.counting
               [TimerFired 1; FetchResolved 2 42; SocketError 2; SocketClose 2 1006 "gone"]
               dropped)
     = [Fetch 2 "chan"; NewWebSocket 2; Publish "error" (Failure "WebSocket error");
        Publish "disconnect" (Closed 1006 "gone"); ClearTimeout 1; SetTimeout 2 5000]
  /\ snd (run PipelineFacts.counting [TimerFired 1; FetchRejected 2 lookup_failed] dropped)
     = [Fetch 2 "chan"]
  /\ connectionState (mgr (fields failed)) = connecting
  /\ timers (env (fields failed)) = []
  /\ fetches (env (fields failed)) = []
  /\ (forall i, i <> CallDisconnect -> step PipelineFacts.counting i failed = (failed, []))
  /\ snd (run PipelineFacts.counting [CallConnect "chan"; FetchRejected 1 lookup_failed] start)
     = [Fetch 1 "chan"; Publish "error" (Failure lookup_failed);
        SetTimeout 1 5000; ConnectRejected lookup_failed].
Proof.
  split; [reflexivity|]. split; [reflexivity|].
  split; [reflexivity|]. split; [reflexivity|].
  split; [reflexivity|]. split; [reflexivity|].
  split; [reflexivity|].
  split; [|reflexivity].
  intros i Hi. apply stuck_step; [exact failed_stuck|exact Hi].
Qed.

(** A socket that closes twice on its own, the second time after the
    reconnect timer has fired and the lookup has answered. *)
Definition two_drops : list input :=
  [SocketClose 1 1006 "gone"; TimerFired 1; FetchResolved 2 42; SocketOpen 2;
   SocketClose 2 1006 "gone"].

Lemma at_most_one_reconnect_timer_witness :
  (length (timers (env (fields (fst (run PipelineFacts.counting two_drops connected_state)))))
   <= 1)%nat
  /\ timers (env (fields (fst (run PipelineFacts.counting two_drops connected_state))))
     = [(2%nat, 5000)].
Proof.
  split; [|reflexivity].
  apply (at_most_one_reconnect_timer PipelineFacts.counting two_drops connected_state
           counting_quiet eq_refl).
Defined.

Lemma unrequested_close_schedules_reconnect_witness :
  snd (step PipelineFacts.counting (SocketClose 1 1006 "gone") connected_state)
  = [Publish "disconnect" (Closed 1006 "gone"); SetTimeout 1 5000]
  /\ connectionState
       (mgr (fields (fst (step PipelineFacts.counting (SocketClose 1 1006 "gone")
                            connected_state))))
     = reconnecting.
Proof.
  destruct (unrequested_close_schedules_reconnect PipelineFacts.counting 1 1006 "gone"
              connected_state counting_quiet connected_tracked eq_refl eq_refl)
    as (Htrace & Hstate & _).
  split; [exact Htrace|exact Hstate].
Defined.

Lemma failed_connect_is_reported_witness :
  snd (run PipelineFacts.counting [CallConnect "chan"; FetchRejected 1 lookup_failed] start)
  = [Fetch 1 "chan"; Publish "error" (Failure lookup_failed); SetTimeout 1 5000;
     ConnectRejected lookup_failed].
Proof.
  exact (proj1 (failed_connect_is_reported PipelineFacts.counting default_options 0%nat "chan"
                  lookup_failed start counting_quiet eq_refl)).
Defined.

Lemma disconnect_during_lookup_still_connects_witness :
  snd (run PipelineFacts.counting
           [CallConnect "chan"; CallDisconnect; FetchResolved 1 42; SocketOpen 1] start)
  = [Fetch 1 "chan"; NewWebSocket 1; SendSubscribe 1 42; Publish "ready" (Ready "chan")].
Proof.
  exact (proj1 (proj2 (disconnect_during_lookup_still_connects PipelineFacts.counting
                         default_options 0%nat "chan" 42 start counting_quiet eq_refl))).
Defined.

Lemma connect_keeps_reconnect_timer_witness :
  snd (run PipelineFacts.counting [CallConnect "chan"; TimerFired 1] dropped)
  = [Fetch 2 "chan"; Fetch 3 "chan"].
Proof.
  refine (proj1 (proj2 (proj2 (proj2
            (connect_keeps_reconnect_timer PipelineFacts.counting "chan" 1 5000 dropped
               eq_refl _))))).
  apply list_elem_of_singleton. reflexivity.
Defined.

Lemma connect_reaches_ready_witness :
  snd (run PipelineFacts.counting [CallConnect "chan"; FetchResolved 1 42; SocketOpen 1] start)
  = [Fetch 1 "chan"; NewWebSocket 1; SendSubscribe 1 42; Publish "ready" (Ready "chan")]
  /\ isConnected (mgr (fields connected_state)) (env (fields connected_state)) = true.
Proof.
  destruct (connect_reaches_ready PipelineFacts.counting default_options 0%nat "chan" 42 start
              counting_quiet eq_refl)
    as (Htrace & _ & _ & _ & _ & _ & _ & Hconnected & _).
  split; [exact Htrace|exact Hconnected].
Defined.
End ControllerFacts.

(* ================================================================== *)
(** * The registry of the event dispatcher *)
(* ================================================================== *)

Module RegistryFacts.
Import Js EventEmitter.

Section Registry.
Context {U Arg : Type}.
Variable call : nat -> Arg -> object U -> object U * result unit.

(** ** Lists as sets *)

Lemma set_add_nonempty (l : listener) (ls : list listener) : set_add l ls <> [].
Proof.
  unfold set_add. case_bool_decide as Hin.
  - intros ->. apply elem_of_nil in Hin. contradiction.
  - destruct ls; discriminate.
Qed.

Lemma set_add_mono (l x : listener) (ls : list listener) : x ∈ ls -> x ∈ set_add l ls.
Proof.
  intros H. unfold set_add. case_bool_decide; [exact H|].
  apply elem_of_app. left. exact H.
Qed.

Lemma set_delete_elem (l x : listener) (ls : list listener) :
  x ∈ set_delete l ls <-> x ∈ ls /\ x <> l.
Proof.
  unfold set_delete. rewrite !list_elem_of_In, filter_In.
  split; intros [H1 H2]; (split; [exact H1|]).
  - apply negb_true_iff, bool_decide_eq_false in H2. exact H2.
  - apply negb_true_iff, bool_decide_eq_false. exact H2.
Qed.

Lemma set_delete_NoDup (l : listener) (ls : list listener) :
  NoDup ls -> NoDup (set_delete l ls).
Proof. intros H. apply NoDup_ListNoDup, List.NoDup_filter, NoDup_ListNoDup, H. Qed.

Lemma set_delete_absent (l : listener) (ls : list listener) :
  l ∉ ls -> set_delete l ls = ls.
Proof.
  induction ls as [|x ls IH]; intros H; [reflexivity|].
  apply not_elem_of_cons in H as [Hne Hin]. unfold set_delete. cbn.
  rewrite bool_decide_eq_false_2 by congruence. cbn. f_equal. apply IH, Hin.
Qed.

Lemma set_delete_app (l : listener) (xs ys : list listener) :
  set_delete l (xs ++ ys) = set_delete l xs ++ set_delete l ys.
Proof. apply List.filter_app. Qed.

Lemma set_delete_add (l : listener) (ls : list listener) :
  l ∉ ls -> set_delete l (set_add l ls) = ls.
Proof.
  intros H. unfold set_add. rewrite bool_decide_eq_false_2 by exact H.
  rewrite set_delete_app, (set_delete_absent _ _ H). unfold set_delete. cbn.
  rewrite bool_decide_eq_true_2 by reflexivity. cbn. apply app_nil_r.
Qed.

(** Filling a set from an array: the elements already there stay where
    they are, the new ones follow in the order of the array. *)
Lemma fill_spec (array set : list listener) :
  NoDup array ->
  fold_left (fun set l' => set_add l' set) array set
  = set ++ List.filter (fun l' => negb (bool_decide (l' ∈ set))) array.
Proof.
  revert set. induction array as [|x array IH]; intros set Hnd.
  - cbn. rewrite app_nil_r. reflexivity.
  - apply NoDup_cons in Hnd as [Hx Hnd]. cbn [fold_left List.filter].
    rewrite (IH _ Hnd). unfold set_add. case_bool_decide as Hin; cbn [negb].
    + reflexivity.
    + rewrite <- app_assoc. cbn [app]. do 2 f_equal.
      apply List.filter_ext_in. intros y Hy. f_equal.
      apply bool_decide_ext. rewrite elem_of_app, list_elem_of_singleton.
      split; [|tauto]. intros [H|Heq]; [exact H|]. subst y.
      apply list_elem_of_In in Hy. contradiction.
Qed.

(** ** Reading the registry *)

Lemma listeners_of_with (m : gmap string (list listener)) (event : string) (o : object U) :
  listeners_of event (with_events m o) = default [] (m !! event).
Proof. reflexivity. Qed.

Lemma listeners_of_on_ne (event other : string) (l : listener) (o : object U) :
  event <> other -> listeners_of other (on event l o) = listeners_of other o.
Proof.
  intros H. unfold on. rewrite listeners_of_with, lookup_insert_ne by exact H. reflexivity.
Qed.

Lemma listeners_of_off (event : string) (l : listener) (o : object U) :
  listeners_of event (off event l o) = set_delete l (listeners_of event o).
Proof.
  unfold off, listeners_of at 2. destruct (events o !! event) as [ls|] eqn:E.
  - cbn [from_option id]. destruct (set_delete l ls) as [|x xs] eqn:D.
    + rewrite listeners_of_with, lookup_delete_eq. reflexivity.
    + rewrite listeners_of_with, lookup_insert_eq. reflexivity.
  - unfold listeners_of. rewrite E. reflexivity.
Qed.

Lemma listeners_of_off_ne (event other : string) (l : listener) (o : object U) :
  event <> other -> listeners_of other (off event l o) = listeners_of other o.
Proof.
  intros H. unfold off. destruct (events o !! event) as [ls|]; [|reflexivity].
  destruct (set_delete l ls).
  - rewrite listeners_of_with, lookup_delete_ne by exact H. reflexivity.
  - rewrite listeners_of_with, lookup_insert_ne by exact H. reflexivity.
Qed.

Lemma listeners_of_prependListener (event : string) (l : listener) (o : object U) :
  NoDup (listeners_of event o) ->
  listeners_of event (prependListener event l o) = l :: set_delete l (listeners_of event o).
Proof.
  intros Hnd. unfold prependListener. rewrite listeners_of_with, lookup_insert_eq.
  cbn [from_option id]. fold (listeners_of event o). rewrite (fill_spec _ _ Hnd).
  assert (Hone : set_add l [] = [l]).
  { unfold set_add. rewrite bool_decide_eq_false_2 by apply not_elem_of_nil. reflexivity. }
  rewrite Hone. cbn [app]. f_equal. unfold set_delete. apply List.filter_ext. intros x. f_equal. apply bool_decide_ext.
  rewrite list_elem_of_singleton. reflexivity.
Qed.

Lemma listeners_of_prependListener_ne (event other : string) (l : listener) (o : object U) :
  event <> other -> listeners_of other (prependListener event l o) = listeners_of other o.
Proof.
  intros H. unfold prependListener.
  rewrite listeners_of_with, lookup_insert_ne by exact H. reflexivity.
Qed.

Lemma eventNames_elem (event : string) (o : object U) :
  event ∈ eventNames o <-> exists ls, events o !! event = Some ls.
Proof.
  unfold eventNames. rewrite list_elem_of_fmap. split.
  - intros [[e ls] [-> H]]. apply elem_of_map_to_list in H. exists ls. exact H.
  - intros [ls H]. exists (event, ls). split; [reflexivity|].
    apply elem_of_map_to_list. exact H.
Qed.

(** ** What the registry keeps *)

(** No event is kept with an empty set, and no set holds a listener
    twice. *)
Definition kept (o : object U) : Prop :=
  forall event ls, events o !! event = Some ls -> ls <> [] /\ NoDup ls.

Lemma kept_listeners (event : string) (o : object U) : kept o -> NoDup (listeners_of event o).
Proof.
  intros H. unfold listeners_of. destruct (events o !! event) as [ls|] eqn:E.
  - apply (H _ _ E).
  - apply NoDup_nil_2.
Qed.

Lemma kept_insert (event : string) (ls : list listener) (o : object U) :
  kept o -> ls <> [] -> NoDup ls -> kept (with_events (<[event := ls]> (events o)) o).
Proof.
  intros H Hne Hnd e ls'. cbn. destruct (decide (event = e)) as [->|Hdiff].
  - rewrite lookup_insert_eq. intros [= <-]. split; assumption.
  - rewrite lookup_insert_ne by exact Hdiff. apply H.
Qed.

Lemma kept_delete (event : string) (o : object U) :
  kept o -> kept (with_events (delete event (events o)) o).
Proof.
  intros H e ls. cbn. destruct (decide (event = e)) as [->|Hdiff].
  - rewrite lookup_delete_eq. discriminate.
  - rewrite lookup_delete_ne by exact Hdiff. apply H.
Qed.

Lemma kept_closures (n : nat) (o : object U) :
  kept o -> kept (Object (events o) n (fields o)).
Proof. intros H. exact H. Qed.

Lemma kept_on (event : string) (l : listener) (o : object U) : kept o -> kept (on event l o).
Proof.
  intros H. unfold on. apply kept_insert; [exact H|apply set_add_nonempty|].
  apply EmitterFacts.set_add_NoDup. apply (kept_listeners event o H).
Qed.

Lemma kept_off (event : string) (l : listener) (o : object U) : kept o -> kept (off event l o).
Proof.
  intros H. unfold off. destruct (events o !! event) as [ls|] eqn:E; [|exact H].
  destruct (set_delete l ls) as [|x xs] eqn:D.
  - apply kept_delete, H.
  - apply kept_insert; [exact H|discriminate|].
    rewrite <- D. apply set_delete_NoDup. apply (H _ _ E).
Qed.

Lemma kept_once (event : string) (l : listener) (o : object U) : kept o -> kept (once event l o).
Proof. intros H. unfold once. apply kept_on, kept_closures, H. Qed.

Lemma kept_removeAllListeners (event : option string) (o : object U) :
  kept o -> kept (removeAllListeners event o).
Proof.
  intros H. unfold removeAllListeners.
  assert (Hall : kept (with_events ∅ o)).
  { intros e ls. cbn. rewrite lookup_empty. discriminate. }
  destruct event as [name|]; [|exact Hall].
  destruct (String.eqb name EmptyString); [exact Hall|]. apply kept_delete, H.
Qed.

Lemma kept_prependListener (event : string) (l : listener) (o : object U) :
  kept o -> kept (prependListener event l o).
Proof.
  intros H. pose proof (kept_listeners event o H) as Hnd.
  pose proof (listeners_of_prependListener event l o Hnd) as Hls.
  unfold prependListener in *. rewrite listeners_of_with, lookup_insert_eq in Hls.
  cbn [from_option id] in Hls. apply kept_insert; [exact H| |]; rewrite Hls.
  - discriminate.
  - apply NoDup_cons. split.
    + intros Hin. apply set_delete_elem in Hin as [_ Hne]. congruence.
    + apply set_delete_NoDup, Hnd.
Qed.

Lemma kept_prependOnceListener (event : string) (l : listener) (o : object U) :
  kept o -> kept (prependOnceListener event l o).
Proof. intros H. unfold prependOnceListener. apply kept_prependListener, kept_closures, H. Qed.

Section Calls.
Hypothesis call_kept : forall id arg o, kept o -> kept (fst (call id arg o)).

Lemma kept_invoke (l : listener) (arg : Arg) (o : object U) :
  kept o -> kept (fst (invoke call l arg o)).
Proof.
  revert o. induction l as [id|serial event inner IH]; intros o H; cbn [invoke].
  - apply call_kept, H.
  - apply IH, kept_off, H.
Qed.

Lemma kept_run_listeners (ls : list listener) (arg : Arg) (o : object U) :
  kept o -> kept (fst (fst (run_listeners call ls arg o))).
Proof.
  revert o. induction ls as [|l rest IH]; intros o H; [exact H|].
  cbn [run_listeners]. pose proof (kept_invoke l arg o H) as H1.
  destruct (invoke call l arg o) as [o1 how]. cbn [fst] in H1.
  destruct (try_catch how (fun _ => Ok tt)); [|exact H1].
  specialize (IH o1 H1). destruct (run_listeners call rest arg o1) as [[o2 r] log].
  exact IH.
Qed.

Lemma kept_emit (event : string) (arg : Arg) (o : object U) :
  kept o -> kept (after (emit call event arg o)).
Proof.
  intros H. unfold emit. destruct (events o !! event) as [[|l ls]|]; try exact H.
  pose proof (kept_run_listeners (l :: ls) arg o H) as H1.
  destruct (run_listeners call (l :: ls) arg o) as [[o' r] log]. exact H1.
Qed.
End Calls.

(** ** A program that uses the dispatcher *)

(** What a program does with an emitter, one call at a time. *)
Inductive method : Type :=
| CallOn (event : string) (l : listener)
| CallOnce (event : string) (l : listener)
| CallOff (event : string) (l : listener)
| CallRemoveAllListeners (event : option string)
| CallPrependListener (event : string) (l : listener)
| CallPrependOnceListener (event : string) (l : listener)
| CallEmit (event : string) (arg : Arg).

Definition perform (o : object U) (m : method) : object U :=
  match m with
  | CallOn event l => on event l o
  | CallOnce event l => once event l o
  | CallOff event l => off event l o
  | CallRemoveAllListeners event => removeAllListeners event o
  | CallPrependListener event l => prependListener event l o
  | CallPrependOnceListener event l => prependOnceListener event l o
  | CallEmit event arg => after (emit call event arg o)
  end.

Lemma kept_perform (m : method) (o : object U) :
  (forall id arg o, kept o -> kept (fst (call id arg o))) ->
  kept o -> kept (perform o m).
Proof.
  intros Hcall H. destruct m; cbn [perform].
  - apply kept_on, H.
  - apply kept_once, H.
  - apply kept_off, H.
  - apply kept_removeAllListeners, H.
  - apply kept_prependListener, H.
  - apply kept_prependOnceListener, H.
  - apply kept_emit; assumption.
Qed.

Lemma kept_new (u : U) : kept (new_emitter u).
Proof. intros e ls. cbn. rewrite lookup_empty. discriminate. Qed.

(** X1.  Whatever a program calls on a new emitter, in whatever order,
    eventNames lists exactly the events that have a listener, each once,
    and no event holds a listener twice.  The listeners are taken to
    reach the registry through the methods only. *)
Theorem eventNames_are_events_with_listeners (u : U) (program : list method) (event : string) :
  (forall id arg o, kept o -> kept (fst (call id arg o))) ->
  let o := fold_left perform program (new_emitter u) in
  (event ∈ eventNames o <-> (0 < listenerCount event o)%nat)
  /\ NoDup (eventNames o)
  /\ NoDup (listeners_of event o).
Proof.
  intros Hcall o.
  assert (H : kept o).
  { subst o. generalize (kept_new u). generalize (new_emitter u).
    induction program as [|m rest IH]; intros o0 H0; [exact H0|].
    cbn [fold_left]. apply IH, kept_perform; assumption. }
  split; [|split].
  - rewrite eventNames_elem. unfold listenerCount.
    destruct (events o !! event) as [ls|] eqn:E.
    + destruct (H _ _ E) as [Hne _]. split; [|eauto].
      intros _. destruct ls; [contradiction|cbn; lia].
    + split; [intros [ls Hls]; discriminate|lia].
  - apply NoDup_fst_map_to_list.
  - apply kept_listeners, H.
Qed.

(** X2.  [off] undoes [on]: registering a listener that was not
    registered for the event and removing it again gives the emitter back
    as it was, the entry of the event included. *)
Theorem off_undoes_on (event : string) (l : listener) (o : object U) :
  kept o ->
  l ∉ listeners_of event o ->
  off event l (on event l o) = o
  /\ listeners_of event (on event l o) = listeners_of event o ++ [l].
Proof.
  intros H Hl. split.
  - unfold off, on at 1. cbn [events with_events]. rewrite lookup_insert_eq.
    fold (listeners_of event o). rewrite (set_delete_add _ _ Hl).
    destruct o as [ev cl u]. unfold listeners_of, on, with_events in *. cbn in *.
    destruct (ev !! event) as [ls|] eqn:E; cbn [from_option id].
    + destruct (H _ _ E) as [Hne _]. destruct ls as [|x xs]; [contradiction|].
      rewrite insert_insert_eq, insert_id by exact E. reflexivity.
    + rewrite delete_insert_id by exact E. reflexivity.
  - rewrite EmitterFacts.listeners_of_on. unfold set_add.
    rewrite bool_decide_eq_false_2 by exact Hl. reflexivity.
Qed.

(** X3.  prependListener puts the listener first and leaves the others
    in their order; a listener that was registered already is moved to
    the front, not registered twice; the next emit calls it first. *)
Theorem prependListener_goes_first (event : string) (l : listener) (arg : Arg) (o : object U) :
  NoDup (listeners_of event o) ->
  listeners_of event (prependListener event l o) = l :: set_delete l (listeners_of event o)
  /\ List.map fst (calls (emit call event arg (prependListener event l o)))
     = l :: set_delete l (listeners_of event o)
  /\ listenerCount event (prependListener event l o)
     = (if bool_decide (l ∈ listeners_of event o) then listenerCount event o
        else S (listenerCount event o))
  /\ (forall other, other <> event ->
        listeners_of other (prependListener event l o) = listeners_of other o).
Proof.
  intros Hnd. pose proof (listeners_of_prependListener event l o Hnd) as Hls.
  split; [exact Hls|]. split; [rewrite EmitterFacts.emit_calls; exact Hls|]. split.
  - rewrite !EmitterFacts.listenerCount_length, Hls. cbn [length].
    case_bool_decide as Hin.
    + clear Hls. induction (listeners_of event o) as [|x ls IH]; [inversion Hin|].
      apply NoDup_cons in Hnd as [Hx Hnd]. unfold set_delete in *. cbn.
      destruct (decide (x = l)) as [->|Hne].
      * rewrite bool_decide_eq_true_2 by reflexivity. cbn.
        fold (set_delete l ls). rewrite (set_delete_absent _ _ Hx). reflexivity.
      * rewrite bool_decide_eq_false_2 by exact Hne. cbn. f_equal.
        apply IH; [exact Hnd|]. apply elem_of_cons in Hin as [->|Hin]; [contradiction|exact Hin].
    + rewrite (set_delete_absent _ _ Hin). reflexivity.
  - intros other Hne. apply listeners_of_prependListener_ne. congruence.
Qed.

(** ** Closures of [once] *)

(** The closures in the registry were created before: their number is
    below the counter. *)
Definition fresh (o : object U) : Prop :=
  forall e ls serial event inner,
    events o !! e = Some ls -> OnceWrapper serial event inner ∈ ls -> (serial < closures o)%nat.

Lemma fresh_new (u : U) : fresh (new_emitter u).
Proof. intros e ls serial event inner. cbn. rewrite lookup_empty. discriminate. Qed.

Lemma fresh_absent (event : string) (l : listener) (o : object U) :
  fresh o -> OnceWrapper (closures o) event l ∉ listeners_of event o.
Proof.
  intros H Hin. unfold listeners_of in Hin.
  destruct (events o !! event) as [ls|] eqn:E; [|apply elem_of_nil in Hin; contradiction].
  specialize (H _ _ _ _ _ E Hin). lia.
Qed.

Lemma fresh_on (event : string) (f : nat) (o : object U) : fresh o -> fresh (on event (Fn f) o).
Proof.
  intros H e ls serial ev inner. unfold on. cbn.
  destruct (decide (event = e)) as [->|Hne].
  - rewrite lookup_insert_eq. intros [= <-] Hin. unfold set_add in Hin.
    destruct (events o !! e) as [ls|] eqn:E; cbn [from_option id] in Hin.
    + case_bool_decide; [exact (H _ _ _ _ _ E Hin)|].
      apply elem_of_app in Hin as [Hin|Hin]; [exact (H _ _ _ _ _ E Hin)|].
      apply list_elem_of_singleton in Hin. discriminate.
    + case_bool_decide as Hn; [apply elem_of_nil in Hn; contradiction|].
      apply list_elem_of_singleton in Hin. discriminate.
  - rewrite lookup_insert_ne by exact Hne. apply H.
Qed.

Lemma fresh_once (event : string) (l : listener) (o : object U) : fresh o -> fresh (once event l o).
Proof.
  intros H e ls serial ev inner. unfold once, on. cbn.
  destruct (decide (event = e)) as [->|Hne].
  - rewrite lookup_insert_eq. intros [= <-] Hin. unfold set_add in Hin.
    assert (Hold : forall x : unit, OnceWrapper serial ev inner ∈ default [] (events o !! e) ->
                                    (serial < S (closures o))%nat).
    { intros _ Hx. destruct (events o !! e) as [ls|] eqn:E; cbn [from_option id] in Hx.
      - specialize (H _ _ _ _ _ E Hx). lia.
      - apply elem_of_nil in Hx. contradiction. }
    case_bool_decide; [apply (Hold tt Hin)|].
    apply elem_of_app in Hin as [Hin|Hin]; [apply (Hold tt Hin)|].
    apply list_elem_of_singleton in Hin. inversion Hin; subst. lia.
  - rewrite lookup_insert_ne by exact Hne. intros E Hin. specialize (H _ _ _ _ _ E Hin). lia.
Qed.

Lemma listeners_of_once (event : string) (l : listener) (o : object U) :
  fresh o ->
  listeners_of event (once event l o) = listeners_of event o ++ [OnceWrapper (closures o) event l].
Proof.
  intros H. unfold once. rewrite EmitterFacts.listeners_of_on.
  change (listeners_of event (Object (events o) (S (closures o)) (fields o)))
    with (listeners_of event o).
  unfold set_add. rewrite bool_decide_eq_false_2 by apply fresh_absent, H. reflexivity.
Qed.

(** X4.  [once] registers a new closure at every call: the same
    function passed twice is registered twice, where [on] would register
    it once, and the next emit calls both closures. *)
Theorem once_registers_every_time (event : string) (l : listener) (arg : Arg) (o : object U) :
  fresh o ->
  let first := OnceWrapper (closures o) event l in
  let second := OnceWrapper (S (closures o)) event l in
  listeners_of event (once event l (once event l o)) = listeners_of event o ++ [first; second]
  /\ listenerCount event (once event l (once event l o)) = S (S (listenerCount event o))
  /\ List.map fst (calls (emit call event arg (once event l (once event l o))))
     = listeners_of event o ++ [first; second].
Proof.
  intros H first second.
  assert (Hls : listeners_of event (once event l (once event l o))
                = listeners_of event o ++ [first; second]).
  { rewrite (listeners_of_once _ _ _ (fresh_once event l o H)), (listeners_of_once _ _ _ H).
    rewrite <- app_assoc. reflexivity. }
  split; [exact Hls|]. split.
  - rewrite !EmitterFacts.listenerCount_length, Hls, length_app. cbn. lia.
  - rewrite EmitterFacts.emit_calls. exact Hls.
Qed.

(** ** Listeners that leave the registry alone *)

Section Calm.
Hypothesis calm : forall id arg o, events (fst (call id arg o)) = events o.

Lemma off_shrinks (event e : string) (l x : listener) (o : object U) :
  x ∈ listeners_of e (off event l o) -> x ∈ listeners_of e o.
Proof.
  destruct (decide (event = e)) as [->|Hne].
  - rewrite listeners_of_off, set_delete_elem. tauto.
  - rewrite listeners_of_off_ne by exact Hne. tauto.
Qed.

Lemma off_keeps (event e : string) (l x : listener) (o : object U) :
  x <> l -> x ∈ listeners_of e o -> x ∈ listeners_of e (off event l o).
Proof.
  intros Hx. destruct (decide (event = e)) as [->|Hne].
  - rewrite listeners_of_off, set_delete_elem. tauto.
  - rewrite listeners_of_off_ne by exact Hne. tauto.
Qed.

Lemma invoke_shrinks (l x : listener) (e : string) (arg : Arg) (o : object U) :
  x ∈ listeners_of e (fst (invoke call l arg o)) -> x ∈ listeners_of e o.
Proof.
  revert o. induction l as [id|serial event inner IH]; intros o; cbn [invoke].
  - unfold listeners_of. rewrite calm. tauto.
  - intros H. apply IH in H. apply off_shrinks in H. exact H.
Qed.

Lemma invoke_keeps (l : listener) (id : nat) (e : string) (arg : Arg) (o : object U) :
  Fn id ∈ listeners_of e o -> Fn id ∈ listeners_of e (fst (invoke call l arg o)).
Proof.
  revert o. induction l as [id'|serial event inner IH]; intros o; cbn [invoke].
  - unfold listeners_of. rewrite calm. tauto.
  - intros H. apply IH, off_keeps; [discriminate|exact H].
Qed.

Lemma invoke_removes (serial : nat) (event : string) (inner : listener) (arg : Arg)
      (o : object U) :
  OnceWrapper serial event inner
    ∉ listeners_of event (fst (invoke call (OnceWrapper serial event inner) arg o)).
Proof.
  cbn [invoke]. intros H. apply invoke_shrinks in H.
  rewrite listeners_of_off in H. apply set_delete_elem in H as [_ H]. congruence.
Qed.

Lemma run_listeners_shrinks (ls : list listener) (x : listener) (e : string) (arg : Arg)
      (o : object U) :
  x ∈ listeners_of e (fst (fst (run_listeners call ls arg o))) -> x ∈ listeners_of e o.
Proof.
  revert o. induction ls as [|l rest IH]; intros o; [tauto|].
  cbn [run_listeners]. pose proof (invoke_shrinks l x e arg o) as H1.
  destruct (invoke call l arg o) as [o1 how]. cbn [fst] in H1.
  destruct (try_catch how (fun _ => Ok tt)); [|exact H1].
  specialize (IH o1). destruct (run_listeners call rest arg o1) as [[o2 r] log].
  cbn [fst] in *. tauto.
Qed.

Lemma run_listeners_keeps (ls : list listener) (id : nat) (e : string) (arg : Arg)
      (o : object U) :
  Fn id ∈ listeners_of e o ->
  Fn id ∈ listeners_of e (fst (fst (run_listeners call ls arg o))).
Proof.
  revert o. induction ls as [|l rest IH]; intros o; [tauto|].
  cbn [run_listeners]. pose proof (invoke_keeps l id e arg o) as H1.
  destruct (invoke call l arg o) as [o1 how]. cbn [fst] in H1.
  destruct (try_catch how (fun _ => Ok tt)); [|exact H1].
  specialize (IH o1). destruct (run_listeners call rest arg o1) as [[o2 r] log].
  cbn [fst] in *. tauto.
Qed.

Lemma run_listeners_removes (ls : list listener) (serial : nat) (event : string)
      (inner : listener) (arg : Arg) (o : object U) :
  OnceWrapper serial event inner ∈ ls ->
  OnceWrapper serial event inner
    ∉ listeners_of event (fst (fst (run_listeners call ls arg o))).
Proof.
  revert o. induction ls as [|l rest IH]; intros o Hin; [apply elem_of_nil in Hin; contradiction|].
  cbn [run_listeners].
  pose proof (run_listeners_shrinks rest (OnceWrapper serial event inner) event arg) as Hrest.
  destruct (decide (l = OnceWrapper serial event inner)) as [->|Hne].
  - pose proof (invoke_removes serial event inner arg o) as H1.
    destruct (invoke call (OnceWrapper serial event inner) arg o) as [o1 how]. cbn [fst] in H1.
    destruct (try_catch how (fun _ => Ok tt)) as [u|e0] eqn:Hc.
    + specialize (Hrest o1). destruct (run_listeners call rest arg o1) as [[o2 r] log].
      cbn [fst] in *. tauto.
    + destruct how; discriminate.
  - apply elem_of_cons in Hin as [Heq|Hin]; [congruence|].
    destruct (invoke call l arg o) as [o1 how].
    destruct (try_catch how (fun _ => Ok tt)) as [u|e0] eqn:Hc.
    + specialize (IH o1 Hin). destruct (run_listeners call rest arg o1) as [[o2 r] log].
      exact IH.
    + destruct how; discriminate.
Qed.

Lemma emit_shrinks (event e : string) (x : listener) (arg : Arg) (o : object U) :
  x ∈ listeners_of e (after (emit call event arg o)) -> x ∈ listeners_of e o.
Proof.
  unfold emit. destruct (events o !! event) as [[|l ls]|]; try tauto.
  pose proof (run_listeners_shrinks (l :: ls) x e arg o) as H.
  destruct (run_listeners call (l :: ls) arg o) as [[o' r] log]. exact H.
Qed.

Lemma emit_keeps (event e : string) (id : nat) (arg : Arg) (o : object U) :
  Fn id ∈ listeners_of e o -> Fn id ∈ listeners_of e (after (emit call event arg o)).
Proof.
  unfold emit. destruct (events o !! event) as [[|l ls]|]; try tauto.
  pose proof (run_listeners_keeps (l :: ls) id e arg o) as H.
  destruct (run_listeners call (l :: ls) arg o) as [[o' r] log]. exact H.
Qed.

Lemma emit_removes (serial : nat) (event : string) (inner : listener) (arg : Arg)
      (o : object U) :
  OnceWrapper serial event inner ∉ listeners_of event (after (emit call event arg o)).
Proof.
  destruct (decide (OnceWrapper serial event inner ∈ listeners_of event o)) as [Hin|Hout].
  - unfold emit. unfold listeners_of in Hin.
    destruct (events o !! event) as [[|l ls]|] eqn:E;
      try (apply elem_of_nil in Hin; contradiction).
    cbn [from_option id] in Hin.
    pose proof (run_listeners_removes (l :: ls) serial event inner arg o Hin) as H.
    destruct (run_listeners call (l :: ls) arg o) as [[o' r] log]. exact H.
  - intros H. apply emit_shrinks in H. contradiction.
Qed.
End Calm.

(** ** The functions an emit calls *)

(** The function of the program a function value ends up calling: the
    closure of [once] calls the listener it was made for. *)
Fixpoint target (l : listener) : nat :=
  match l with
  | Fn id => id
  | OnceWrapper _ _ inner => target inner
  end.

(** A program whose functions note their own calls, each with its
    argument, at the end of a list that [log] reads in the variables of
    the program. *)
Definition noted (log : U -> list (nat * Arg)) : Prop :=
  forall id arg o, log (fields (fst (call id arg o))) = log (fields o) ++ [(id, arg)].

(** The calls of the function [id] among the noted ones. *)
Definition calls_of (id : nat) (l : list (nat * Arg)) : list (nat * Arg) :=
  List.filter (fun c => Nat.eqb (fst c) id) l.

Lemma fields_off (event : string) (l : listener) (o : object U) :
  fields (off event l o) = fields o.
Proof.
  unfold off. destruct (events o !! event) as [ls|]; [|reflexivity].
  destruct (set_delete l ls); reflexivity.
Qed.

Section Noted.
Variable log : U -> list (nat * Arg).
Hypothesis notes : noted log.

Lemma noted_invoke (l : listener) (arg : Arg) (o : object U) :
  log (fields (fst (invoke call l arg o))) = log (fields o) ++ [(target l, arg)].
Proof.
  revert o. induction l as [id|serial event inner IH]; intros o; cbn [invoke target].
  - apply notes.
  - rewrite IH, fields_off. reflexivity.
Qed.

Lemma noted_run_listeners (ls : list listener) (arg : Arg) (o : object U) :
  log (fields (fst (fst (run_listeners call ls arg o))))
  = log (fields o) ++ List.map (fun l => (target l, arg)) ls.
Proof.
  revert o. induction ls as [|l rest IH]; intros o; cbn [run_listeners List.map].
  - cbn. rewrite app_nil_r. reflexivity.
  - pose proof (noted_invoke l arg o) as Hl.
    destruct (invoke call l arg o) as [o1 how]. cbn [fst] in Hl.
    assert (Hcaught : try_catch how (fun _ => Ok tt) = Ok tt).
    { destruct how as [[]|e]; reflexivity. }
    rewrite Hcaught. specialize (IH o1).
    destruct (run_listeners call rest arg o1) as [[o2 r] calls_made]. cbn [fst] in IH |- *.
    rewrite IH, Hl, <- app_assoc. reflexivity.
Qed.

Lemma noted_emit (event : string) (arg : Arg) (o : object U) :
  log (fields (after (emit call event arg o)))
  = log (fields o) ++ List.map (fun l => (target l, arg)) (listeners_of event o).
Proof.
  unfold emit, listeners_of.
  destruct (events o !! event) as [[|l ls]|]; cbn [from_option id after List.map];
    rewrite ?app_nil_r; try reflexivity.
  pose proof (noted_run_listeners (l :: ls) arg o) as H.
  destruct (run_listeners call (l :: ls) arg o) as [[o' r] calls_made]. exact H.
Qed.
End Noted.

Lemma calls_of_app (id : nat) (l1 l2 : list (nat * Arg)) :
  calls_of id (l1 ++ l2) = calls_of id l1 ++ calls_of id l2.
Proof. apply List.filter_app. Qed.

Lemma calls_of_others (id : nat) (arg : Arg) (ls : list listener) :
  (forall x, x ∈ ls -> target x <> id) ->
  calls_of id (List.map (fun l => (target l, arg)) ls) = [].
Proof.
  induction ls as [|l rest IH]; intros H; [reflexivity|].
  cbn [List.map calls_of List.filter fst].
  destruct (Nat.eqb_spec (target l) id) as [Heq|_].
  - exfalso. apply (H l); [left|exact Heq].
  - apply IH. intros x Hx. apply H. right. exact Hx.
Qed.

(** X5.  With listeners that do not register, remove or publish, the
    closure [once] makes is called by the first emit of its event, once,
    and by no later one; the listeners registered with [on] stay.  In a
    program whose functions note their calls, the first emit calls the
    functions of the listeners registered before, in their order, and then
    the function passed to [once], with the argument of the emit; when no
    other listener of the event calls that function, the first emit calls
    it exactly once and the second emit does not call it. *)
Theorem once_listener_fires_once (event : string) (l : listener) (arg later : Arg)
        (o : object U) :
  (forall id arg o, events (fst (call id arg o)) = events o) ->
  kept o ->
  fresh o ->
  let onceWrapper := OnceWrapper (closures o) event l in
  let first := emit call event arg (once event l o) in
  let second := emit call event later (after first) in
  count_occ listener_eq_dec (List.map fst (calls first)) onceWrapper = 1%nat
  /\ (onceWrapper ∉ listeners_of event (after first))
  /\ (onceWrapper ∉ List.map fst (calls second))
  /\ (onceWrapper ∉ listeners_of event (after second))
  /\ (forall id, Fn id ∈ listeners_of event o ->
        Fn id ∈ List.map fst (calls first) /\ Fn id ∈ List.map fst (calls second))
  /\ (forall log : U -> list (nat * Arg),
        noted log ->
        log (fields (after first))
        = log (fields o) ++ List.map (fun x => (target x, arg)) (listeners_of event o)
            ++ [(target l, arg)]
        /\ ((forall x, x ∈ listeners_of event o -> target x <> target l) ->
            calls_of (target l) (log (fields (after first)))
            = calls_of (target l) (log (fields o)) ++ [(target l, arg)]
            /\ calls_of (target l) (log (fields (after second)))
               = calls_of (target l) (log (fields (after first))))).
Proof.
  intros calm Hkept Hfresh onceWrapper first second.
  assert (Hgone : onceWrapper ∉ listeners_of event (after first)).
  { apply emit_removes, calm. }
  split; [|split; [exact Hgone|split; [|split; [|split]]]].
  - apply EmitterFacts.emit_calls_once.
    + apply kept_listeners, kept_once, Hkept.
    + rewrite (listeners_of_once _ _ _ Hfresh). apply elem_of_app. right.
      apply list_elem_of_singleton. reflexivity.
  - unfold second. rewrite EmitterFacts.emit_calls. exact Hgone.
  - apply emit_removes, calm.
  - intros id Hid. unfold first, second. rewrite !EmitterFacts.emit_calls. split.
    + rewrite (listeners_of_once _ _ _ Hfresh). apply elem_of_app. left. exact Hid.
    + apply emit_keeps; [exact calm|].
      rewrite (listeners_of_once _ _ _ Hfresh). apply elem_of_app. left. exact Hid.
  - intros log Hnoted.
    assert (Hfirst : log (fields (after first))
                     = log (fields o)
                         ++ List.map (fun x => (target x, arg)) (listeners_of event o)
                         ++ [(target l, arg)]).
    { unfold first. rewrite (noted_emit log Hnoted), (listeners_of_once _ _ _ Hfresh).
      rewrite List.map_app. reflexivity. }
    split; [exact Hfirst|]. intros Hothers. split.
    + rewrite Hfirst, !calls_of_app, (calls_of_others _ _ _ Hothers).
      cbn [calls_of List.filter fst]. rewrite Nat.eqb_refl. reflexivity.
    + unfold second. rewrite (noted_emit log Hnoted), calls_of_app.
      rewrite calls_of_others; [apply app_nil_r|].
      intros x Hx. apply Hothers.
      pose proof (emit_shrinks calm event event x arg (once event l o) Hx) as Hbefore.
      rewrite (listeners_of_once _ _ _ Hfresh) in Hbefore.
      apply elem_of_app in Hbefore as [Hbefore|Hbefore]; [exact Hbefore|].
      apply list_elem_of_singleton in Hbefore. subst x. contradiction.
Qed.

(** X26.  prependOnceListener registers a new closure in front of the
    listeners of the event: the next emit calls it first, once, and no
    later emit calls it.  Listeners are taken not to register, remove or
    publish. *)
Theorem prependOnceListener_fires_first_once (event : string) (l : listener)
        (arg later : Arg) (o : object U) :
  (forall id arg o, events (fst (call id arg o)) = events o) ->
  kept o ->
  fresh o ->
  let onceWrapper := OnceWrapper (closures o) event l in
  let first := emit call event arg (prependOnceListener event l o) in
  let second := emit call event later (after first) in
  listeners_of event (prependOnceListener event l o) = onceWrapper :: listeners_of event o
  /\ List.map fst (calls first) = onceWrapper :: listeners_of event o
  /\ (onceWrapper ∉ listeners_of event (after first))
  /\ (onceWrapper ∉ List.map fst (calls second)).
Proof.
  intros calm Hkept Hfresh onceWrapper first second.
  assert (Hls : listeners_of event (prependOnceListener event l o)
                = onceWrapper :: listeners_of event o).
  { unfold prependOnceListener.
    rewrite listeners_of_prependListener by apply (kept_listeners event o Hkept).
    change (listeners_of event (Object (events o) (S (closures o)) (fields o)))
      with (listeners_of event o).
    rewrite set_delete_absent by apply fresh_absent, Hfresh. reflexivity. }
  assert (Hgone : onceWrapper ∉ listeners_of event (after first)).
  { apply emit_removes, calm. }
  split; [exact Hls|]. split; [unfold first; rewrite EmitterFacts.emit_calls; exact Hls|].
  split; [exact Hgone|]. unfold second. rewrite EmitterFacts.emit_calls. exact Hgone.
Qed.

(** X6.  removeAllListeners with a name removes the listeners of that
    event and no other; without a name, and with the empty name, it
    removes the listeners of every event.  An emit of an event without
    listeners calls nothing, returns [false] and leaves the emitter as it
    is. *)
Theorem removeAllListeners_clears (name : option string) (event : string) (arg : Arg)
        (o : object U) :
  listeners_of event (removeAllListeners name o)
  = match name with
    | Some n =>
        if String.eqb n EmptyString then []
        else if String.eqb n event then [] else listeners_of event o
    | None => []
    end
  /\ (listeners_of event (removeAllListeners name o) = [] ->
      emit call event arg (removeAllListeners name o)
      = Emitted (removeAllListeners name o) (Ok false) []).
Proof.
  split.
  - unfold removeAllListeners. destruct name as [n|].
    + destruct (String.eqb_spec n EmptyString) as [->|Hn].
      * rewrite listeners_of_with, lookup_empty. reflexivity.
      * rewrite listeners_of_with. destruct (String.eqb_spec n event) as [->|Hne].
        -- rewrite lookup_delete_eq. reflexivity.
        -- rewrite lookup_delete_ne by exact Hne. reflexivity.
    + rewrite listeners_of_with, lookup_empty. reflexivity.
  - generalize (removeAllListeners name o). intros o' H. unfold emit, listeners_of in *.
    destruct (events o' !! event) as [[|l ls]|]; try reflexivity. discriminate.
Qed.
End Registry.

(** A program on an emitter whose listeners do nothing. *)
Definition sample_program : list (method (Arg := unit)) :=
  [CallOn "chat" (Fn 0); CallOnce "ready" (Fn 1); CallPrependListener "chat" (Fn 2);
   CallEmit "ready" tt; CallOff "chat" (Fn 0); CallRemoveAllListeners (Some "error")].

Lemma eventNames_are_events_with_listeners_witness :
  ("chat" ∈ eventNames (fold_left (perform EmitterFacts.quiet) sample_program (new_emitter tt))
   <-> (0 < listenerCount "chat"
              (fold_left (perform EmitterFacts.quiet) sample_program (new_emitter tt)))%nat)
  /\ NoDup (eventNames (fold_left (perform EmitterFacts.quiet) sample_program (new_emitter tt)))
  /\ NoDup (listeners_of "chat"
              (fold_left (perform EmitterFacts.quiet) sample_program (new_emitter tt))).
Proof.
  apply (eventNames_are_events_with_listeners EmitterFacts.quiet tt sample_program "chat").
  intros id arg o H. exact H.
Defined.

Definition one_listener : object unit := on "chat" (Fn 0) (new_emitter tt).

Lemma one_listener_kept : kept one_listener.
Proof. apply kept_on, kept_new. Qed.

Lemma off_undoes_on_witness :
  off "chat" (Fn 1) (on "chat" (Fn 1) one_listener) = one_listener
  /\ listeners_of "chat" (on "chat" (Fn 1) one_listener) = [Fn 0; Fn 1].
Proof.
  apply (off_undoes_on "chat" (Fn 1) one_listener one_listener_kept).
  intros H. apply list_elem_of_singleton in H. discriminate.
Defined.

Lemma prependListener_goes_first_witness :
  listeners_of "chat" (prependListener "chat" (Fn 1) (on "chat" (Fn 1) one_listener))
  = [Fn 1; Fn 0]
  /\ listenerCount "chat" (prependListener "chat" (Fn 1) (on "chat" (Fn 1) one_listener))
     = 2%nat.
Proof.
  destruct (prependListener_goes_first EmitterFacts.quiet "chat" (Fn 1) tt
              (on "chat" (Fn 1) one_listener)) as (Hls & _ & Hcount & _).
  - apply kept_listeners, kept_on, one_listener_kept.
  - split; [exact Hls|exact Hcount].
Defined.

Lemma once_registers_every_time_witness :
  listeners_of "ready" (once "ready" (Fn 0) (once "ready" (Fn 0) (new_emitter tt)))
  = [OnceWrapper 0 "ready" (Fn 0); OnceWrapper 1 "ready" (Fn 0)]
  /\ listenerCount "ready" (once "ready" (Fn 0) (once "ready" (Fn 0) (new_emitter tt)))
     = 2%nat.
Proof.
  destruct (once_registers_every_time EmitterFacts.quiet "ready" (Fn 0) tt (new_emitter tt)
              (fresh_new tt)) as (Hls & Hcount & _).
  split; [exact Hls|exact Hcount].
Defined.

Lemma prependOnceListener_fires_first_once_witness :
  List.map fst
    (calls (emit EmitterFacts.quiet "chat" tt (prependOnceListener "chat" (Fn 1) one_listener)))
  = [OnceWrapper 0 "chat" (Fn 1); Fn 0]
  /\ List.map fst
       (calls (emit EmitterFacts.quiet "chat" tt
                 (after (emit EmitterFacts.quiet "chat" tt
                           (prependOnceListener "chat" (Fn 1) one_listener)))))
     = [Fn 0].
Proof.
  destruct (prependOnceListener_fires_first_once EmitterFacts.quiet "chat" (Fn 1) tt tt
              one_listener)
    as (_ & Hfirst & _).
  - intros id arg o. reflexivity.
  - exact one_listener_kept.
  - apply fresh_on, fresh_new.
  - split; [exact Hfirst|reflexivity].
Defined.

(** A program that notes its calls and does nothing else. *)
Definition noting (id : nat) (arg : unit) (o : object (list (nat * unit)))
  : object (list (nat * unit)) * result unit :=
  (Object (events o) (closures o) (fields o ++ [(id, arg)]), Ok tt).

Definition one_noting : object (list (nat * unit)) := on "chat" (Fn 0) (new_emitter []).

Lemma once_listener_fires_once_witness :
  fields (after (emit noting "chat" tt (once "chat" (Fn 1) one_noting))) = [(0, tt); (1, tt)]%nat
  /\ calls_of 1 (fields (after (emit noting "chat" tt
                                  (after (emit noting "chat" tt
                                            (once "chat" (Fn 1) one_noting))))))
     = [(1%nat, tt)]
  /\ fields (after (emit noting "chat" tt
                      (after (emit noting "chat" tt (once "chat" (Fn 1) one_noting)))))
     = [(0, tt); (1, tt); (0, tt)]%nat.
Proof.
  destruct (once_listener_fires_once noting "chat" (Fn 1) tt tt one_noting)
    as (_ & _ & _ & _ & _ & Hnoted).
  - intros id arg o. reflexivity.
  - apply kept_on, kept_new.
  - apply fresh_on, fresh_new.
  - destruct (Hnoted (fun noted_calls => noted_calls)) as (Hfirst & Hcalls).
    + intros id arg o. reflexivity.
    + destruct Hcalls as (_ & Hsecond).
      * intros x Hx. apply list_elem_of_singleton in Hx. subst x. discriminate.
      * split; [exact Hfirst|]. split; [|reflexivity].
        etransitivity; [exact Hsecond|reflexivity].
Defined.

End RegistryFacts.
(* ================================================================== *)
(** * Frames: validation, event names and decoded events *)
(* ================================================================== *)

Module FrameFacts.
Import Js WebSocketManager MessageParser.
Local Open Scope js_scope.

Section Frames.
Context {RT : Runtime}.

(** ** isValidMessage and extractEventType *)

Lemma blank_or_empty (s : string) : is_empty s || is_blank s = is_blank s.
Proof. destruct s; reflexivity. Qed.

Lemma truthy_not_empty (v : val) : truthy v = true -> is_string v EmptyString = false.
Proof. destruct v; cbn; try reflexivity. intros H. apply negb_true_iff in H. exact H. Qed.

(** What isValidMessage answers, read on the parsed frame. *)
Definition valid_frame (message : val) : bool :=
  truthy (get_opt message "event")
  && negb (is_undefined (get_opt message "data"))
  && negb (is_string (get_opt message "data") EmptyString).

Lemma isValidMessage_eq (raw : string) :
  isValidMessage raw
  = Ok (negb (is_blank raw)
        && match JSON_parse raw with
           | Some message => valid_frame message
           | None => false
           end).
Proof.
  unfold isValidMessage, isValidMessage_try, JSON_parse_text, valid_frame.
  rewrite blank_or_empty.
  destruct (is_blank raw); [reflexivity|]. cbn [negb andb].
  destruct (JSON_parse raw) as [message|]; [|reflexivity]. cbn [bind].
  destruct message as [| | | | | |fields]; try reflexivity.
  cbn [get get_opt bind].
  destruct (truthy (lookup_field "event" fields)) eqn:Hev; [|reflexivity].
  cbn [negb bind try_catch andb]. rewrite (truthy_not_empty _ Hev). cbn [negb].
  rewrite andb_true_r. reflexivity.
Qed.

(** What extractEventType answers, read on the parsed frame. *)
Definition event_of (message : val) : option string :=
  match get_opt message "event" with
  | VStr name =>
      if negb (String.eqb name EmptyString) && negb (is_pusher_event name) then Some name
      else None
  | _ => None
  end.

Lemma extractEventType_eq (raw : string) :
  extractEventType raw
  = Ok (if is_blank raw then None
        else match JSON_parse raw with
             | Some message => event_of message
             | None => None
             end).
Proof.
  unfold extractEventType, extractEventType_try, JSON_parse_text, event_of.
  rewrite blank_or_empty.
  destruct (is_blank raw); [reflexivity|].
  destruct (JSON_parse raw) as [message|]; [|reflexivity]. cbn [bind].
  destruct message as [| | | | | |fields]; try reflexivity.
  cbn [get get_opt bind].
  destruct (lookup_field "event" fields) as [| |b|n|name|items|fs]; try reflexivity.
  - destruct b; reflexivity.
  - cbn [truthy]. destruct (num_truthy n); reflexivity.
  - cbn [truthy]. destruct (String.eqb name EmptyString) eqn:Hname; cbn [negb andb].
    + reflexivity.
    + destruct (is_pusher_event name); reflexivity.
Qed.

(** X7.  isValidMessage never throws; it answers [true] exactly for a
    frame that is not blank and is the JSON text of a value with a truthy
    [event] and a [data] that is neither missing nor the empty string.
    Every frame parseMessage decodes is valid; a control frame of the
    transport with data is valid too, and is not decoded. *)
Theorem isValidMessage_accepts_decodable (raw : string) :
  (exists b, isValidMessage raw = Ok b)
  /\ (isValidMessage raw = Ok true
      <-> is_blank raw = false
          /\ exists message, JSON_parse raw = Some message /\ valid_frame message = true)
  /\ (forall p, parseMessage raw = Ok (Some p) -> isValidMessage raw = Ok true)
  /\ (forall message name,
        is_blank raw = false ->
        JSON_parse raw = Some message ->
        get_opt message "event" = VStr name ->
        is_pusher_event name = true ->
        valid_frame message = true ->
        isValidMessage raw = Ok true /\ parseMessage raw = Ok None).
Proof.
  split; [rewrite isValidMessage_eq; eauto|]. split; [|split].
  - rewrite isValidMessage_eq. split.
    + intros [= H]. apply andb_true_iff in H as [Hb H]. apply negb_true_iff in Hb.
      split; [exact Hb|]. destruct (JSON_parse raw) as [message|]; [|discriminate]. eauto.
    + intros (Hb & message & -> & Hv). rewrite Hb, Hv. reflexivity.
  - intros p Hp. apply DecoderFacts.parseMessage_inv in Hp
      as (Hb & message & name & eventData & Hjson & Hev & Hne & _ & Hu & He & _).
    rewrite isValidMessage_eq, Hb, Hjson. unfold valid_frame. rewrite Hev, Hu, He.
    cbn. destruct (String.eqb_spec name EmptyString); [contradiction|reflexivity].
  - intros message name Hb Hjson Hev Hpusher Hv. split.
    + rewrite isValidMessage_eq, Hb, Hjson, Hv. reflexivity.
    + destruct (DecoderFacts.parseMessage_total raw) as [[p|] Hp]; [|exact Hp].
      apply DecoderFacts.parseMessage_inv in Hp
        as (_ & message' & name' & eventData & Hjson' & Hev' & _ & Hpusher' & _).
      congruence.
Qed.

(** X8.  extractEventType never throws; it answers a name exactly for a
    frame that is not blank and is the JSON text of a value whose [event]
    is that name, a string that is not empty and does not begin with a
    control prefix of the transport.  It does not look at [data]. *)
Theorem extractEventType_answers_event (raw name : string) :
  (exists r, extractEventType raw = Ok r)
  /\ (extractEventType raw = Ok (Some name)
      <-> is_blank raw = false
          /\ exists message,
               JSON_parse raw = Some message
               /\ get_opt message "event" = VStr name
               /\ name <> EmptyString
               /\ is_pusher_event name = false).
Proof.
  split; [rewrite extractEventType_eq; eauto|].
  rewrite extractEventType_eq. split.
  - intros [= H]. destruct (is_blank raw); [discriminate|]. split; [reflexivity|].
    destruct (JSON_parse raw) as [message|]; [|discriminate]. exists message.
    unfold event_of in H.
    destruct (get_opt message "event") as [| | | |s| |]; try discriminate.
    destruct (String.eqb_spec s EmptyString) as [|Hne]; [discriminate|].
    destruct (is_pusher_event s) eqn:Hp; [discriminate|].
    cbn in H. inversion H; subst. repeat split; assumption.
  - intros (-> & message & -> & Hev & Hne & Hp). unfold event_of. rewrite Hev, Hp.
    destruct (String.eqb_spec name EmptyString); [contradiction|reflexivity].
Qed.

(** ** Decoded events *)

(** The literal each event interface of types.ts has as its [type]. *)
Definition type_tag (k : KickEventType) : option string :=
  match k with
  | ChatMessage => Some "message"
  | MessageDeleted => Some "message_deleted"
  | UserBanned => Some "user_banned"
  | UserUnbanned => Some "user_unbanned"
  | Subscription => Some "subscription"
  | GiftedSubscriptions => Some "gifted_subscriptions"
  | PinnedMessageCreated => Some "pinned_message_created"
  | StreamHost => Some "stream_host"
  | PollUpdate => Some "poll_update"
  | PollDelete => Some "poll_delete"
  | ready | disconnect | error | rawMessage => None
  end.

(** The payload of a frame: the JSON value its [data] is the text of. *)
Definition payload_of (raw : string) : option val :=
  match JSON_parse raw with
  | Some message => JSON_parse (toString (get_opt message "data"))
  | None => None
  end.

Ltac unbind H :=
  repeat match type of H with
         | bind ?m _ = Ok _ =>
             let x := fresh "x" in
             let E := fresh "E" in
             destruct m as [x|] eqn:E; cbn [bind] in H; [|discriminate H]
         end.

Lemma decoder_tagged (k : KickEventType) (payload v : val) :
  DecoderFacts.decoder_of k payload = Ok v ->
  exists fields tag,
    v = VObj fields /\ type_tag k = Some tag /\ lookup_field "type" fields = VStr tag.
Proof.
  destruct k; cbn [DecoderFacts.decoder_of];
    unfold parseChatMessage, parseMessageDeleted, parseUserBanned, parseUserUnbanned,
      parseSubscription, parseGiftedSubscriptions, parsePinnedMessageCreated,
      parseStreamHost, parsePollUpdate, parsePollDelete;
    intros H; try discriminate; unbind H; inversion H; subst;
    eexists _, _; repeat split.
Qed.

Lemma decoded_by (raw : string) (p : parsed) :
  parseMessage raw = Ok (Some p) ->
  exists payload,
    payload_of raw = Some payload
    /\ DecoderFacts.decoder_of (type p) payload = Ok (data p).
Proof.
  intros Hp. apply DecoderFacts.parseMessage_inv in Hp
    as (_ & message & name & eventData & Hjson & _ & _ & _ & _ & _ & Hdata & Hd).
  exists eventData. split; [unfold payload_of; rewrite Hjson; exact Hdata|].
  pose proof (DecoderFacts.dispatch_event_inv _ _ _ Hd) as Hk.
  destruct (DecoderFacts.table_names _ _ Hk) as (_ & _ & Heq). rewrite Heq in Hd.
  unfold tagged in Hd. destruct (DecoderFacts.decoder_of (type p) eventData) as [d|];
    cbn [bind] in Hd; [|discriminate].
  inversion Hd as [Hpd]. destruct p as [k d']. cbn in *. inversion Hpd; subst. reflexivity.
Qed.

(** X9.  What parseMessage answers is one of the ten chat events,
    never a lifecycle event; its data is what the decoder of that kind
    makes of the payload of the frame, an object whose [type] is the
    literal types.ts gives the kind. *)
Theorem decoded_event_carries_its_type (raw : string) (p : parsed) :
  parseMessage raw = Ok (Some p) ->
  (exists payload,
      payload_of raw = Some payload
      /\ DecoderFacts.decoder_of (type p) payload = Ok (data p))
  /\ (exists tag,
        type_tag (type p) = Some tag /\ get_opt (data p) "type" = VStr tag)
  /\ type p <> ready /\ type p <> disconnect /\ type p <> error /\ type p <> rawMessage.
Proof.
  intros Hp. destruct (decoded_by raw p Hp) as (payload & Hpayload & Hdec).
  destruct (decoder_tagged _ _ _ Hdec) as (fields & tag & Hv & Htag & Hfield).
  split; [eauto|]. split.
  - exists tag. split; [exact Htag|]. rewrite Hv. exact Hfield.
  - destruct (type p); try discriminate Htag; repeat split; discriminate.
Qed.

(** ** Defaults *)

Lemma or_else_truthy (a b : val) : truthy b = true -> truthy (or_else a b) = true.
Proof. intros H. unfold or_else. destruct (truthy a) eqn:Ha; assumption. Qed.


Lemma mapM_length {A B} (f : A -> result B) (l : list A) (ys : list B) :
  mapM f l = Ok ys -> length ys = length l.
Proof.
  revert ys. induction l as [|x l IH]; intros ys H; cbn in H.
  - inversion H. reflexivity.
  - unbind H. inversion H; subst. cbn. f_equal. apply IH. reflexivity.
Qed.

Lemma mapM_Forall {A B} (P : B -> Prop) (f : A -> result B) (l : list A) (ys : list B) :
  (forall x y, f x = Ok y -> P y) -> mapM f l = Ok ys -> Forall P ys.
Proof.
  intros Hf. revert ys. induction l as [|x l IH]; intros ys H; cbn in H.
  - inversion H. constructor.
  - unbind H. inversion H; subst. constructor; [eapply Hf; eassumption|].
    apply IH. reflexivity.
Qed.

(** The elements of an array; no elements for what is not an array. *)
Definition items_of (v : val) : list val :=
  match v with
  | VArr items => items
  | _ => []
  end.

(** A value that is there: a string, or anything truthy. *)
Definition present (v : val) : bool := DecoderFacts.is_text v || truthy v.



Lemma get_opt_get (v x : val) (k : string) : get v k = Ok x -> x = get_opt v k.
Proof. destruct v; cbn; intros H; inversion H; reflexivity. Qed.

Lemma votes_filled_in (opt decoded : val) :
  (oid <- get opt "id" ;;
   text <- get opt "text" ;;
   votes <- get opt "votes" ;;
   Ok (obj [("id", oid); ("text", text); ("votes", or_else votes (VNum num_zero))]))
  = Ok decoded ->
  truthy (get_opt decoded "votes") = true \/ get_opt decoded "votes" = VNum num_zero.
Proof.
  intros H. unbind H. inversion H; subst. cbn. unfold or_else.
  destruct (truthy x1) eqn:Ht; [left; exact Ht|right; reflexivity].
Qed.

Lemma recipient_present (r decoded : val) :
  (if String.eqb (typeof r) "string" then Ok r
   else (u <- get r "username" ;; Ok (or_else u (str "unknown"))))
  = Ok decoded ->
  present decoded = true.
Proof.
  unfold present. destruct r; cbn [typeof String.eqb Ascii.eqb Bool.eqb];
    intros H; try (inversion H; subst; reflexivity);
    unbind H; inversion H; subst;
    rewrite or_else_truthy by reflexivity; apply orb_true_r.
Qed.

(** X11.  The lists of a decoded event are arrays as long as those of
    the payload, empty when the payload has none: the options of a poll,
    each with [votes] filled in, and the recipients of gifted
    subscriptions, each a string or truthy. *)
Theorem decoded_lists_keep_their_length (raw : string) (p : parsed) :
  parseMessage raw = Ok (Some p) ->
  exists payload,
    payload_of raw = Some payload
    /\ (type p = PollUpdate ->
        exists options,
          get_opt (data p) "options" = VArr options
          /\ length options = length (items_of (get_opt payload "options"))
          /\ Forall (fun opt => truthy (get_opt opt "votes") = true
                                \/ get_opt opt "votes" = VNum num_zero) options)
    /\ (type p = GiftedSubscriptions ->
        exists recipients,
          get_opt (data p) "recipients" = VArr recipients
          /\ length recipients = length (items_of (get_opt payload "recipients"))
          /\ Forall (fun r => present r = true) recipients).
Proof.
  intros Hp. destruct (decoded_by raw p Hp) as (payload & Hpayload & Hdec).
  exists payload. split; [exact Hpayload|]. split.
  - intros Hk. rewrite Hk in Hdec. cbn [DecoderFacts.decoder_of] in Hdec.
    unfold parsePollUpdate in Hdec. unbind Hdec. inversion Hdec; subst. cbn.
    exists x2. split; [reflexivity|].
    apply get_opt_get in E1. subst x1. unfold or_else in E2.
    destruct (truthy (get_opt payload "options")) eqn:Ht.
    + destruct (get_opt payload "options") as [| | | | |items|]; try discriminate.
      split; [exact (mapM_length _ _ _ E2)|].
      apply (mapM_Forall _ _ _ _ (votes_filled_in) E2).
    + cbn in E2. inversion E2; subst. split; [|constructor].
      destruct (get_opt payload "options"); try reflexivity. discriminate.
  - intros Hk. rewrite Hk in Hdec. cbn [DecoderFacts.decoder_of] in Hdec.
    unfold parseGiftedSubscriptions in Hdec. unbind Hdec. inversion Hdec; subst. cbn.
    exists x2. split; [reflexivity|].
    apply get_opt_get in E1. subst x1.
    destruct (get_opt payload "recipients") as [| | | | |items|];
      try (inversion E2; subst; split; [reflexivity|constructor]).
    split; [exact (mapM_length _ _ _ E2)|].
    apply (mapM_Forall _ _ _ _ (recipient_present) E2).
Qed.
End Frames.


Definition poll_frame : string :=
  Host.text
    ("{'event':'App\\Events\\PollUpdateEvent','data':'{\'id\':\'p1\',\'question\':\'q\',"
     +:+ "\'options\':[{\'id\':\'a\',\'text\':\'A\',\'votes\':3},"
     +:+ "{\'id\':\'b\',\'text\':\'B\'}]}'}").


Definition poll : parsed (RT := Host.runtime) :=
  {| type := PollUpdate;
     data := VObj [("poll_id", VStr "p1"); ("question", VStr "q");
                   ("options",
                    VArr [VObj [("id", VStr "a"); ("text", VStr "A"); ("votes", VNum 3)];
                          VObj [("id", VStr "b"); ("text", VStr "B"); ("votes", VNum 0)]]);
                   ("type", VStr "poll_update")] |}.


Lemma poll_decoded : parseMessage poll_frame = Ok (Some poll).
Proof. reflexivity. Qed.

Lemma decoded_event_carries_its_type_witness :
  exists tag, type_tag (type poll) = Some tag /\ get_opt (data poll) "type" = VStr tag.
Proof.
  exact (proj1 (proj2 (decoded_event_carries_its_type poll_frame poll poll_decoded))).
Defined.


Lemma decoded_lists_keep_their_length_witness :
  exists payload,
    payload_of poll_frame = Some payload
    /\ exists options,
         get_opt (data poll) "options" = VArr options
         /\ length options = length (items_of (get_opt payload "options")).
Proof.
  destruct (decoded_lists_keep_their_length poll_frame poll poll_decoded)
    as (payload & Hpayload & Hpoll & _).
  exists payload. split; [exact Hpayload|].
  destruct (Hpoll eq_refl) as (options & Hoptions & Hlength & _).
  exists options. split; assumption.
Defined.

End FrameFacts.
(* ================================================================== *)
(** * Reading and clearing the buffer *)
(* ================================================================== *)

Module InspectionFacts.
Import Js WebSocketManager MessageParser.

(** ** Ranges *)

Lemma slice_infix {A} (l : list A) (start : Z) (final : option Z) :
  exists before after, l = before ++ slice l start final ++ after.
Proof.
  unfold slice.
  set (k := Z.to_nat (clamp_index (Z.of_nat (length l)) start)).
  set (n := Z.to_nat _).
  exists (take k l), (drop n (drop k l)).
  rewrite (take_drop n (drop k l)), take_drop. reflexivity.
Qed.

Lemma slice_inside {A} (l : list A) (s e : nat) :
  (s <= e)%nat -> (e <= length l)%nat ->
  slice l (Z.of_nat s) (Some (Z.of_nat e)) = take (e - s) (drop s l).
Proof.
  intros Hse He. unfold slice, clamp_index.
  destruct (Z.ltb_spec (Z.of_nat s) 0); [lia|].
  destruct (Z.ltb_spec (Z.of_nat e) 0); [lia|].
  rewrite !Z.min_l by lia. rewrite Nat2Z.id. f_equal. lia.
Qed.

Lemma slice_all {A} (l : list A) : slice l 0 None = l.
Proof.
  unfold slice, clamp_index. cbn. rewrite Z.min_l by lia. cbn.
  rewrite drop_0, take_ge; [reflexivity|lia].
Qed.

(** X12.  exportRawMessagesInRange answers a run of consecutive frames
    of the buffer, for any indices, in range or not; for
    [0 <= start <= end <= length] with [end] not zero these are the
    [end - start] frames from position [start] on; from zero and without
    an end it answers what exportRawMessages and getMessageBuffer answer,
    the whole buffer; a start at or beyond the length gives nothing. *)
Theorem exportRawMessagesInRange_is_a_run (m : manager) (startIndex : Z) (endIndex : option Z) :
  (exists before after,
      messageBuffer m = before ++ exportRawMessagesInRange startIndex endIndex m ++ after)
  /\ (length (exportRawMessagesInRange startIndex endIndex m) <= length (messageBuffer m))%nat
  /\ (forall s e : nat,
        (s <= e)%nat -> (0 < e)%nat -> (e <= length (messageBuffer m))%nat ->
        exportRawMessagesInRange (Z.of_nat s) (Some (Z.of_nat e)) m
        = take (e - s) (drop s (messageBuffer m))
        /\ length (exportRawMessagesInRange (Z.of_nat s) (Some (Z.of_nat e)) m) = (e - s)%nat)
  /\ exportRawMessagesInRange 0 None m = exportRawMessages m
  /\ exportRawMessages m = getMessageBuffer m
  /\ (Z.of_nat (length (messageBuffer m)) <= startIndex ->
      exportRawMessagesInRange startIndex endIndex m = []).
Proof.
  assert (Hinfix : exists before after,
             messageBuffer m = before ++ exportRawMessagesInRange startIndex endIndex m ++ after).
  { unfold exportRawMessagesInRange. destruct endIndex as [e|]; [destruct (e =? 0)|];
      apply slice_infix. }
  split; [exact Hinfix|]. split; [|split; [|split; [|split]]].
  - destruct Hinfix as (before & after & H). apply (f_equal length) in H.
    rewrite !length_app in H. lia.
  - intros s e Hse He Hlen. unfold exportRawMessagesInRange.
    destruct (Z.eqb_spec (Z.of_nat e) 0); [lia|].
    rewrite slice_inside by assumption. split; [reflexivity|].
    rewrite length_take, length_drop. lia.
  - apply slice_all.
  - reflexivity.
  - intros Hstart.
    assert (Hnone : forall final, slice (messageBuffer m) startIndex final = []).
    { intros final. unfold slice, clamp_index.
      destruct (Z.ltb_spec startIndex 0); [lia|].
      rewrite Z.min_r by lia. rewrite Nat2Z.id, drop_all. apply take_nil. }
    unfold exportRawMessagesInRange. destruct endIndex as [e|]; [destruct (e =? 0)|];
      apply Hnone.
Qed.

(** ** Frames of one kind *)

Section Kinds.
Context {RT : Runtime}.

Lemma has_type_one (k k' : KickEventType) (message : string) :
  has_type k message = true -> has_type k' message = true -> k = k'.
Proof.
  unfold has_type. destruct (parseMessage message) as [[p|]|]; try discriminate.
  intros H H'. apply bool_decide_eq_true in H, H'. congruence.
Qed.

Lemma has_type_none (k : KickEventType) (message : string) :
  parseMessage message = Ok None -> has_type k message = false.
Proof. intros H. unfold has_type. rewrite H. reflexivity. Qed.

Lemma filter_twice {A} (f g : A -> bool) (l : list A) :
  List.filter f (List.filter g l) = List.filter (fun x => g x && f x) l.
Proof.
  induction l as [|x l IH]; [reflexivity|]. cbn.
  destruct (g x); cbn; [destruct (f x)|]; rewrite IH; reflexivity.
Qed.

Lemma filter_split {A} (f : A -> bool) (l : list A) :
  (length (List.filter f l) + length (List.filter (fun x => negb (f x)) l) = length l)%nat.
Proof. induction l as [|x l IH]; [reflexivity|]. cbn. destruct (f x); cbn; lia. Qed.

Lemma filter_nothing {A} (f : A -> bool) (l : list A) :
  (forall x, f x = false) -> List.filter f l = [].
Proof. intros H. induction l as [|x l IH]; [reflexivity|]. cbn. rewrite H. exact IH. Qed.

(** X13.  clearRawMessagesByEventType removes from the buffer exactly
    the frames exportRawMessagesByEventType answers for the kind: none of
    that kind is left, the frames of every other kind and the frames that
    do not decode stay, in their order, and nothing else of the manager
    changes. *)
Theorem clearRawMessagesByEventType_removes_the_kind (k : KickEventType) (m : manager) :
  exportRawMessagesByEventType k (clearRawMessagesByEventType k m) = []
  /\ (forall k', k' <> k ->
        exportRawMessagesByEventType k' (clearRawMessagesByEventType k m)
        = exportRawMessagesByEventType k' m)
  /\ (length (exportRawMessagesByEventType k m)
      + length (messageBuffer (clearRawMessagesByEventType k m))
      = length (messageBuffer m))%nat
  /\ (forall message,
        message ∈ messageBuffer (clearRawMessagesByEventType k m)
        <-> message ∈ messageBuffer m /\ has_type k message = false)
  /\ (forall message,
        message ∈ messageBuffer m -> parseMessage message = Ok None ->
        message ∈ messageBuffer (clearRawMessagesByEventType k m))
  /\ messageBuffer (clearRawMessagesByEventType k m) `sublist_of` messageBuffer m
  /\ clearRawMessagesByEventType k m
     = set_messageBuffer (messageBuffer (clearRawMessagesByEventType k m)) m.
Proof.
  unfold exportRawMessagesByEventType, clearRawMessagesByEventType.
  destruct m as [w cn ci cs o rt buffer md]. cbn.
  assert (Helem : forall message,
             message ∈ List.filter (fun x => negb (has_type k x)) buffer
             <-> message ∈ buffer /\ has_type k message = false).
  { intros message. rewrite !list_elem_of_In, filter_In, negb_true_iff. reflexivity. }
  split; [|split; [|split; [|split; [|split; [|split]]]]].
  - rewrite filter_twice. apply filter_nothing. intros x. destruct (has_type k x); reflexivity.
  - intros k' Hne. rewrite filter_twice. apply List.filter_ext. intros x.
    destruct (has_type k x) eqn:Hk; [|reflexivity]. cbn.
    destruct (has_type k' x) eqn:Hk'; [|reflexivity].
    exfalso. apply Hne. symmetry. exact (has_type_one _ _ _ Hk Hk').
  - apply filter_split.
  - exact Helem.
  - intros message Hin Hnone. apply Helem. split; [exact Hin|].
    apply has_type_none, Hnone.
  - induction buffer as [|x l IH]; [constructor|]. cbn.
    destruct (negb (has_type k x)).
    + apply sublist_skip, IH. intros message. rewrite !list_elem_of_In, filter_In, negb_true_iff.
      reflexivity.
    + apply sublist_cons, IH. intros message.
      rewrite !list_elem_of_In, filter_In, negb_true_iff. reflexivity.
  - reflexivity.
Qed.

(** ** Counting by kind *)

Lemma event_name_inj (k k' : KickEventType) : event_name k = event_name k' -> k = k'.
Proof. destruct k, k'; cbn; intros H; try reflexivity; discriminate. Qed.

Lemma assoc_bump (key key' : string) (byType : list (string * nat)) :
  assoc key (bump key' byType)
  = if String.eqb key key' then Some (S (default 0%nat (assoc key byType)))
    else assoc key byType.
Proof.
  induction byType as [|[k n] rest IH]; cbn.
  - destruct (String.eqb_spec key key'); reflexivity.
  - destruct (String.eqb_spec key' k) as [->|Hne]; cbn.
    + destruct (String.eqb_spec key k); reflexivity.
    + destruct (String.eqb_spec key k) as [->|Hk].
      * destruct (String.eqb_spec k key'); [congruence|reflexivity].
      * exact IH.
Qed.

Lemma keys_bump (key : string) (byType : list (string * nat)) :
  NoDup byType.*1 -> NoDup (bump key byType).*1
  /\ forall k, k ∈ (bump key byType).*1 <-> k = key \/ k ∈ byType.*1.
Proof.
  induction byType as [|[k n] rest IH]; cbn; intros Hnd.
  - split; [apply NoDup_singleton|]. intros k. rewrite list_elem_of_singleton.
    split; [tauto|]. intros [H|H]; [exact H|]. apply elem_of_nil in H. contradiction.
  - apply NoDup_cons in Hnd as [Hk Hnd]. destruct (IH Hnd) as [IH1 IH2].
    destruct (String.eqb_spec key k) as [->|Hne]; cbn.
    + split; [apply NoDup_cons; split; assumption|].
      intros k'. rewrite elem_of_cons. tauto.
    + split.
      * apply NoDup_cons. split; [|exact IH1]. rewrite IH2. intros [H|H]; [congruence|tauto].
      * intros k'. rewrite !elem_of_cons, IH2. tauto.
Qed.

Lemma sum_bump (key : string) (byType : list (string * nat)) :
  sum_list (bump key byType).*2 = S (sum_list byType.*2).
Proof.
  induction byType as [|[k n] rest IH]; [reflexivity|]. cbn.
  destruct (String.eqb key k); cbn; [reflexivity|]. rewrite IH. lia.
Qed.

(** The frames that decode. *)
Definition decodes (message : string) : bool :=
  match parseMessage message with
  | Ok (Some _) => true
  | _ => false
  end.

Lemma count_fold (k : KickEventType) (frames : list string) (byType : list (string * nat)) :
  assoc (event_name k) (fold_left count_message frames byType)
  = match length (List.filter (has_type k) frames) with
    | O => assoc (event_name k) byType
    | S n => Some (default 0%nat (assoc (event_name k) byType) + S n)%nat
    end.
Proof.
  revert byType. induction frames as [|message frames IH]; intros byType; [reflexivity|].
  cbn [fold_left List.filter]. rewrite IH. unfold count_message, has_type.
  destruct (parseMessage message) as [[p|]|]; try reflexivity.
  rewrite assoc_bump. case_bool_decide as Hp.
  - subst k. rewrite String.eqb_refl. cbn [length from_option id].
    destruct (length (List.filter _ frames)); f_equal; lia.
  - destruct (String.eqb_spec (event_name k) (event_name (type p))) as [Heq|_];
      [apply event_name_inj in Heq; congruence|]. reflexivity.
Qed.

Lemma keys_fold (frames : list string) (byType : list (string * nat)) :
  NoDup byType.*1 ->
  NoDup (fold_left count_message frames byType).*1
  /\ sum_list (fold_left count_message frames byType).*2
     = (sum_list byType.*2 + length (List.filter decodes frames))%nat.
Proof.
  revert byType. induction frames as [|message frames IH]; intros byType Hnd.
  - cbn. split; [exact Hnd|lia].
  - cbn [fold_left List.filter]. unfold count_message at 2 4, decodes at 1.
    destruct (parseMessage message) as [[p|]|].
    + destruct (IH _ (proj1 (keys_bump (event_name (type p)) byType Hnd))) as [H1 H2].
      split; [exact H1|]. rewrite H2, sum_bump. cbn [length]. lia.
    + apply IH, Hnd.
    + apply IH, Hnd.
Qed.

(** X14.  getRawMessageStats counts the buffer and, under the name of
    each kind, the frames exportRawMessagesByEventType answers for it: a
    kind without frames has no entry, no kind has two, the counts add up to
    the number of frames that decode, and the two time stamps are never
    set. *)
Theorem getRawMessageStats_counts_by_kind (k : KickEventType) (m : manager) :
  total (getRawMessageStats m) = length (exportRawMessages m)
  /\ assoc (event_name k) (byType (getRawMessageStats m))
     = match length (exportRawMessagesByEventType k m) with
       | O => None
       | n => Some n
       end
  /\ NoDup (byType (getRawMessageStats m)).*1
  /\ sum_list (byType (getRawMessageStats m)).*2
     = length (List.filter decodes (messageBuffer m))
  /\ (sum_list (byType (getRawMessageStats m)).*2 <= total (getRawMessageStats m))%nat
  /\ oldestTimestamp (getRawMessageStats m) = None
  /\ newestTimestamp (getRawMessageStats m) = None.
Proof.
  unfold getRawMessageStats, exportRawMessagesByEventType, exportRawMessages. cbn.
  destruct (keys_fold (messageBuffer m) [] (NoDup_nil_2)) as [Hkeys Hsum].
  split; [reflexivity|]. split; [|split; [exact Hkeys|split; [exact Hsum|split]]].
  - rewrite count_fold. cbn. destruct (length _); [reflexivity|f_equal].
  - rewrite Hsum. cbn. pose proof (filter_split decodes (messageBuffer m)). lia.
  - split; reflexivity.
Qed.
End Kinds.

(** ** The size of the buffer *)

Section Window.
Context {RT : Runtime} {V : Type}.

Import BufferFacts.

(** How many frames the buffer holds after [n] more, from [L]. *)
Definition held (L n : nat) (N : Z) : nat :=
  Z.to_nat (Z.max (Z.of_nat L) (Z.min (Z.of_nat (L + n)) N)).

Lemma push_bounded_window (N : Z) (frames buffer : list string) :
  fold_left (push_bounded N) frames buffer
  = drop (length buffer + length frames - held (length buffer) (length frames) N)
         (buffer ++ frames).
Proof.
  unfold held. revert buffer. induction frames as [|m frames IH]; intros buffer.
  - cbn. rewrite app_nil_r. replace (_ - _)%nat with 0%nat by lia. reflexivity.
  - cbn [fold_left length]. rewrite IH. unfold push_bounded. rewrite length_app. cbn [length].
    destruct (Z.ltb_spec N (Z.of_nat (length buffer + 1))) as [Hfull|Hroom].
    + assert (Hlen : length (tail (buffer ++ [m])) = length buffer).
      { destruct buffer; cbn; [reflexivity|]. rewrite length_app. cbn. lia. }
      rewrite Hlen.
      assert (Htail : tail (buffer ++ [m]) ++ frames = drop 1 (buffer ++ m :: frames)).
      { destruct buffer; cbn; [reflexivity|]. rewrite <- app_assoc. reflexivity. }
      rewrite Htail, drop_drop. f_equal. lia.
    + rewrite length_app. cbn [length]. rewrite <- app_assoc. cbn [app]. f_equal. lia.
Qed.

Lemma buffer_after_window (frames : list string) (s : state (V := V)) :
  buffer_after frames s
  = drop (length (buffer_of s) + length frames
          - held (length (buffer_of s)) (length frames) (size_of s))
         (buffer_of s ++ frames).
Proof. rewrite buffer_after_fold. apply push_bounded_window. Qed.

Lemma buffer_after_length (frames : list string) (s : state (V := V)) :
  length (buffer_after frames s) = held (length (buffer_of s)) (length frames) (size_of s).
Proof.
  rewrite buffer_after_window, length_drop, length_app. unfold held. lia.
Qed.

(** X15.  Whatever the buffer holds and whatever bufferSize is, after
    more frames the buffer is the tail of what it held followed by the new
    frames.  It never gets shorter; within the size it stays within it,
    and beyond the size it keeps its length, one frame out for each frame
    in.  With a size of zero or less an empty buffer stays empty. *)
Theorem addToBuffer_keeps_a_tail (frames : list string) (s : state (V := V)) :
  let before := length (buffer_of s) in
  let now := held before (length frames) (size_of s) in
  buffer_after frames s = drop (before + length frames - now) (buffer_of s ++ frames)
  /\ length (buffer_after frames s) = now
  /\ (before <= now)%nat
  /\ (Z.of_nat before <= size_of s -> Z.of_nat now <= size_of s)
  /\ (size_of s <= Z.of_nat before ->
      now = before /\ buffer_after frames s = drop (length frames) (buffer_of s ++ frames))
  /\ (size_of s <= 0 -> buffer_of s = [] -> buffer_after frames s = []).
Proof.
  intros before now. pose proof (buffer_after_window frames s) as Hw. fold before now in Hw.
  pose proof (buffer_after_length frames s) as Hlen. fold before now in Hlen.
  split; [exact Hw|]. split; [exact Hlen|]. split; [unfold now, held; lia|].
  split; [unfold now, held; lia|]. split.
  - intros Hfull. assert (Heq : now = before) by (unfold now, held; lia).
    split; [exact Heq|]. rewrite Hw, Heq. f_equal. lia.
  - intros Hzero Hempty. apply length_zero_iff_nil. rewrite Hlen.
    unfold now, held, before. rewrite Hempty. cbn [length]. lia.
Qed.


End Window.




End InspectionFacts.

(* ================================================================== *)
(** * What a frame does to the controller *)
(* ================================================================== *)

Module DeliveryFacts.
Import Js WebSocketManager MessageParser.

Section Delivery.
Context {RT : Runtime} {V : Type}.
Variable call : nat -> payload -> state (V := V) -> state (V := V) * result unit.

(** The state after the buffering step of handleMessage. *)
Definition buffered (rawMessage : string) (s : state (V := V)) : state (V := V) :=
  if enableBuffer (options (mgr (fields s)))
  then snd (fst (addToBuffer rawMessage s))
  else s.

(** The state handleMessage ends in, from the state its buffering step
    ends in. *)
Definition delivered (rawMessage : string) (s2 : state (V := V)) : state (V := V) :=
  match PipelineFacts.decoded_publish (options (mgr (fields s2))) rawMessage with
  | Publish event arg :: _ => after (emit call event arg s2)
  | _ => s2
  end.

Lemma handleMessage_state (rawMessage : string) (s : state) :
  let s1 := after (emit call "rawMessage" (RawFrame rawMessage) s) in
  snd (fst (handleMessage call rawMessage s)) = delivered rawMessage (buffered rawMessage s1).
Proof.
  intros s1. set (s2 := buffered rawMessage s1). set (opts := options (mgr (fields s1))).
  unfold handleMessage.
  erewrite PipelineFacts.mbind_run by apply PipelineFacts.this_emit_run. fold s1.
  erewrite PipelineFacts.mbind_run by reflexivity. fold opts. cbn [fst snd].
  assert (Hbuf : (if enableBuffer opts then addToBuffer rawMessage else ret tt) s1
                 = (Ok tt, s2, if enableBuffer opts then [Buffered rawMessage] else [])).
  { subst s2. unfold buffered. fold opts. destruct (enableBuffer opts); reflexivity. }
  assert (Hopts : options (mgr (fields s2)) = opts).
  { subst s2. unfold buffered. fold opts. destruct (enableBuffer opts); reflexivity. }
  erewrite PipelineFacts.mbind_run by exact Hbuf. cbn [fst snd].
  unfold delivered, PipelineFacts.decoded_publish. rewrite Hopts.
  destruct (is_system_frame rawMessage); [reflexivity|].
  destruct (PipelineFacts.extractEventType_total rawMessage) as [ev Hev].
  erewrite PipelineFacts.mbind_run by (unfold lift; rewrite Hev; reflexivity).
  erewrite PipelineFacts.mbind_run by reflexivity. rewrite Hopts, Hev. cbn [fst snd].
  destruct (match ev with Some name => isEventFiltered opts name | None => false end) eqn:Hf.
  - reflexivity.
  - cbv beta iota.
    destruct (DecoderFacts.parseMessage_total rawMessage) as [[p|] Hp].
    + erewrite PipelineFacts.mbind_run by (unfold lift; rewrite Hp; reflexivity). cbv beta iota.
      erewrite PipelineFacts.mbind_run by apply PipelineFacts.this_emit_run.
      rewrite Hp. reflexivity.
    + erewrite PipelineFacts.mbind_run by (unfold lift; rewrite Hp; reflexivity).
      rewrite Hp. reflexivity.
Qed.

Lemma isEventFiltered_allowed (opts : Options) (name : string) (k : KickEventType) :
  assoc name eventTypeMap = Some k ->
  filteredEvents opts = [] \/ k ∈ filteredEvents opts ->
  isEventFiltered opts name = false.
Proof.
  intros Hk Hallowed. unfold isEventFiltered, eventTypeMap_get. rewrite Hk.
  destruct (filteredEvents opts) as [|a allowed] eqn:E; [reflexivity|].
  destruct Hallowed as [|Hin]; [discriminate|].
  rewrite bool_decide_eq_true_2 by exact Hin. reflexivity.
Qed.

Lemma decoded_publish_allowed (opts : Options) (rawMessage : string) (p : parsed) :
  parseMessage rawMessage = Ok (Some p) ->
  filteredEvents opts = [] \/ type p ∈ filteredEvents opts ->
  PipelineFacts.decoded_publish opts rawMessage
  = [Publish (event_name (type p)) (EventData (data p))].
Proof.
  intros Hp Hallowed.
  destruct (PipelineFacts.extractEventType_of_parsed _ _ Hp) as (name & Hname & Hk & Hsys).
  unfold PipelineFacts.decoded_publish.
  rewrite Hsys, Hname, (isEventFiltered_allowed _ _ _ Hk Hallowed), Hp. reflexivity.
Qed.

Lemma buffered_events (rawMessage : string) (s : state (V := V)) :
  events (buffered rawMessage s) = events s.
Proof. unfold buffered. destruct (enableBuffer _); reflexivity. Qed.

Lemma buffered_options (rawMessage : string) (s : state (V := V)) :
  options (mgr (fields (buffered rawMessage s))) = options (mgr (fields s)).
Proof. unfold buffered. destruct (enableBuffer _) eqn:E; reflexivity. Qed.

(** X17.  A frame that decodes to a kind the filter lets through (the
    list is empty, or holds the kind) is published under the name of its
    kind with the decoded data, once, after [rawMessage] and the
    buffering; the listeners called are those registered for that name
    when the listeners of [rawMessage] have run, in their order. *)
Theorem handleMessage_delivers_allowed (rawMessage : string) (p : parsed) (s : state) :
  let s1 := after (emit call "rawMessage" (RawFrame rawMessage) s) in
  let s2 := buffered rawMessage s1 in
  let opts := options (mgr (fields s1)) in
  parseMessage rawMessage = Ok (Some p) ->
  filteredEvents opts = [] \/ type p ∈ filteredEvents opts ->
  snd (handleMessage call rawMessage s)
  = Publish "rawMessage" (RawFrame rawMessage)
      :: (if enableBuffer opts then [Buffered rawMessage] else [])
      ++ [Publish (event_name (type p)) (EventData (data p))]
  /\ snd (fst (handleMessage call rawMessage s))
     = after (emit call (event_name (type p)) (EventData (data p)) s2)
  /\ List.map fst (calls (emit call (event_name (type p)) (EventData (data p)) s2))
     = listeners_of (event_name (type p)) s1.
Proof.
  intros s1 s2 opts Hp Hallowed.
  destruct (PipelineFacts.handleMessage_trace call rawMessage s) as [_ Htrace].
  fold s1 opts in Htrace.
  pose proof (handleMessage_state rawMessage s) as Hstate. fold s1 s2 in Hstate.
  pose proof (decoded_publish_allowed opts rawMessage p Hp Hallowed) as Hpub.
  split; [rewrite Htrace, Hpub; reflexivity|]. split.
  - rewrite Hstate. unfold delivered, s2. rewrite (buffered_options rawMessage s1).
    fold opts. rewrite Hpub. reflexivity.
  - rewrite EmitterFacts.emit_calls. unfold listeners_of, s2.
    rewrite buffered_events. reflexivity.
Qed.

(** X18.  Whatever the frame is (a control frame of the transport, a
    frame the filter drops, text that is not JSON), handleMessage does not
    throw and, with listeners that leave the controller alone, changes
    nothing of the manager but the buffer, to which it appends the frame
    when the buffer is enabled; timers, sockets and lookups are left as
    they are. *)
Theorem handleMessage_only_buffers (rawMessage : string) (s : state) :
  ControllerFacts.quiet call ->
  fst (fst (handleMessage call rawMessage s)) = Ok tt
  /\ mgr (fields (snd (fst (handleMessage call rawMessage s))))
     = (if enableBuffer (options (mgr (fields s)))
        then set_messageBuffer
               (push_bounded (bufferSize (options (mgr (fields s))))
                             (messageBuffer (mgr (fields s))) rawMessage)
               (mgr (fields s))
        else mgr (fields s))
  /\ env (fields (snd (fst (handleMessage call rawMessage s)))) = env (fields s).
Proof.
  intros Hq. split; [apply (PipelineFacts.handleMessage_trace call rawMessage s)|].
  rewrite handleMessage_state.
  set (s1 := after (emit call "rawMessage" (RawFrame rawMessage) s)).
  destruct (ControllerFacts.emit_quiet call "rawMessage" (RawFrame rawMessage) s Hq)
    as [Hmgr Henv].
  fold s1 in Hmgr, Henv.
  assert (H2 : mgr (fields (buffered rawMessage s1))
               = (if enableBuffer (options (mgr (fields s)))
                  then set_messageBuffer
                         (push_bounded (bufferSize (options (mgr (fields s))))
                                       (messageBuffer (mgr (fields s))) rawMessage)
                         (mgr (fields s))
                  else mgr (fields s))
               /\ env (fields (buffered rawMessage s1)) = env (fields s)).
  { unfold buffered. rewrite Hmgr. destruct (enableBuffer (options (mgr (fields s)))).
    - cbn. rewrite Hmgr, Henv. split; reflexivity.
    - split; assumption. }
  unfold delivered.
  destruct (PipelineFacts.decoded_publish _ rawMessage) as [|[event arg| | | | | | | |] rest];
    try exact H2.
  destruct (ControllerFacts.emit_quiet call event arg (buffered rawMessage s1) Hq)
    as [Hmgr' Henv'].
  rewrite Hmgr', Henv'. exact H2.
Qed.
End Delivery.

(** A controller with a listener on [UserBanned] and no filter, and one
    that buffers. *)
Definition listening : state (V := nat) :=
  onUserBanned (Fn 1) (new_state default_options 0%nat).

Definition buffering : state (V := nat) :=
  new_state (spread default_options
               {| opt_debug := None; opt_autoReconnect := None; opt_reconnectInterval := None;
                  opt_enableBuffer := Some true; opt_bufferSize := None;
                  opt_filteredEvents := None |}) 0%nat.

Definition ban : parsed (RT := Host.runtime) :=
  {| type := UserBanned;
     data := VObj [("username", VStr "bob"); ("type", VStr "user_banned")] |}.

Lemma handleMessage_delivers_allowed_witness :
  snd (handleMessage PipelineFacts.counting DecoderFacts.ban_frame listening)
  = [Publish "rawMessage" (RawFrame DecoderFacts.ban_frame);
     Publish "UserBanned" (EventData (data ban))]
  /\ List.map fst (calls (emit PipelineFacts.counting "UserBanned" (EventData (data ban))
                              listening))
     = [Fn 1].
Proof.
  destruct (handleMessage_delivers_allowed PipelineFacts.counting DecoderFacts.ban_frame ban
              listening eq_refl (or_introl eq_refl)) as (Htrace & _ & Hcalls).
  split; [exact Htrace|exact Hcalls].
Defined.

Lemma handleMessage_only_buffers_witness :
  messageBuffer
    (mgr (fields (snd (fst (handleMessage PipelineFacts.counting DecoderFacts.ping_frame
                              buffering)))))
  = [DecoderFacts.ping_frame]
  /\ connectionState
       (mgr (fields (snd (fst (handleMessage PipelineFacts.counting DecoderFacts.ping_frame
                                 buffering)))))
     = disconnected.
Proof.
  destruct (handleMessage_only_buffers PipelineFacts.counting DecoderFacts.ping_frame buffering
              ControllerFacts.counting_quiet) as (_ & Hmgr & _).
  rewrite Hmgr. split; reflexivity.
Defined.

End DeliveryFacts.

(* ================================================================== *)
(** * Registering by kind, and the presets *)
(* ================================================================== *)

Module ConvenienceFacts.
Import Js KickWebSocket MessageParser.

Section Registering.
Context {U : Type}.

(** The ten kinds a frame can decode to. *)
Definition chat_kinds : list KickEventType :=
  [ChatMessage; MessageDeleted; UserBanned; UserUnbanned; Subscription;
   GiftedSubscriptions; PinnedMessageCreated; StreamHost; PollUpdate; PollDelete].

Lemma listeners_of_on_each (kinds : list KickEventType) (handler : listener) (event : string)
      (o : object U) :
  listeners_of event (on_each kinds handler o)
  = if bool_decide (event ∈ event_name <$> kinds) then set_add handler (listeners_of event o)
    else listeners_of event o.
Proof.
  unfold on_each. revert o. induction kinds as [|k kinds IH]; intros o.
  - cbn. rewrite bool_decide_eq_false_2 by apply not_elem_of_nil. reflexivity.
  - cbn [fold_left fmap list_fmap]. rewrite IH.
    destruct (decide (event = event_name k)) as [->|Hne].
    + rewrite EmitterFacts.listeners_of_on, EmitterFacts.set_add_idem.
      rewrite (bool_decide_eq_true_2 (_ ∈ _ :: _)) by (left).
      case_bool_decide; reflexivity.
    + rewrite RegistryFacts.listeners_of_on_ne by congruence.
      apply (f_equal (fun b : bool => if b then _ else _)). apply bool_decide_ext.
      rewrite elem_of_cons. tauto.
Qed.

Lemma chat_kinds_all (k : KickEventType) :
  FrameFacts.type_tag k <> None -> event_name k ∈ event_name <$> chat_kinds.
Proof.
  intros H. apply list_elem_of_fmap. exists k. split; [reflexivity|].
  destruct k; try (contradiction H; reflexivity); repeat constructor.
Qed.

(** X21.  onAllEvents registers the handler for the ten kinds of chat
    event, once each, and for no other event: every event parseMessage
    decodes reaches the handler, and [ready], [disconnect], [error] and
    [rawMessage] do not. *)
Theorem onAllEvents_covers_decoded_events (handler : listener) (event : string) (o : object U) :
  listeners_of event (onAllEvents handler o)
  = (if bool_decide (event ∈ event_name <$> chat_kinds)
     then set_add handler (listeners_of event o)
     else listeners_of event o)
  /\ (forall {RT : Runtime} (raw : string) (p : parsed),
        parseMessage raw = Ok (Some p) ->
        handler ∈ listeners_of (event_name (type p)) (onAllEvents handler o))
  /\ (forall lifecycle,
        lifecycle ∈ [ready; disconnect; error; rawMessage] ->
        listeners_of (event_name lifecycle) (onAllEvents handler o)
        = listeners_of (event_name lifecycle) o).
Proof.
  split; [apply listeners_of_on_each|]. split.
  - intros RT raw p Hp. unfold onAllEvents. rewrite listeners_of_on_each.
    fold chat_kinds. rewrite bool_decide_eq_true_2; [apply EmitterFacts.set_add_elem|].
    apply chat_kinds_all.
    destruct (FrameFacts.decoded_by raw p Hp) as (payload & _ & Hdec).
    destruct (FrameFacts.decoder_tagged _ _ _ Hdec) as (fields & tag & _ & Htag & _).
    rewrite Htag. discriminate.
  - intros lifecycle Hin. unfold onAllEvents. rewrite listeners_of_on_each.
    repeat (apply elem_of_cons in Hin as [->|Hin]); try reflexivity.
    apply elem_of_nil in Hin. contradiction.
Qed.

Lemma set_add_twice (handler : listener) (b : bool) (ls : list listener) :
  set_add handler (if b then set_add handler ls else ls) = set_add handler ls.
Proof. destruct b; [apply EmitterFacts.set_add_idem|reflexivity]. Qed.

(** X22.  onChatEvents, onUserEvents and onStreamEvents together
    register what onAllEvents registers: for every event the listeners
    are the same, in the same order, whatever was registered before. *)
Theorem group_helpers_make_onAllEvents (handler : listener) (event : string) (o : object U) :
  listeners_of event (onStreamEvents handler (onUserEvents handler (onChatEvents handler o)))
  = listeners_of event (onAllEvents handler o)
  /\ listeners_of event (onChatEvents handler (onStreamEvents handler (onUserEvents handler o)))
     = listeners_of event (onAllEvents handler o).
Proof.
  unfold onStreamEvents, onUserEvents, onChatEvents, onAllEvents.
  rewrite !listeners_of_on_each. cbn [fmap list_fmap event_name].
  split.
  - repeat case_bool_decide; rewrite ?EmitterFacts.set_add_idem; try reflexivity;
      exfalso;
      repeat match goal with
             | H : _ ∈ _ :: _ |- _ => apply elem_of_cons in H as [H|H]
             | H : _ ∈ [] |- _ => apply elem_of_nil in H; contradiction
             | H : ~ _ ∈ _ :: _ |- _ => apply not_elem_of_cons in H as [? H]
             end; congruence.
  - repeat case_bool_decide; rewrite ?EmitterFacts.set_add_idem; try reflexivity;
      exfalso;
      repeat match goal with
             | H : _ ∈ _ :: _ |- _ => apply elem_of_cons in H as [H|H]
             | H : _ ∈ [] |- _ => apply elem_of_nil in H; contradiction
             | H : ~ _ ∈ _ :: _ |- _ => apply not_elem_of_cons in H as [? H]
             end; congruence.
Qed.

(** The helper WebSocketManager has for each event. *)
Definition helper_of (k : KickEventType) : listener -> object U -> object U :=
  match k with
  | ChatMessage => onChatMessage
  | MessageDeleted => onMessageDeleted
  | UserBanned => onUserBanned
  | UserUnbanned => onUserUnbanned
  | Subscription => onSubscription
  | GiftedSubscriptions => onGiftedSubscriptions
  | PinnedMessageCreated => onPinnedMessageCreated
  | StreamHost => onStreamHost
  | PollUpdate => onPollUpdate
  | PollDelete => onPollDelete
  | ready => onReady
  | disconnect => onDisconnect
  | error => onError
  | rawMessage => onRawMessage
  end.

Lemma helper_of_on (k : KickEventType) (handler : listener) (o : object U) :
  helper_of k handler o = on (event_name k) handler o.
Proof. destruct k; reflexivity. Qed.
End Registering.

Section Called.
Context {RT : Runtime} {V : Type}.
Variable call : nat -> payload -> state (V := V) -> state (V := V) * result unit.

Lemma registered_is_called (id : nat) (event : string) (arg : payload) (s : state (V := V)) :
  Fn id ∈ listeners_of event s -> Fn id ∈ List.map fst (calls (emit call event arg s)).
Proof. intros H. rewrite EmitterFacts.emit_calls. exact H. Qed.

Lemma helper_registers (k : KickEventType) (id : nat) (s : state (V := V)) :
  Fn id ∈ listeners_of (event_name k) (helper_of k (Fn id) s).
Proof. rewrite helper_of_on, EmitterFacts.listeners_of_on. apply EmitterFacts.set_add_elem. Qed.

(** handleDisconnect and handleConnectionError set the state, publish
    and then see to the reconnection. *)
Lemma publish_after_state (st : ConnectionState) (event : string) (arg : payload)
      (s : state (V := V)) :
  mbind (setConnectionState st)
        (fun _ => mbind (this_emit call event arg) (fun _ => reconnect_if_wanted)) s
  = mbind (this_emit call event arg) (fun _ => reconnect_if_wanted)
          (snd (fst (setConnectionState (V := V) st s))).
Proof.
  set (s1 := snd (fst (setConnectionState (V := V) st s))).
  rewrite (PipelineFacts.mbind_run _ _ s s1 tt [] eq_refl). cbv beta.
  destruct (mbind (this_emit call event arg) (fun _ => reconnect_if_wanted) s1) as [[r s2] t2].
  reflexivity.
Qed.

(** X23.  Each of the fourteen helpers (onChatMessage, ..., onReady,
    onDisconnect, onError, onRawMessage) registers the function for the
    event of its name and for no other, and a publish of that event
    calls it.  A function registered with the helper of a decoded kind is
    called with the decoded data of every frame of that kind the filter
    lets through; one registered with onRawMessage is called with the
    text of every frame; one registered with onReady, onDisconnect or
    onError is called when subscribeToChannel, handleDisconnect or
    handleConnectionError publishes.  Listeners are taken not to register
    or remove listeners. *)
Theorem helper_handler_is_called (id : nat) (s : state (V := V)) :
  (forall f arg o, events (fst (call f arg o)) = events o) ->
  (forall k arg,
      let s0 := helper_of k (Fn id) s in
      listeners_of (event_name k) s0 = set_add (Fn id) (listeners_of (event_name k) s)
      /\ (forall other, other <> event_name k -> listeners_of other s0 = listeners_of other s)
      /\ Fn id ∈ List.map fst (calls (emit call (event_name k) arg s0)))
  /\ (forall rawMessage p,
        parseMessage rawMessage = Ok (Some p) ->
        let s0 := helper_of (type p) (Fn id) s in
        let s1 := after (emit call "rawMessage" (RawFrame rawMessage) s0) in
        let s2 := DeliveryFacts.buffered rawMessage s1 in
        filteredEvents (options (mgr (fields s1))) = []
        \/ type p ∈ filteredEvents (options (mgr (fields s1))) ->
        snd (fst (handleMessage call rawMessage s0))
        = after (emit call (event_name (type p)) (EventData (data p)) s2)
        /\ Fn id ∈ List.map fst
                     (calls (emit call (event_name (type p)) (EventData (data p)) s2)))
  /\ (forall rawMessage,
        let s0 := onRawMessage (Fn id) s in
        let published := emit call "rawMessage" (RawFrame rawMessage) s0 in
        Fn id ∈ List.map fst (calls published)
        /\ snd (fst (handleMessage call rawMessage s0))
           = DeliveryFacts.delivered call rawMessage
               (DeliveryFacts.buffered rawMessage (after published))
        /\ exists rest,
             snd (handleMessage call rawMessage s0)
             = Publish "rawMessage" (RawFrame rawMessage) :: rest)
  /\ (forall socket,
        let s0 := onReady (Fn id) s in
        let s1 := snd (fst (setConnectionState (V := V) connected s0)) in
        let published := emit call "ready" (Ready (channelName (mgr (fields s0)))) s1 in
        ws (mgr (fields s0)) = Some socket ->
        sockets (env (fields s0)) !! socket = Some OPEN ->
        Fn id ∈ List.map fst (calls published)
        /\ snd (fst (subscribeToChannel call s0)) = after published)
  /\ (forall code reason,
        let s0 := onDisconnect (Fn id) s in
        let s1 := snd (fst (setConnectionState (V := V) disconnected s0)) in
        Fn id ∈ List.map fst (calls (emit call "disconnect" (Closed code reason) s1))
        /\ handleDisconnect call code reason s0
           = mbind (this_emit call "disconnect" (Closed code reason))
                   (fun _ => reconnect_if_wanted) s1)
  /\ (forall message,
        let s0 := onError (Fn id) s in
        let s1 := snd (fst (setConnectionState (V := V) WebSocketManager.error s0)) in
        Fn id ∈ List.map fst (calls (emit call "error" (Failure message) s1))
        /\ handleConnectionError call message s0
           = mbind (this_emit call "error" (Failure message))
                   (fun _ => reconnect_if_wanted) s1).
Proof.
  intros calm. split; [|split; [|split; [|split; [|split]]]].
  - intros k arg s0. split; [|split].
    + unfold s0. rewrite helper_of_on. apply EmitterFacts.listeners_of_on.
    + intros other Hne. unfold s0. rewrite helper_of_on.
      apply RegistryFacts.listeners_of_on_ne. congruence.
    + apply registered_is_called, helper_registers.
  - intros rawMessage p Hp s0 s1 s2 Hallowed.
    pose proof (DeliveryFacts.handleMessage_state call rawMessage s0) as Hstate.
    fold s1 s2 in Hstate.
    pose proof (DeliveryFacts.decoded_publish_allowed _ rawMessage p Hp Hallowed) as Hpub.
    split.
    + rewrite Hstate. unfold DeliveryFacts.delivered, s2.
      rewrite (DeliveryFacts.buffered_options rawMessage s1), Hpub. reflexivity.
    + apply registered_is_called. unfold listeners_of, s2.
      rewrite DeliveryFacts.buffered_events. fold (listeners_of (event_name (type p)) s1).
      apply RegistryFacts.emit_keeps; [exact calm|]. apply helper_registers.
  - intros rawMessage s0 published. split; [|split].
    + apply registered_is_called, (helper_registers MessageParser.rawMessage).
    + apply (DeliveryFacts.handleMessage_state call rawMessage s0).
    + destruct (PipelineFacts.handleMessage_trace call rawMessage s0) as [_ Htrace].
      rewrite Htrace. eexists. reflexivity.
  - intros socket s0 s1 published Hws Hopen. split.
    + apply registered_is_called, (helper_registers MessageParser.ready).
    + rewrite (ControllerFacts.subscribeToChannel_open call socket s0 Hws Hopen). reflexivity.
  - intros code reason s0 s1. split.
    + apply registered_is_called, (helper_registers MessageParser.disconnect).
    + apply publish_after_state.
  - intros message s0 s1. split.
    + apply registered_is_called, (helper_registers MessageParser.error).
    + apply publish_after_state.
Qed.

(** ** The filter *)

Lemma eventTypeMap_get_own (name : string) (k : KickEventType) :
  assoc name eventTypeMap = Some k -> eventTypeMap_get name = Own k.
Proof. intros H. unfold eventTypeMap_get. rewrite H. reflexivity. Qed.

(** X24.  isEventFiltered answers [true], and the frame is dropped,
    exactly when the filter list is not empty and the event name is one of
    the ten of the table with a kind that is not in the list, or is a
    name every object inherits (such as [toString]); a name that is
    neither is never filtered.  For a frame that decodes, the answer is
    the one the decoded kind gives. *)
Theorem isEventFiltered_drops_unlisted_kinds (opts : Options) (name : string) :
  (isEventFiltered opts name = true
   <-> filteredEvents opts <> []
       /\ ((exists k, assoc name eventTypeMap = Some k /\ k ∉ filteredEvents opts)
           \/ (assoc name eventTypeMap = None /\ name ∈ object_prototype_keys)))
  /\ (filteredEvents opts = [] -> isEventFiltered opts name = false)
  /\ (assoc name eventTypeMap = None -> name ∉ object_prototype_keys ->
      isEventFiltered opts name = false)
  /\ (forall rawMessage p,
        parseMessage rawMessage = Ok (Some p) ->
        extractEventType rawMessage = Ok (Some name) ->
        isEventFiltered opts name
        = negb (bool_decide (filteredEvents opts = []))
          && negb (bool_decide (type p ∈ filteredEvents opts))).
Proof.
  split; [|split; [|split]].
  - unfold isEventFiltered, eventTypeMap_get.
    destruct (filteredEvents opts) as [|a allowed] eqn:E.
    { split; [discriminate|]. intros [H _]. contradiction. }
    destruct (assoc name eventTypeMap) as [k|].
    + split.
      * intros H. split; [discriminate|]. left. exists k. split; [reflexivity|].
        apply negb_true_iff, bool_decide_eq_false in H. exact H.
      * intros [_ [(k' & [= <-] & Hk)|[[=] _]]].
        apply negb_true_iff, bool_decide_eq_false. exact Hk.
    + case_bool_decide as Hin.
      * split; [|reflexivity]. intros _. split; [discriminate|]. right. split; [reflexivity|].
        exact Hin.
      * split; [discriminate|]. intros [_ [(k' & [=] & _)|[_ H]]]. contradiction.
  - intros H. unfold isEventFiltered. rewrite H. reflexivity.
  - intros Hnone Hout. unfold isEventFiltered, eventTypeMap_get. rewrite Hnone.
    rewrite bool_decide_eq_false_2 by exact Hout.
    destruct (filteredEvents opts); reflexivity.
  - intros rawMessage p Hp Hname.
    destruct (PipelineFacts.extractEventType_of_parsed _ _ Hp) as (name' & Hname' & Hk & _).
    rewrite Hname in Hname'. inversion Hname'; subst name'.
    unfold isEventFiltered. rewrite (eventTypeMap_get_own _ _ Hk).
    destruct (filteredEvents opts) as [|a allowed]; reflexivity.
Qed.

(** ** The presets *)

Definition lightweight_options : Options :=
  {| debug := false; autoReconnect := true; reconnectInterval := 10000;
     enableBuffer := false; bufferSize := 1000; filteredEvents := [ChatMessage] |}.

Definition debug_options : Options :=
  {| debug := true; autoReconnect := true; reconnectInterval := 3000;
     enableBuffer := true; bufferSize := 500; filteredEvents := [] |}.

Definition analytics_options : Options :=
  {| debug := false; autoReconnect := true; reconnectInterval := 5000;
     enableBuffer := true; bufferSize := 2000;
     filteredEvents := [ChatMessage; UserBanned; Subscription; GiftedSubscriptions] |}.

(** The three factories, each with the options its instances have. *)
Definition presets
  : list ((option string -> V -> state (V := V) * list action) * Options) :=
  [(createLightweight call, lightweight_options);
   (createDebug call, debug_options);
   (createAnalytics call, analytics_options)].

(** X25.  createLightweight, createDebug and createAnalytics answer a
    new instance with the options of the preset, the options the preset
    leaves out at their default.  Without a channel name, and with the
    empty name, nothing is started; with a name the instance is connecting
    to that channel, one lookup started, when the factory returns. *)
Theorem factories_start_connecting (factory : option string -> V -> state (V := V) * list action)
        (opts : Options) (v : V) :
  (factory, opts) ∈ presets ->
  factory None v = (new_state opts v, [])
  /\ factory (Some EmptyString) v = (new_state opts v, [])
  /\ (forall name,
        name <> EmptyString ->
        snd (factory (Some name) v) = [Fetch 1 name]
        /\ options (mgr (fields (fst (factory (Some name) v)))) = opts
        /\ getConnectionState (mgr (fields (fst (factory (Some name) v)))) = connecting
        /\ getChannelName (mgr (fields (fst (factory (Some name) v)))) = name
        /\ events (fst (factory (Some name) v)) = ∅).
Proof.
  intros Hin. unfold presets in Hin.
  repeat (apply elem_of_cons in Hin as [Hin|Hin]; [inversion Hin; subst; clear Hin|]);
    try (apply elem_of_nil in Hin; contradiction).
  all: split; [reflexivity|]; split; [reflexivity|].
  all: intros name Hname.
  all: unfold createLightweight, createDebug, createAnalytics, create.
  all: destruct (String.eqb_spec name EmptyString) as [|_]; [contradiction|].
  all: repeat split.
Qed.
End Called.

Lemma counting_calm (f : nat) (arg : payload) (o : state (V := nat)) :
  events (fst (PipelineFacts.counting f arg o)) = events o.
Proof. reflexivity. Qed.

Lemma helper_handler_is_called_witness :
  Fn 7 ∈ List.map fst
           (calls (emit PipelineFacts.counting "UserBanned" (EventData (data DeliveryFacts.ban))
                     (DeliveryFacts.buffered DecoderFacts.ban_frame
                        (after (emit PipelineFacts.counting "rawMessage"
                                  (RawFrame DecoderFacts.ban_frame)
                                  (onUserBanned (Fn 7) (new_state default_options 0%nat)))))))
  /\ Fn 7 ∈ List.map fst
              (calls (emit PipelineFacts.counting "rawMessage" (RawFrame "not a frame")
                        (onRawMessage (Fn 7) (new_state default_options 0%nat))))
  /\ Fn 7 ∈ List.map fst
              (calls (emit PipelineFacts.counting "disconnect" (Closed 1006 "gone")
                        (snd (fst (setConnectionState (V := nat) disconnected
                                     (onDisconnect (Fn 7) (new_state default_options 0%nat))))))).
Proof.
  destruct (helper_handler_is_called PipelineFacts.counting 7 (new_state default_options 0%nat)
              counting_calm) as (_ & Hdecoded & Hraw & _ & Hclosed & _).
  split; [|split].
  - exact (proj2 (Hdecoded DecoderFacts.ban_frame DeliveryFacts.ban eq_refl
                    (or_introl eq_refl))).
  - exact (proj1 (Hraw "not a frame")).
  - exact (proj1 (Hclosed 1006 "gone")).
Defined.

Lemma factories_start_connecting_witness :
  snd (createLightweight PipelineFacts.counting (Some "chan") 0%nat) = [Fetch 1 "chan"]
  /\ options (mgr (fields (fst (createLightweight PipelineFacts.counting (Some "chan") 0%nat))))
     = lightweight_options.
Proof.
  destruct (factories_start_connecting PipelineFacts.counting
              (createLightweight PipelineFacts.counting) lightweight_options 0%nat)
    as (_ & _ & H).
  - left.
  - destruct (H "chan") as (Htrace & Hopts & _); [discriminate|].
    split; [exact Htrace|exact Hopts].
Defined.

End ConvenienceFacts.
